(** * Vibe Navigator: a shallow embedding of the API service, the
      summarizer and the scraper's command-line path.

    The development follows the three source files:
    - [ai_summarizer.py]  (module [Summarizer]),
    - [gmaps_scraper.py]  (module [Scraper]; module [Gmaps] for the browser),
    - [main.py]           (modules [Store] and [Api]).

    Python's [json] module, which both the summarizer and the API service
    call, is modelled in module [Json].

    What the model covers and what it leaves out:
    - a [str] is a list of code points, lone surrogates included, as in
      Python; the string literals of the sources are ASCII;
    - an [int] is a [Z]; a statement binds it when it fits SQLite's 64-bit
      INTEGER and raises [OverflowError] when it does not; [places]
      refuses a row once it has held the largest rowid, which [reviews]
      and [vibe_summaries] are taken never to reach;
    - a TEXT value of the database is Unicode text, which is all that a
      statement binds; LIKE is modelled as SQLite evaluates it, with its
      reading of U+0000, U+FFFE and U+FFFF and the limit on the length of
      a pattern;
    - console output and calls that leave the process (the LLM API, the
      review extractors, Reddit, the browser) are recorded as events; what
      those calls answer is a parameter of the functions that make them;
    - the database is the committed content of the three tables; every
      handler and every background task runs to its end before the next
      one starts (the places where a task awaits are not interleaving
      points of the model);
    - floating point, Unicode case mapping and the coercions of pydantic
      are parameters (class [Host]);
    - other limits of the hosts (recursion depth of [json.loads], size of
      a request, memory) are not modelled. *)

From Stdlib Require Import List NArith ZArith String Ascii Bool Lia Arith DecimalString.
Import ListNotations.

Set Implicit Arguments.
Set Warnings "-register-all".

(** ** Python strings

    A Python [str] is a sequence of Unicode code points; lone surrogates
    (U+D800..U+DFFF) are legal members of a [str]. *)

Definition pystr := list N.

(** A literal of the sources; every such literal is ASCII. *)
Definition py (s : string) : pystr := map N_of_ascii (list_ascii_of_string s).

Definition pystr_eqb (a b : pystr) : bool :=
  if list_eq_dec N.eq_dec a b then true else false.

(** [sep.join(parts)] *)
Fixpoint join (sep : pystr) (parts : list pystr) : pystr :=
  match parts with
  | [] => []
  | [p] => p
  | p :: rest => p ++ sep ++ join sep rest
  end.

(** Python truthiness of a [str]: the empty string is falsy. *)
Definition truthy (s : pystr) : bool :=
  match s with [] => false | _ => true end.

(** Truthiness of an [Optional[str]]: [None] and the empty string are both
    falsy. *)
Definition truthy_opt (o : option pystr) : bool :=
  match o with Some s => truthy s | None => false end.

Definition is_high_surrogate (c : N) : bool := ((0xD800 <=? c) && (c <=? 0xDBFF))%N.
Definition is_low_surrogate (c : N) : bool := ((0xDC00 <=? c) && (c <=? 0xDFFF))%N.
Definition is_surrogate (c : N) : bool := ((0xD800 <=? c) && (c <=? 0xDFFF))%N.

(** A [str] can be encoded as UTF-8 exactly when it holds no surrogate code
    point; the [sqlite3] binding raises [UnicodeEncodeError] otherwise. *)
Definition utf8_encodable (s : pystr) : bool := forallb (fun c => negb (is_surrogate c)) s.

(** ** Exceptions and results

    [exn] lists subclasses of [Exception]: every [except Exception] clause
    of the sources catches each of them.  The scraper's [sys.exit] is not
    one of them and is modelled apart (module [Scraper]). *)

Inductive exn :=
| NameError (name : pystr)
| JSONDecodeError
| AttributeError
| ValidationError
| UnicodeEncodeError
| IntegrityError
| ProgrammingError
| OverflowError
| OperationalError
| HTTPException (status_code : Z) (detail : pystr)
| RuntimeError (msg : pystr).

Inductive pyres (A : Type) :=
| Ret (a : A)
| Raise (e : exn).
Arguments Ret {A} a.
Arguments Raise {A} e.

(** ** The Python values that [json.loads] builds

    A number is kept as the literal it was read from ([NaN], [Infinity]
    and [-Infinity] included); a [dict] is kept in insertion order. *)

Inductive json :=
| JNull
| JBool (b : bool)
| JNum (lexeme : pystr)
| JStr (s : pystr)
| JArr (items : list json)
| JObj (members : list (pystr * json)).

(** ** Behaviour of the libraries that is left abstract

    Floating point formatting, SQLite's conversion of a bound number to
    TEXT, Unicode case mapping outside ASCII and pydantic's coercion of
    non-string list items depend on library versions and on floating
    point; they are taken as parameters. *)

Class Host := {
  (** Python's [float] *)
  pyfloat : Type;
  (** [repr] of the number a JSON number literal denotes, as [json.dumps]
      prints it *)
  num_repr : pystr -> pystr;
  (** the TEXT that SQLite stores when a number is bound to a TEXT column;
      [None] when the binding raises (integer overflow) *)
  num_as_text : pystr -> option pystr;
  (** [str.lower()] on a string with a non-ASCII code point *)
  unicode_lower : pystr -> pystr;
  (** what pydantic makes of a list item that is not a [str] where a [str]
      is declared: [None] when validation fails *)
  coerce_item : json -> option pystr;
  (** [str(e)] *)
  exn_text : exn -> pystr
}.

(** ** Observable effects: console output and calls that leave the
    process *)

Record chat_request := {
  model : pystr;
  system_content : pystr;
  user_content : pystr;
  temperature : pystr;        (* the decimal literal of the source *)
  max_tokens : Z
}.

Inductive event :=
| Print (msg : pystr)
| ChatCompletion (request : chat_request)  (* openai.ChatCompletion.acreate *)
| ExtractorCall (name : pystr) (url : pystr)
| RedditInit (client_id client_secret user_agent : pystr)
| RedditSearch (subreddit : pystr) (query : pystr) (limit : Z)
| BrowserSearch (query : pystr) (limit : Z)
| WriteCsv (filename : pystr) (records : nat).

Definition nl : pystr := [10%N].
Definition dq : pystr := [34%N].

(** [str(z)] for an [int] *)
Definition str_of_Z (z : Z) : pystr := py (NilZero.string_of_int (Z.to_int z)).

Definition ascii_lower_char (c : N) : N :=
  if ((65 <=? c) && (c <=? 90))%N then (c + 32)%N else c.

Definition is_ascii (c : N) : bool := (c <? 128)%N.

(** [s.lower()] *)
Definition py_lower {host : Host} (s : pystr) : pystr :=
  if forallb is_ascii s then map ascii_lower_char s else unicode_lower s.

(** A host for the examples: floats are not used, numbers print as they
    were read, nothing is coerced. *)
Definition example_host : Host :=
  {| pyfloat := unit;
     num_repr := fun lexeme => lexeme;
     num_as_text := fun lexeme => Some lexeme;
     unicode_lower := fun s => s;
     coerce_item := fun _ => None;
     exn_text := fun _ => [] |}.

(** * Python's [json] module *)

Module Json.
Local Open Scope N_scope.

(** *** Encoding ([json.dumps], default arguments: [ensure_ascii=True],
    separators [", "] and [": "]) *)

Definition hexdigit (d : N) : N := if d <? 10 then 48 + d else 87 + d.

(** ['{0:04x}'.format(n)] for [n < 0x10000] *)
Definition hex4 (n : N) : pystr :=
  [hexdigit ((n / 4096) mod 16); hexdigit ((n / 256) mod 16);
   hexdigit ((n / 16) mod 16); hexdigit (n mod 16)].

(** [replace(match)] of [py_encode_basestring_ascii], applied to every
    code point: [ESCAPE_ASCII] matches a backslash, a double quote and
    everything outside [' '..'~']. *)
Definition escape_char (c : N) : pystr :=
  if c =? 92 then [92; 92]                 (* backslash *)
  else if c =? 34 then [92; 34]            (* quote *)
  else if c =? 8 then [92; 98]             (* b *)
  else if c =? 12 then [92; 102]           (* f *)
  else if c =? 10 then [92; 110]           (* n *)
  else if c =? 13 then [92; 114]           (* r *)
  else if c =? 9 then [92; 116]            (* t *)
  else if (32 <=? c) && (c <=? 126) then [c]
  else if c <? 0x10000 then 92 :: 117 :: hex4 c
  else
    let n := c - 0x10000 in
    let s1 := N.lor 0xd800 (N.land (N.shiftr n 10) 0x3ff) in
    let s2 := N.lor 0xdc00 (N.land n 0x3ff) in
    (92 :: 117 :: hex4 s1) ++ (92 :: 117 :: hex4 s2).

Definition encode_basestring_ascii (s : pystr) : pystr :=
  34 :: flat_map escape_char s ++ [34].

Section Dumps.
Context {host : Host}.

Fixpoint json_dumps (v : json) : pystr :=
  match v with
  | JNull => py "null"
  | JBool true => py "true"
  | JBool false => py "false"
  | JNum lexeme => num_repr lexeme
  | JStr s => encode_basestring_ascii s
  | JArr items => 91 :: join (py ", ") (map json_dumps items) ++ [93]
  | JObj members =>
      123 :: join (py ", ")
               (map (fun kv => encode_basestring_ascii (fst kv) ++ py ": " ++ json_dumps (snd kv))
                    members) ++ [125]
  end.

End Dumps.

(** *** Decoding ([json.loads]) *)

Inductive parsed (A : Type) :=
| Parsed (a : A) (rest : pystr)
| DecodeError
| NoFuel.
Arguments Parsed {A} a rest.
Arguments DecodeError {A}.
Arguments NoFuel {A}.

Definition parsed_map {A B} (f : A -> B) (p : parsed A) : parsed B :=
  match p with
  | Parsed a r => Parsed (f a) r
  | DecodeError => DecodeError
  | NoFuel => NoFuel
  end.

(** [WHITESPACE = re.compile(r'[ \t\n\r]*')] *)
Definition is_ws (c : N) : bool := (c =? 32) || (c =? 9) || (c =? 10) || (c =? 13).

Fixpoint skip_ws (s : pystr) : pystr :=
  match s with
  | c :: r => if is_ws c then skip_ws r else s
  | [] => []
  end.

Definition hexval (c : N) : option N :=
  if (48 <=? c) && (c <=? 57) then Some (c - 48)
  else if (97 <=? c) && (c <=? 102) then Some (c - 87)
  else if (65 <=? c) && (c <=? 70) then Some (c - 55)
  else None.

(** [_decode_uXXXX]: four hexadecimal digits *)
Definition decode_uXXXX (a b c d : N) : option N :=
  match hexval a, hexval b, hexval c, hexval d with
  | Some x, Some y, Some z, Some w => Some (x * 4096 + y * 256 + z * 16 + w)
  | _, _, _, _ => None
  end.

(** [BACKSLASH]: the one-character escapes *)
Definition unescape (e : N) : option N :=
  if e =? 34 then Some 34          (* quote *)
  else if e =? 92 then Some 92     (* backslash *)
  else if e =? 47 then Some 47     (* slash *)
  else if e =? 98 then Some 8      (* b *)
  else if e =? 102 then Some 12    (* f *)
  else if e =? 110 then Some 10    (* n *)
  else if e =? 114 then Some 13    (* r *)
  else if e =? 116 then Some 9     (* t *)
  else None.

(** [0x10000 + (((uni - 0xd800) << 10) | (uni2 - 0xdc00))] *)
Definition join_surrogates (uni uni2 : N) : N :=
  0x10000 + N.lor (N.shiftl (uni - 0xd800) 10) (uni2 - 0xdc00).

Definition cons_char (c : N) (p : parsed pystr) : parsed pystr :=
  parsed_map (cons c) p.

(** [scanstring(s, end, strict=True)], called just after the opening
    quote. *)
Fixpoint scanstring (s : pystr) : parsed pystr :=
  match s with
  | [] => DecodeError                                (* unterminated string *)
  | c :: r =>
    if c =? 34 then Parsed [] r
    else if c =? 92 then
      match r with
      | [] => DecodeError
      | e :: r1 =>
        if e =? 117 then
          match r1 with
          | a :: b :: c' :: d :: r2 =>
            match decode_uXXXX a b c' d with
            | None => DecodeError
            | Some uni =>
              if is_high_surrogate uni then
                match r2 with
                | bs :: u :: r3 =>
                  if (bs =? 92) && (u =? 117) then
                    match r3 with
                    | a2 :: b2 :: c2 :: d2 :: r4 =>
                      match decode_uXXXX a2 b2 c2 d2 with
                      | None => DecodeError
                      | Some uni2 =>
                        if is_low_surrogate uni2
                        then cons_char (join_surrogates uni uni2) (scanstring r4)
                        else cons_char uni (scanstring r2)
                      end
                    | _ => DecodeError
                    end
                  else cons_char uni (scanstring r2)
                | _ => cons_char uni (scanstring r2)
                end
              else cons_char uni (scanstring r2)
            end
          | _ => DecodeError
          end
        else
          match unescape e with
          | Some ch => cons_char ch (scanstring r1)
          | None => DecodeError                      (* invalid \escape *)
          end
      end
    else if c <? 32 then DecodeError                 (* control character *)
    else cons_char c (scanstring r)
  end.

(** [strip_prefix p s]: [s[len(p):]] when [s.startswith(p)] *)
Fixpoint strip_prefix (p s : pystr) : option pystr :=
  match p with
  | [] => Some s
  | a :: p' =>
    match s with
    | b :: s' => if a =? b then strip_prefix p' s' else None
    | [] => None
    end
  end.

Definition is_digit (c : N) : bool := (48 <=? c) && (c <=? 57).

Fixpoint span_digits (s : pystr) : pystr * pystr :=
  match s with
  | c :: r => if is_digit c then let (d, r') := span_digits r in (c :: d, r') else ([], s)
  | [] => ([], [])
  end.

(** [NUMBER_RE]: an integer part (an optional minus sign, then either a
    single zero or a non-zero digit followed by digits), an optional
    fraction (a dot and one or more digits) and an optional exponent (e or
    E, an optional sign, one or more digits).  Each function returns the
    matched text and what follows it. *)
Definition match_int (s : pystr) : option (pystr * pystr) :=
  let (sign, s1) :=
    match s with
    | c :: r => if c =? 45 then ([45], r) else ([], s)
    | [] => ([], [])
    end in
  match s1 with
  | c :: r =>
    if c =? 48 then Some (sign ++ [48], r)
    else if is_digit c then let (d, r') := span_digits r in Some (sign ++ c :: d, r')
    else None
  | [] => None
  end.

Definition match_frac (s : pystr) : pystr * pystr :=
  match s with
  | c :: r =>
    if c =? 46 then
      match span_digits r with
      | ([], _) => ([], s)
      | (d, r') => (46 :: d, r')
      end
    else ([], s)
  | [] => ([], [])
  end.

Definition match_exp (s : pystr) : pystr * pystr :=
  match s with
  | c :: r =>
    if (c =? 101) || (c =? 69) then
      let (sg, r1) :=
        match r with
        | x :: r' => if (x =? 45) || (x =? 43) then ([x], r') else ([], r)
        | [] => ([], [])
        end in
      match span_digits r1 with
      | ([], _) => ([], s)
      | (d, r') => (c :: sg ++ d, r')
      end
    else ([], s)
  | [] => ([], [])
  end.

Definition match_number (s : pystr) : option (pystr * pystr) :=
  match match_int s with
  | None => None
  | Some (i, r) =>
    let (f, r1) := match_frac r in
    let (e, r2) := match_exp r1 in
    Some (i ++ f ++ e, r2)
  end.

(** A Python [dict] with [str] keys, in insertion order. *)
Definition dict := list (pystr * json).

(** [d[k] = v] *)
Fixpoint dict_set (k : pystr) (v : json) (d : dict) : dict :=
  match d with
  | [] => [(k, v)]
  | (k', v') :: d' => if pystr_eqb k k' then (k', v) :: d' else (k', v') :: dict_set k v d'
  end.

(** [dict(pairs)] *)
Definition dict_of_pairs (pairs : list (pystr * json)) : dict :=
  fold_left (fun d kv => dict_set (fst kv) (snd kv) d) pairs [].

(** [d.get(k, default)] *)
Fixpoint dict_get (k : pystr) (d : dict) (default : json) : json :=
  match d with
  | [] => default
  | (k', v) :: d' => if pystr_eqb k k' then v else dict_get k d' default
  end.

Definition dict_keys (d : dict) : list pystr := map fst d.

Section Loops.
(** [JSONArray] and [JSONObject] receive [scan_once] as an argument. *)
Variable scan : pystr -> parsed json.

(** The [while True] loop of [JSONArray]; [n] bounds the iterations. *)
Fixpoint array_loop (n : nat) (s : pystr) : parsed (list json) :=
  match n with
  | O => NoFuel
  | S n' =>
    match scan s with
    | Parsed v r =>
      match skip_ws r with
      | c :: r1 =>
        if c =? 93 then Parsed [v] r1                               (* ] *)
        else if c =? 44 then parsed_map (cons v) (array_loop n' (skip_ws r1))   (* , *)
        else DecodeError
      | [] => DecodeError
      end
    | DecodeError => DecodeError
    | NoFuel => NoFuel
    end
  end.

(** [JSONArray], called just after the opening bracket *)
Definition JSONArray (n : nat) (s : pystr) : parsed json :=
  match skip_ws s with
  | c :: r => if c =? 93 then Parsed (JArr []) r else parsed_map JArr (array_loop n (c :: r))
  | [] => DecodeError
  end.

(** The [while True] loop of [JSONObject], entered just after the opening
    quote of a key *)
Fixpoint object_loop (n : nat) (s : pystr) : parsed (list (pystr * json)) :=
  match n with
  | O => NoFuel
  | S n' =>
    match scanstring s with
    | Parsed key r =>
      match skip_ws r with
      | c :: r1 =>
        if c =? 58 then                                             (* : *)
          match scan (skip_ws r1) with
          | Parsed value r2 =>
            match skip_ws r2 with
            | c2 :: r3 =>
              if c2 =? 125 then Parsed [(key, value)] r3           (* } *)
              else if c2 =? 44 then                                 (* , *)
                match skip_ws r3 with
                | q :: r4 =>
                  if q =? 34 then parsed_map (cons (key, value)) (object_loop n' r4)
                  else DecodeError
                | [] => DecodeError
                end
              else DecodeError
            | [] => DecodeError
            end
          | DecodeError => DecodeError
          | NoFuel => NoFuel
          end
        else DecodeError
      | [] => DecodeError
      end
    | DecodeError => DecodeError
    | NoFuel => NoFuel
    end
  end.

(** [JSONObject], called just after the opening brace *)
Definition JSONObject (n : nat) (s : pystr) : parsed json :=
  match skip_ws s with
  | c :: r =>
    if c =? 125 then Parsed (JObj []) r
    else if c =? 34 then parsed_map (fun pairs => JObj (dict_of_pairs pairs)) (object_loop n r)
    else DecodeError
  | [] => DecodeError
  end.

End Loops.

Definition literal (name : string) (v : json) (s : pystr) : option (parsed json) :=
  match strip_prefix (py name) s with
  | Some r => Some (Parsed v r)
  | None => None
  end.

(** [_scan_once] of [py_make_scanner]; [fuel] bounds the nesting depth and
    the loop iterations. *)
Fixpoint scan_once (fuel : nat) (s : pystr) : parsed json :=
  match fuel with
  | O => NoFuel
  | S f =>
    match s with
    | [] => DecodeError
    | c :: r =>
      if c =? 34 then parsed_map JStr (scanstring r)
      else if c =? 123 then JSONObject (scan_once f) f r
      else if c =? 91 then JSONArray (scan_once f) f r
      else
        match literal "null" JNull s with Some p => p | None =>
        match literal "true" (JBool true) s with Some p => p | None =>
        match literal "false" (JBool false) s with Some p => p | None =>
        match match_number s with Some (lexeme, r') => Parsed (JNum lexeme) r' | None =>
        match literal "NaN" (JNum (py "NaN")) s with Some p => p | None =>
        match literal "Infinity" (JNum (py "Infinity")) s with Some p => p | None =>
        match literal "-Infinity" (JNum (py "-Infinity")) s with Some p => p | None =>
        DecodeError
        end end end end end end end
    end
  end.

(** [json.loads(s)]: leading whitespace, one value, trailing whitespace,
    then the end of the text. *)
Definition json_loads (s : pystr) : pyres json :=
  match scan_once (S (List.length s)) (skip_ws s) with
  | Parsed v r =>
    match skip_ws r with
    | [] => Ret v
    | _ :: _ => Raise JSONDecodeError                     (* extra data *)
    end
  | DecodeError => Raise JSONDecodeError
  | NoFuel => Raise JSONDecodeError
  end.

(** *** What decoding makes of an encoded value

    The encoder writes a code point above U+FFFF as a pair of surrogate
    escapes and a lone surrogate as one escape; the decoder joins a high
    surrogate escape with a low surrogate escape that follows it. *)

Definition high_of (c : N) : N := N.lor 0xd800 (N.land (N.shiftr (c - 0x10000) 10) 0x3ff).
Definition low_of (c : N) : N := N.lor 0xdc00 (N.land (c - 0x10000) 0x3ff).

(** The string that [scanstring] returns on the encoding of [s]. *)
Fixpoint reread (s : pystr) : pystr :=
  match s with
  | [] => []
  | c :: r =>
    if 0x10000 <=? c then join_surrogates (high_of c) (low_of c) :: reread r
    else if is_high_surrogate c then
      match r with
      | l :: r' => if is_low_surrogate l then join_surrogates c l :: reread r' else c :: reread r
      | [] => [c]
      end
    else c :: reread r
  end.

Definition reread_member (reread_value : json -> json) (kv : pystr * json) : pystr * json :=
  (reread (fst kv), reread_value (snd kv)).

(** The value that [json.loads] returns on the encoding of [v]. *)
Fixpoint reread_json (v : json) : json :=
  match v with
  | JStr s => JStr (reread s)
  | JArr items => JArr (map reread_json items)
  | JObj members => JObj (dict_of_pairs (map (reread_member reread_json) members))
  | other => other
  end.

(** Every item of a [str] is a code point. *)
Definition code_points (s : pystr) : Prop := Forall (fun c => c <= 0x10FFFF) s.

(** No high surrogate is immediately followed by a low surrogate. *)
Fixpoint no_split_pair (s : pystr) : bool :=
  match s with
  | [] => true
  | c :: r =>
    negb (is_high_surrogate c && match r with l :: _ => is_low_surrogate l | [] => false end)
    && no_split_pair r
  end.

(** Values without numbers: what [json.dumps] prints for them does not
    depend on float formatting. *)
Fixpoint number_free (v : json) : bool :=
  match v with
  | JNum _ => false
  | JArr items => forallb number_free items
  | JObj members => forallb (fun kv => number_free (snd kv)) members
  | _ => true
  end.

(** Fuel that [scan_once] needs to read back the encoding of [v]. *)
Fixpoint fuel_needed (v : json) : nat :=
  match v with
  | JArr items => S (Nat.max (List.length items) (list_max (map fuel_needed items)))
  | JObj members =>
    S (Nat.max (List.length members) (list_max (map (fun kv => fuel_needed (snd kv)) members)))
  | _ => 1
  end.

(** The four forms of an escaped code point. *)
Inductive esc_shape (c : N) : pystr -> Prop :=
| esc_plain : c <> 34 -> c <> 92 -> 32 <= c -> c < 0xd800 -> esc_shape c [c]
| esc_short e : unescape e = Some c -> e <> 117 -> c < 0xd800 -> esc_shape c [92; e]
| esc_u : c < 0x10000 -> esc_shape c (92 :: 117 :: hex4 c)
| esc_pair : 0x10000 <= c ->
    esc_shape c ((92 :: 117 :: hex4 (high_of c)) ++ (92 :: 117 :: hex4 (low_of c))).

Definition rereads (s : pystr) : Prop :=
  forall rest, scanstring (flat_map escape_char s ++ 34 :: rest) = Parsed (reread s) rest.

(** A text that begins with a character no value ends on and no
    whitespace. *)
Definition starts_value (t : pystr) : Prop :=
  exists c r, t = c :: r /\ is_ws c = false /\ c <> 93 /\ c <> 125.

(** A parse that never runs out of fuel and, when it succeeds, leaves
    less than it was given. *)
Definition consumes {A} (p : parsed A) (s : pystr) : Prop :=
  p <> NoFuel /\ forall a r, p = Parsed a r -> (List.length r < List.length s)%nat.

Section RoundtripNotions.
Context {host : Host}.

Definition scans (scan : pystr -> parsed json) (v : json) : Prop :=
  number_free v = true /\
  forall rest, scan (json_dumps v ++ rest) = Parsed (reread_json v) rest.

Definition dumps_member (kv : pystr * json) : pystr :=
  encode_basestring_ascii (fst kv) ++ py ": " ++ json_dumps (snd kv).

Definition member_tail (kv : pystr * json) : pystr :=
  flat_map escape_char (fst kv) ++ 34 :: py ": " ++ json_dumps (snd kv).

End RoundtripNotions.

End Json.

(** * [ai_summarizer.py] *)

Module Summarizer.
Import Json.

Section Summarize.
Context {host : Host}.

(** [openai.api_key = os.getenv("OPENAI_API_KEY")] *)
Variable api_key : option pystr.

(** What awaiting [openai.ChatCompletion.acreate(...)] and reading
    [response.choices[0].message['content']] yields: the reply text, or an
    exception raised inside the [try] block, given by its text. *)
Inductive api_outcome :=
| Reply (content : pystr)
| Failed (text : pystr).

Variable acreate : chat_request -> api_outcome.

Definition prompt (reviews_text : pystr) : pystr :=
  nl ++
  py "    Based on the following user reviews, analyze the overall vibe of the place." ++ nl ++
  py "    Provide a summary that includes a short description, mood tags, and key themes." ++ nl ++
  nl ++
  py "    Reviews:" ++ nl ++
  py "    - " ++ reviews_text ++ nl ++
  nl ++
  py "    Please provide your response as a JSON object with the following keys: " ++
    dq ++ py "summary" ++ dq ++ py ", " ++ dq ++ py "mood_tags" ++ dq ++ py ", " ++
    dq ++ py "key_themes" ++ dq ++ py "." ++ nl ++
  py "    - The " ++ dq ++ py "summary" ++ dq ++
    py " should be a short, catchy description with 1-3 emojis." ++ nl ++
  py "    - The " ++ dq ++ py "mood_tags" ++ dq ++
    py " should be a list of 3-5 relevant string tags (e.g., " ++
    dq ++ py "cozy" ++ dq ++ py ", " ++ dq ++ py "lively" ++ dq ++ py ", " ++
    dq ++ py "quiet" ++ dq ++ py ")." ++ nl ++
  py "    - The " ++ dq ++ py "key_themes" ++ dq ++
    py " should be a list of 3-5 relevant string themes (e.g., " ++
    dq ++ py "good for dates" ++ dq ++ py ", " ++ dq ++ py "great coffee" ++ dq ++ py ", " ++
    dq ++ py "noisy" ++ dq ++ py ")." ++ nl ++
  py "    ".

Definition request_for (reviews : list pystr) : chat_request :=
  {| model := py "gpt-3.5-turbo";
     system_content :=
       py "You are a helpful assistant that analyzes customer reviews and summarizes the vibe of a place into a JSON format.";
     user_content := prompt (join (nl ++ py "- ") reviews);
     temperature := py "0.7";
     max_tokens := 250 |}.

Definition error_message (summary theme : pystr) : json :=
  JObj [(py "summary", JStr summary);
        (py "mood_tags", JArr [JStr (py "error")]);
        (py "key_themes", JArr [JStr theme])].

(** [summarize_reviews(reviews)]: the effects performed, in order, and the
    string returned. *)
Definition summarize_reviews (reviews : list pystr) : list event * pystr :=
  if negb (truthy_opt api_key) then
    ([Print (py "ERROR: OPENAI_API_KEY environment variable not set.")],
     json_dumps (error_message (py "AI Summarizer is not configured. Missing API Key.")
                               (py "configuration")))
  else
    let request := request_for reviews in
    match acreate request with
    | Reply content => ([ChatCompletion request], content)
    | Failed e =>
      ([ChatCompletion request;
        Print (py "An error occurred with the OpenAI API: " ++ e)],
       json_dumps (error_message (py "An error occurred while generating the AI summary: " ++ e)
                                 (py "api_failure")))
    end.

(** The reply of the API when [summarize_reviews] gets one: the key is
    set and the call does not raise. *)
Definition reply_of (reviews : list pystr) : option pystr :=
  if truthy_opt api_key then
    match acreate (request_for reviews) with
    | Reply content => Some content
    | Failed _ => None
    end
  else None.

End Summarize.

Definition expected_keys : list pystr := [py "summary"; py "mood_tags"; py "key_themes"].

(** [text] parses as a JSON object whose keys are exactly [summary],
    [mood_tags] and [key_themes]. *)
Definition well_formed_payload (text : pystr) : Prop :=
  exists fields,
    json_loads text = Ret (JObj fields) /\
    forall k, In k (dict_keys fields) <-> In k expected_keys.

End Summarizer.

(** * [gmaps_scraper.py]: the command line and the Reddit path *)

Module Scraper.

(** [s.split(sep)] for a non-empty [sep]: [skip] counts the characters of
    a separator just matched that are still to be passed over, [cur] holds
    the current part, reversed. *)
Fixpoint split_go (sep : pystr) (skip : nat) (s cur : pystr) : list pystr :=
  match s with
  | [] => [rev cur]
  | c :: r =>
    match skip with
    | S k => split_go sep k r cur
    | O =>
      match Json.strip_prefix sep s with
      | Some _ => rev cur :: split_go sep (List.length sep - 1) r []
      | None => split_go sep 0 r (c :: cur)
      end
    end
  end.

Definition split (sep s : pystr) : list pystr := split_go sep 0 s [].

(** [s.replace(" ", "")] *)
Definition remove_spaces (s : pystr) : pystr := filter (fun c => negb (c =? 32)%N) s.

(** The module constants [REDDIT_CLIENT_ID], [REDDIT_CLIENT_SECRET] and
    [REDDIT_USER_AGENT] (lines 37-39). *)
Record credentials := {
  REDDIT_CLIENT_ID : pystr;
  REDDIT_CLIENT_SECRET : pystr;
  REDDIT_USER_AGENT : pystr
}.

Record record := {
  source : pystr;
  query : pystr;
  location_name : pystr;
  review_text : pystr;
  review_author : pystr;
  location_rating : pystr;
  location_address : pystr;
  url : pystr
}.

(** An item of [submission.comments.list()], after
    [replace_more(limit=0)]; [author] is [None] for a deleted account. *)
Record comment := {
  is_Comment : bool;
  body : pystr;
  author : option pystr
}.

Record submission := {
  title : pystr;
  score : Z;
  permalink : pystr;
  comments : list comment
}.

(** How a call of the command line ends. *)
Inductive outcome (A : Type) :=
| Returned (a : A)
| Exited (status : Z)          (* sys.exit(status) *)
| Uncaught (e : exn).
Arguments Returned {A} a.
Arguments Exited {A} status.
Arguments Uncaught {A} e.

Inductive platform := gmaps | reddit.

(** The credentials still hold a placeholder of the distributed script. *)
Definition credentials_unset (creds : credentials) : Prop :=
  REDDIT_CLIENT_ID creds = py "YOUR_CLIENT_ID" \/
  REDDIT_CLIENT_SECRET creds = py "YOUR_CLIENT_SECRET".

Definition is_print (ev : event) : Prop := exists msg, ev = Print msg.

Section Cli.
Context {host : Host}.

Variable creds : credentials.

(** [list(reddit.subreddit(name).search(query, limit=limit, sort="relevance"))] *)
Variable reddit_search : pystr -> pystr -> Z -> pyres (list submission).

(** [scrape_gmaps(query, limit)], which drives a browser *)
Variable browser_scrape : pystr -> Z -> pyres (list record).

Definition keep_comment (c : comment) : bool :=
  is_Comment c && truthy (body c) &&
  match author c with Some _ => true | None => false end &&
  (50 <? List.length (body c))%nat.

Definition reddit_records (query subreddit_name : pystr) (submissions : list submission)
  : list record :=
  flat_map (fun sub =>
    flat_map (fun c =>
      if keep_comment c then
        [{| source := py "Reddit";
            query := query;
            location_name := title sub;
            review_text := body c;
            review_author := match author c with Some a => a | None => [] end;
            location_rating := str_of_Z (score sub) ++ py " upvotes";
            location_address := py "r/" ++ subreddit_name;
            url := py "https://reddit.com" ++ permalink sub |}]
      else [])
      (firstn 20 (comments sub)))
    submissions.

Definition scrape_reddit (query : pystr) (limit : Z) : list event * outcome (list record) :=
  if pystr_eqb (REDDIT_CLIENT_ID creds) (py "YOUR_CLIENT_ID")
     || pystr_eqb (REDDIT_CLIENT_SECRET creds) (py "YOUR_CLIENT_SECRET")
  then
    ([Print (py "ERROR: Reddit API credentials are not set. Please edit the script and add them.")],
     Exited 1)
  else
    let query_parts := split (py " in ") (py_lower query) in
    let subreddit_name :=
      if (1 <? List.length query_parts)%nat then remove_spaces (last query_parts []) else py "all" in
    let start :=
      [Print (py "INFO: Initializing Reddit API (PRAW)...");
       RedditInit (REDDIT_CLIENT_ID creds) (REDDIT_CLIENT_SECRET creds) (REDDIT_USER_AGENT creds);
       Print (py "INFO: Searching subreddit 'r/" ++ subreddit_name ++ py "' for query: '"
              ++ query ++ py "'");
       RedditSearch subreddit_name query limit] in
    match reddit_search subreddit_name query limit with
    | Ret submissions => (start, Returned (reddit_records query subreddit_name submissions))
    | Raise e =>
      let retry :=
        start ++
        [Print (py "ERROR: Could not access subreddit 'r/" ++ subreddit_name
                ++ py "'. It may not exist. Trying 'r/all'. Error: " ++ exn_text e);
         RedditSearch (py "all") query limit] in
      match reddit_search (py "all") query limit with
      | Ret submissions => (retry, Returned (reddit_records query subreddit_name submissions))
      | Raise e' => (retry, Uncaught e')
      end
    end.

Definition scrape_gmaps (query : pystr) (limit : Z) : list event * outcome (list record) :=
  ([BrowserSearch query limit],
   match browser_scrape query limit with
   | Ret results => Returned results
   | Raise e => Uncaught e
   end).

Definition save_to_csv (data : list record) (filename : pystr) : list event :=
  match data with
  | [] => [Print (py "WARNING: No data was collected. CSV file will not be created.")]
  | _ :: _ =>
    [WriteCsv filename (List.length data);
     Print (nl ++ py "SUCCESS: Data saved to " ++ filename ++ py ". Total records: "
            ++ str_of_Z (Z.of_nat (List.length data)))]
  end.

Definition platform_name (p : platform) : pystr :=
  match p with gmaps => py "gmaps" | reddit => py "reddit" end.

(** [main()] after argument parsing: the effects and the exit status of
    the process. *)
Definition main (p : platform) (query : pystr) (limit : Z) (output : pystr)
  : list event * Z :=
  let banner :=
    [Print (py "--- Vibe Navigator Scraper ---");
     Print (py "Platform: " ++ platform_name p);
     Print (py "Query: " ++ query);
     Print (py "Limit: " ++ str_of_Z limit);
     Print (py "----------------------------" ++ nl)] in
  let (work, result) :=
    match p with
    | gmaps => scrape_gmaps query limit
    | reddit => scrape_reddit query limit
    end in
  match result with
  | Returned results => (banner ++ work ++ save_to_csv results output, 0%Z)
  | Exited status => (banner ++ work, status)
  | Uncaught _ => (banner ++ work, 1%Z)
  end.

End Cli.
End Scraper.

(** * [main.py]: the database *)

Module Store.
Local Open Scope Z_scope.

Section Tables.
Context {host : Host}.

(** The three tables of [init_db]. *)
Record place_row := {
  p_id : Z;
  p_name : pystr;
  p_city : pystr;
  p_category : pystr;
  p_address : option pystr;
  p_latitude : option pyfloat;
  p_longitude : option pyfloat
}.

Record review_row := {
  r_id : Z;
  r_place_id : Z;
  r_source : pystr;
  r_content : pystr;
  r_rating : option pyfloat;
  r_date : option pystr
}.

Record vibe_row := {
  v_id : Z;
  v_place_id : Z;
  v_summary : pystr;
  v_mood_tags : pystr;
  v_key_themes : pystr
}.

(** The committed content of [vibe_navigator.db]: the rows of each table in
    rowid order and, for AUTOINCREMENT, the largest rowid each table ever
    held ([sqlite_sequence]). *)
Record db := {
  places : list place_row;
  reviews : list review_row;
  vibe_summaries : list vibe_row;
  seq_places : Z;
  seq_reviews : Z;
  seq_vibe_summaries : Z
}.

(** [init_db()] on a missing file: [CREATE TABLE IF NOT EXISTS] leaves
    existing tables alone. *)
Definition empty_db : db :=
  {| places := []; reviews := []; vibe_summaries := [];
     seq_places := 0; seq_reviews := 0; seq_vibe_summaries := 0 |}.

Definition init_db (file : option db) : db :=
  match file with Some d => d | None => empty_db end.

Definition max_id (ids : list Z) : Z := fold_right Z.max 0 ids.

(** [INTEGER PRIMARY KEY AUTOINCREMENT]: one more than the largest rowid
    the table has ever held. *)
Definition next_rowid (ids : list Z) (seq : Z) : Z := Z.max (max_id ids) seq + 1.

(** SQLite's INTEGER is a signed 64-bit number. *)
Definition fits_int64 (z : Z) : bool := (- 2 ^ 63 <=? z) && (z <=? 2 ^ 63 - 1).

(** Binding an [int] parameter: outside the 64-bit range the [sqlite3]
    module raises [OverflowError] (Python int too large to convert to
    SQLite INTEGER). *)
Definition bind_int (z : Z) : pyres Z :=
  if fits_int64 z then Ret z else Raise OverflowError.

(** The largest rowid.  Once an AUTOINCREMENT table has held it, an
    INSERT fails (database or disk is full). *)
Definition MAX_ROWID : Z := 2 ^ 63 - 1.

Definition table_full (ids : list Z) (seq : Z) : bool :=
  MAX_ROWID <=? Z.max (max_id ids) seq.

(** Binding a [str] parameter encodes it as UTF-8. *)
Definition bind_str (s : pystr) : pyres pystr :=
  if utf8_encodable s then Ret s else Raise UnicodeEncodeError.

Definition bind_opt_str (o : option pystr) : pyres (option pystr) :=
  match o with
  | None => Ret None
  | Some s => match bind_str s with Ret s' => Ret (Some s') | Raise e => Raise e end
  end.

(** Binding a value that [json.loads] produced as a parameter for a TEXT
    column: [None] is NULL, a number is stored as text (TEXT affinity), a
    [bool] is an [int], a [list] or [dict] cannot be bound. *)
Definition bind_value (v : json) : pyres (option pystr) :=
  match v with
  | JStr s => match bind_str s with Ret s' => Ret (Some s') | Raise e => Raise e end
  | JNull => Ret None
  | JBool true => Ret (Some (py "1"))
  | JBool false => Ret (Some (py "0"))
  | JNum lexeme =>
    match num_as_text lexeme with
    | Some t => Ret (Some t)
    | None => Raise OverflowError
    end
  | JArr _ => Raise ProgrammingError
  | JObj _ => Raise ProgrammingError
  end.

(** [INSERT INTO places (name, city, category, address, latitude,
    longitude) VALUES (?, ?, ?, ?, ?, ?)], with [cursor.lastrowid].  The
    parameters are bound first; the statement then fails when the table
    has held the largest rowid.  (The ids of this table are the ones that
    the service hands out and takes back in requests.) *)
Definition insert_place (d : db) (name city category : pystr) (address : option pystr)
    (latitude longitude : option pyfloat) : pyres (db * Z) :=
  match bind_str name with Raise e => Raise e | Ret name' =>
  match bind_str city with Raise e => Raise e | Ret city' =>
  match bind_str category with Raise e => Raise e | Ret category' =>
  match bind_opt_str address with Raise e => Raise e | Ret address' =>
    if table_full (map p_id (places d)) (seq_places d) then Raise OperationalError
    else
      let id := next_rowid (map p_id (places d)) (seq_places d) in
      Ret ({| places := places d ++
                        [{| p_id := id; p_name := name'; p_city := city';
                            p_category := category'; p_address := address';
                            p_latitude := latitude; p_longitude := longitude |}];
              reviews := reviews d;
              vibe_summaries := vibe_summaries d;
              seq_places := id;
              seq_reviews := seq_reviews d;
              seq_vibe_summaries := seq_vibe_summaries d |}, id)
  end end end end.

(** [INSERT INTO reviews (place_id, source, content) VALUES (?, ?, ?)];
    foreign keys are not enforced (SQLite's default).  The table is taken
    to have room: that [reviews] or [vibe_summaries] has held the largest
    rowid is not modelled. *)
Definition insert_review (d : db) (place_id : Z) (source content : pystr) : pyres db :=
  match bind_int place_id with Raise e => Raise e | Ret place_id' =>
  match bind_str source with Raise e => Raise e | Ret source' =>
  match bind_str content with Raise e => Raise e | Ret content' =>
    let id := next_rowid (map r_id (reviews d)) (seq_reviews d) in
    Ret {| places := places d;
           reviews := reviews d ++
                      [{| r_id := id; r_place_id := place_id'; r_source := source';
                          r_content := content'; r_rating := None; r_date := None |}];
           vibe_summaries := vibe_summaries d;
           seq_places := seq_places d;
           seq_reviews := id;
           seq_vibe_summaries := seq_vibe_summaries d |}
  end end end.

(** The SELECT statements, for a parameter that was bound.

    [SELECT * FROM places WHERE id = ?] then [fetchone()] *)
Definition select_place (d : db) (id : Z) : option place_row :=
  find (fun p => p_id p =? id) (places d).

(** [SELECT * FROM reviews WHERE place_id = ?] then [fetchall()] *)
Definition select_reviews (d : db) (place_id : Z) : list review_row :=
  filter (fun r => r_place_id r =? place_id) (reviews d).

(** [SELECT * FROM vibe_summaries WHERE place_id = ?] then [fetchone()] *)
Definition select_vibe (d : db) (place_id : Z) : option vibe_row :=
  find (fun v => v_place_id v =? place_id) (vibe_summaries d).

Definition with_vibe_summaries (d : db) (rows : list vibe_row) (seq : Z) : db :=
  {| places := places d; reviews := reviews d; vibe_summaries := rows;
     seq_places := seq_places d; seq_reviews := seq_reviews d;
     seq_vibe_summaries := seq |}.

(** [UPDATE vibe_summaries SET summary = ?, mood_tags = ?, key_themes = ?
    WHERE place_id = ?]; [summary] is NOT NULL. *)
Definition update_vibe (d : db) (place_id : Z) (summary : json) (mood_tags key_themes : pystr)
  : pyres db :=
  match bind_value summary with
  | Raise e => Raise e
  | Ret bound =>
    match bind_int place_id with
    | Raise e => Raise e
    | Ret place_id' =>
      match bound with
      | None =>
        if existsb (fun v => v_place_id v =? place_id') (vibe_summaries d)
        then Raise IntegrityError
        else Ret d
      | Some summary' =>
        Ret (with_vibe_summaries d
               (map (fun v => if v_place_id v =? place_id'
                              then {| v_id := v_id v; v_place_id := v_place_id v;
                                      v_summary := summary'; v_mood_tags := mood_tags;
                                      v_key_themes := key_themes |}
                              else v)
                    (vibe_summaries d))
               (seq_vibe_summaries d))
      end
    end
  end.

(** [INSERT INTO vibe_summaries (place_id, summary, mood_tags, key_themes)
    VALUES (?, ?, ?, ?)]; [summary] is NOT NULL and [place_id] is UNIQUE.
    The table is taken to have room, as [reviews] is. *)
Definition insert_vibe (d : db) (place_id : Z) (summary : json) (mood_tags key_themes : pystr)
  : pyres db :=
  match bind_int place_id with
  | Raise e => Raise e
  | Ret place_id' =>
    match bind_value summary with
    | Raise e => Raise e
    | Ret None => Raise IntegrityError
    | Ret (Some summary') =>
      if existsb (fun v => v_place_id v =? place_id') (vibe_summaries d)
      then Raise IntegrityError
      else
        let id := next_rowid (map v_id (vibe_summaries d)) (seq_vibe_summaries d) in
        Ret (with_vibe_summaries d
               (vibe_summaries d ++
                [{| v_id := id; v_place_id := place_id'; v_summary := summary';
                    v_mood_tags := mood_tags; v_key_themes := key_themes |}])
               id)
    end
  end.

(** *** SQL functions used by the search *)

(** [LOWER(X)]: ASCII letters only. *)
Definition sql_lower (s : pystr) : pystr := map ascii_lower_char s.

(** What [LIKE] reads of a text: it stops at the first U+0000, and its
    UTF-8 decoder takes U+FFFE and U+FFFF for U+FFFD. *)
Fixpoint upto_nul (s : pystr) : pystr :=
  match s with
  | [] => []
  | c :: rest => if (c =? 0)%N then [] else c :: upto_nul rest
  end.

Definition like_char (c : N) : N :=
  if ((c =? 0xFFFE) || (c =? 0xFFFF))%N then 0xFFFD%N else c.

Definition like_reads (s : pystr) : pystr := map like_char (upto_nul s).

(** The comparison that [LIKE] makes: [%] matches any sequence of
    characters, [_] any one character, any other character matches itself,
    ASCII letters without regard to case. *)
Fixpoint like_match (pattern text : pystr) : bool :=
  match pattern with
  | [] => match text with [] => true | _ :: _ => false end
  | c :: pattern' =>
    if (c =? 37)%N then                                   (* % *)
      (fix any_suffix (t : pystr) : bool :=
         like_match pattern' t || match t with [] => false | _ :: t' => any_suffix t' end) text
    else if (c =? 95)%N then                              (* _ *)
      match text with [] => false | _ :: t' => like_match pattern' t' end
    else
      match text with
      | [] => false
      | x :: t' => (ascii_lower_char c =? ascii_lower_char x)%N && like_match pattern' t'
      end
  end.

(** The length of the UTF-8 encoding of a text without surrogates. *)
Definition utf8_bytes (c : N) : Z :=
  if (c <? 0x80)%N then 1 else if (c <? 0x800)%N then 2 else if (c <? 0x10000)%N then 3 else 4.

Definition utf8_length (s : pystr) : Z := fold_right (fun c n => utf8_bytes c + n) 0 s.

(** [SQLITE_MAX_LIKE_PATTERN_LENGTH], in bytes *)
Definition SQLITE_MAX_LIKE_PATTERN_LENGTH : Z := 50000.

(** [X LIKE pattern], where X may be NULL.  A pattern that is too long is
    an error (LIKE or GLOB pattern too complex) whatever X is; NULL is not
    true. *)
Definition like (pattern : pystr) (x : option pystr) : pyres bool :=
  if SQLITE_MAX_LIKE_PATTERN_LENGTH <? utf8_length pattern then Raise OperationalError
  else
    Ret (match x with
         | Some text => like_match (like_reads pattern) (like_reads text)
         | None => false
         end).

(** [LOWER(column) LIKE ?] where the column may be NULL (no row on the
    right of the LEFT JOIN). *)
Definition lower_like (column : option pystr) (pattern : pystr) : pyres bool :=
  like pattern (option_map sql_lower column).

(** [A OR B] and [A AND B] in a WHERE clause: the right operand is not
    evaluated when the left one decides. *)
Definition sql_or (a b : pyres bool) : pyres bool :=
  match a with
  | Raise e => Raise e
  | Ret true => Ret true
  | Ret false => b
  end.

Definition sql_and (a b : pyres bool) : pyres bool :=
  match a with
  | Raise e => Raise e
  | Ret false => Ret false
  | Ret true => b
  end.

(** The rows that a WHERE clause keeps; an error on a row ends the
    statement. *)
Fixpoint select_where {A : Type} (cond : A -> pyres bool) (rows : list A) : pyres (list A) :=
  match rows with
  | [] => Ret []
  | row :: rest =>
    match cond row with
    | Raise e => Raise e
    | Ret keep =>
      match select_where cond rest with
      | Raise e => Raise e
      | Ret kept => Ret (if keep then row :: kept else kept)
      end
    end
  end.

(** [FROM places p LEFT JOIN vibe_summaries v ON p.id = v.place_id] *)
Definition left_join (d : db) : list (place_row * option vibe_row) :=
  flat_map (fun p =>
    match filter (fun v => v_place_id v =? p_id p) (vibe_summaries d) with
    | [] => [(p, None)]
    | vs => map (fun v => (p, Some v)) vs
    end) (places d).

End Tables.
End Store.

(** * [main.py]: the API service *)

Module Api.
Import Json Store.
Local Open Scope Z_scope.

(** ** Pydantic models *)

Module ScrapeRequest.
Record t := {
  place_id : Z;
  place_name : pystr;
  google_maps_url : option pystr;
  tripadvisor_url : option pystr
}.
End ScrapeRequest.

Module ScrapeResponse.
Record t := {
  success : bool;
  message : pystr;
  reviews_scraped : Z;
  summary_generated : bool
}.
End ScrapeResponse.

Module CreatePlaceAndScrapeRequest.
Record t {host : Host} := {
  name : pystr;
  city : pystr;
  category : pystr;
  address : option pystr;
  latitude : option pyfloat;
  longitude : option pyfloat;
  google_maps_url : option pystr;
  tripadvisor_url : option pystr
}.
End CreatePlaceAndScrapeRequest.

Module Place.
Record t {host : Host} := {
  id : option Z;
  name : pystr;
  city : pystr;
  category : pystr;
  address : option pystr;
  latitude : option pyfloat;
  longitude : option pyfloat
}.
End Place.

Module VibeSummary.
Record t := {
  id : option Z;
  place_id : Z;
  summary : pystr;
  mood_tags : list pystr;
  key_themes : list pystr
}.
End VibeSummary.

(** The arguments that [background_tasks.add_task] records for
    [scrape_and_store_reviews]. *)
Record task := {
  task_place_id : Z;
  task_place_name : pystr;
  task_google_maps_url : option pystr;
  task_tripadvisor_url : option pystr
}.

(** A review extractor: an awaitable function from a URL to review
    texts. *)
Definition extractor := pystr -> pyres (list pystr).

(** The names of the module namespace of [main.py] that
    [scrape_and_store_reviews] may call as extractors; a name that is not
    bound raises [NameError]. *)
Definition globals := pystr -> option extractor.

(** The namespace that [main.py] builds.  Line 13 imports [scrape_gmaps]
    and [scrape_reddit]; both take [(query, limit)], so a call with one URL
    raises [TypeError].  No statement of [main.py] binds
    [scrape_google_maps_reviews] or [scrape_tripadvisor_reviews]. *)
Definition main_globals : globals :=
  fun name =>
    if pystr_eqb name (py "scrape_gmaps") || pystr_eqb name (py "scrape_reddit")
    then Some (fun _ => Raise (RuntimeError (py "TypeError: missing 1 required positional argument: 'limit'")))
    else None.

(** Status of the HTTP response FastAPI builds from a handler's outcome. *)
Definition status_code {A} (r : pyres A) : Z :=
  match r with
  | Ret _ => 200
  | Raise (HTTPException code _) => code
  | Raise _ => 500
  end.

Section Service.
Context {host : Host}.
Variable G : globals.
Variable api_key : option pystr.
Variable acreate : chat_request -> Summarizer.api_outcome.

(** The [for review_text in ...] loop: every insert that succeeds is also
    appended to [all_reviews]; an exception leaves the loop. *)
Fixpoint insert_all (d : db) (place_id : Z) (source : pystr) (texts all_reviews : list pystr)
  : db * list pystr * option exn :=
  match texts with
  | [] => (d, all_reviews, None)
  | review_text :: rest =>
    match insert_review d place_id source review_text with
    | Ret d' => insert_all d' place_id source rest (all_reviews ++ [review_text])
    | Raise e => (d, all_reviews, Some e)
    end
  end.

(** One [if url: try: ... except Exception as e: print(...)] block
    (lines 62-75 and 78-91). *)
Definition scrape_source (fname source : pystr) (url : option pystr) (place_id : Z)
    (st : db * list pystr * list event) : db * list pystr * list event :=
  let '(d, all_reviews, out) := st in
  match url with
  | Some u =>
    if truthy u then
      match G fname with
      | None =>
        (d, all_reviews,
         out ++ [Print (py "Error scraping " ++ source ++ py ": " ++ exn_text (NameError fname))])
      | Some f =>
        match f u with
        | Raise e =>
          (d, all_reviews,
           out ++ [ExtractorCall fname u;
                   Print (py "Error scraping " ++ source ++ py ": " ++ exn_text e)])
        | Ret texts =>
          match insert_all d place_id source texts all_reviews with
          | (d', all_reviews', None) => (d', all_reviews', out ++ [ExtractorCall fname u])
          | (d', all_reviews', Some e) =>
            (d', all_reviews',
             out ++ [ExtractorCall fname u;
                     Print (py "Error scraping " ++ source ++ py ": " ++ exn_text e)])
          end
        end
      end
    else st
  | None => st
  end.

(** Lines 100-118: the payload is read with [dict.get], the tag lists are
    serialized with [json.dumps], the row of the place is looked up, and
    it is updated or a row is inserted. *)
Definition upsert_vibe_summary (d : db) (place_id : Z) (summary_data : json) : pyres db :=
  match summary_data with
  | JObj fields =>
    let summary_text := dict_get (py "summary") fields (JStr (py "No summary provided.")) in
    let mood_tags_json := json_dumps (dict_get (py "mood_tags") fields (JArr [])) in
    let key_themes_json := json_dumps (dict_get (py "key_themes") fields (JArr [])) in
    match bind_int place_id with
    | Raise e => Raise e
    | Ret place_id' =>
      match select_vibe d place_id' with
      | Some _ => update_vibe d place_id summary_text mood_tags_json key_themes_json
      | None => insert_vibe d place_id summary_text mood_tags_json key_themes_json
      end
    end
  | _ => Raise AttributeError                  (* no method get *)
  end.

(** Lines 96-120, the body of [if all_reviews:]. *)
Definition summarize_and_upsert (d : db) (place_id : Z) (all_reviews : list pystr)
  : db * list event * pyres (nat * bool) :=
  let (out, summary_json) := Summarizer.summarize_reviews api_key acreate all_reviews in
  match json_loads summary_json with
  | Raise e => (d, out, Raise e)
  | Ret summary_data =>
    match upsert_vibe_summary d place_id summary_data with
    | Raise e => (d, out, Raise e)
    | Ret d' =>
      (d',
       out ++ [Print (py "Successfully scraped " ++ str_of_Z (Z.of_nat (List.length all_reviews))
                      ++ py " reviews and generated summary for place ID "
                      ++ str_of_Z place_id ++ py ".")],
       Ret (List.length all_reviews, true))
    end
  end.

(** [scrape_and_store_reviews]: the database it leaves, its effects, and
    its return value ([None] when the outer [except] swallowed an
    exception). *)
Definition scrape_and_store_reviews (d : db) (place_id : Z) (place_name : pystr)
    (google_maps_url tripadvisor_url : option pystr)
  : db * list event * option (nat * bool) :=
  let st0 := (d, @nil pystr, @nil event) in
  let st1 := scrape_source (py "scrape_google_maps_reviews") (py "Google Maps")
                           google_maps_url place_id st0 in
  let st2 := scrape_source (py "scrape_tripadvisor_reviews") (py "TripAdvisor")
                           tripadvisor_url place_id st1 in
  let '(d2, all_reviews, out) := st2 in
  match all_reviews with
  | [] => (d2, out, Some (O, false))
  | _ :: _ =>
    match summarize_and_upsert d2 place_id all_reviews with
    | (d3, out', Ret r) => (d3, out ++ out', Some r)
    | (d3, out', Raise e) =>
      (d3,
       out ++ out' ++
       [Print (py "Error in scrape_and_store_reviews for place ID " ++ str_of_Z place_id
               ++ py ": " ++ exn_text e)],
       None)
    end
  end.

Definition run_task (d : db) (t : task) : db :=
  fst (fst (scrape_and_store_reviews d (task_place_id t) (task_place_name t)
              (task_google_maps_url t) (task_tripadvisor_url t))).

End Service.

Section Endpoints.
Context {host : Host}.

Definition task_of_request (request : ScrapeRequest.t) : task :=
  {| task_place_id := ScrapeRequest.place_id request;
     task_place_name := ScrapeRequest.place_name request;
     task_google_maps_url := ScrapeRequest.google_maps_url request;
     task_tripadvisor_url := ScrapeRequest.tripadvisor_url request |}.

(** [POST /scrape/reviews]: the response and the tasks handed to
    [background_tasks].  The lookup of the place binds the id of the
    request. *)
Definition scrape_reviews (d : db) (request : ScrapeRequest.t)
  : pyres ScrapeResponse.t * list task :=
  match bind_int (ScrapeRequest.place_id request) with
  | Raise e => (Raise e, [])
  | Ret place_id =>
    match select_place d place_id with
    | None => (Raise (HTTPException 404 (py "Place not found")), [])
    | Some _ =>
      (Ret {| ScrapeResponse.success := true;
              ScrapeResponse.message :=
                py "Started scraping reviews for " ++ ScrapeRequest.place_name request
                ++ py ". This runs in the background.";
              ScrapeResponse.reviews_scraped := 0;
              ScrapeResponse.summary_generated := false |},
       [task_of_request request])
    end
  end.

(** [POST /scrape/place-and-reviews] *)
Definition create_place_and_scrape_reviews (d : db) (request : CreatePlaceAndScrapeRequest.t)
  : db * pyres ScrapeResponse.t * list task :=
  match insert_place d (CreatePlaceAndScrapeRequest.name request)
                       (CreatePlaceAndScrapeRequest.city request)
                       (CreatePlaceAndScrapeRequest.category request)
                       (CreatePlaceAndScrapeRequest.address request)
                       (CreatePlaceAndScrapeRequest.latitude request)
                       (CreatePlaceAndScrapeRequest.longitude request) with
  | Ret (d', place_id) =>
    (d',
     Ret {| ScrapeResponse.success := true;
            ScrapeResponse.message :=
              py "Created place '" ++ CreatePlaceAndScrapeRequest.name request
              ++ py "' with ID " ++ str_of_Z place_id ++ py " and started scraping reviews.";
            ScrapeResponse.reviews_scraped := 0;
            ScrapeResponse.summary_generated := false |},
     [{| task_place_id := place_id;
         task_place_name := CreatePlaceAndScrapeRequest.name request;
         task_google_maps_url := CreatePlaceAndScrapeRequest.google_maps_url request;
         task_tripadvisor_url := CreatePlaceAndScrapeRequest.tripadvisor_url request |}])
  | Raise e =>
    (d, Raise (HTTPException 500 (py "Error creating place: " ++ exn_text e)), [])
  end.

(** [GET /] *)
Definition root : list (pystr * pystr) :=
  [(py "message", py "Vibe Navigator API is running!")].

(** [GET /places/]: an absent or empty filter is not applied. *)
Definition get_places (d : db) (city category : option pystr) : list place_row :=
  filter (fun p =>
            (if truthy_opt city
             then pystr_eqb (p_city p) (match city with Some c => c | None => [] end)
             else true) &&
            (if truthy_opt category
             then pystr_eqb (p_category p) (match category with Some c => c | None => [] end)
             else true))
         (places d).

(** [POST /places/]: the [id] of the request body is ignored. *)
Definition create_place (d : db) (place : Place.t) : db * pyres Place.t :=
  match insert_place d (Place.name place) (Place.city place) (Place.category place)
                       (Place.address place) (Place.latitude place) (Place.longitude place) with
  | Ret (d', place_id) =>
    (d',
     Ret {| Place.id := Some place_id;
            Place.name := Place.name place;
            Place.city := Place.city place;
            Place.category := Place.category place;
            Place.address := Place.address place;
            Place.latitude := Place.latitude place;
            Place.longitude := Place.longitude place |})
  | Raise e => (d, Raise e)
  end.

(** [GET /places/{place_id}]: the path parameter is any [int]; the
    statement binds it. *)
Definition get_place (d : db) (place_id : Z) : pyres place_row :=
  match bind_int place_id with
  | Raise e => Raise e
  | Ret place_id' =>
    match select_place d place_id' with
    | None => Raise (HTTPException 404 (py "Place not found"))
    | Some place => Ret place
    end
  end.

(** [GET /places/{place_id}/reviews] *)
Definition get_reviews (d : db) (place_id : Z) : pyres (list review_row) :=
  match bind_int place_id with
  | Raise e => Raise e
  | Ret place_id' => Ret (select_reviews d place_id')
  end.

(** Validation of a [List[str]] field: a list whose items are [str]s is
    taken as it is. *)
Fixpoint validate_items (items : list json) : option (list pystr) :=
  match items with
  | [] => Some []
  | item :: rest =>
    match (match item with JStr s => Some s | other => coerce_item other end),
          validate_items rest with
    | Some s, Some ss => Some (s :: ss)
    | _, _ => None
    end
  end.

Definition validate_str_list (v : json) : pyres (list pystr) :=
  match v with
  | JArr items =>
    match validate_items items with
    | Some l => Ret l
    | None => Raise ValidationError
    end
  | _ => Raise ValidationError
  end.

(** [GET /places/{place_id}/vibe] *)
Definition get_vibe_summary (d : db) (place_id : Z) : pyres VibeSummary.t :=
  match bind_int place_id with
  | Raise e => Raise e
  | Ret place_id' =>
    match select_vibe d place_id' with
    | None => Raise (HTTPException 404 (py "Vibe summary not found. Scrape reviews first."))
    | Some vibe_summary =>
      match json_loads (v_mood_tags vibe_summary) with Raise e => Raise e | Ret mood =>
      match json_loads (v_key_themes vibe_summary) with Raise e => Raise e | Ret themes =>
      match validate_str_list mood with Raise e => Raise e | Ret mood_tags =>
      match validate_str_list themes with Raise e => Raise e | Ret key_themes =>
        Ret {| VibeSummary.id := Some (v_id vibe_summary);
               VibeSummary.place_id := v_place_id vibe_summary;
               VibeSummary.summary := v_summary vibe_summary;
               VibeSummary.mood_tags := mood_tags;
               VibeSummary.key_themes := key_themes |}
      end end end end
    end
  end.

(** The LIKE pattern that [search_places] makes of a filter: the
    lowercased text between two [%]. *)
Definition like_pattern (text : pystr) : pystr := [37%N] ++ py_lower text ++ [37%N].

(** The WHERE clause of [search_places] on one row of the join, for the
    patterns that were bound ([None]: the condition is not part of the
    statement). *)
Definition search_where (q city_pattern : option pystr)
    (row : place_row * option vibe_row) : pyres bool :=
  let (p, v) := row in
  sql_and
    match city_pattern with
    | Some pattern => lower_like (Some (p_city p)) pattern
    | None => Ret true
    end
    match q with
    | Some q =>
      sql_or (lower_like (Some (p_name p)) q)
        (sql_or (lower_like (Some (p_category p)) q)
           (sql_or (lower_like (option_map v_summary v) q)
              (sql_or (lower_like (option_map v_mood_tags v) q)
                 (lower_like (option_map v_key_themes v) q))))
    | None => Ret true
    end.

(** [GET /search/]: the [results] of the response.  An absent or empty
    filter is not applied; the patterns are bound, first that of the city;
    the rows are then read in the order of the join. *)
Definition search_places (d : db) (query : pystr) (city : option pystr)
  : pyres (list place_row) :=
  let city_pattern :=
    match city with
    | Some c => if truthy c then Some (like_pattern c) else None
    | None => None
    end in
  let q := if truthy query then Some (like_pattern query) else None in
  match bind_opt_str city_pattern with Raise e => Raise e | Ret city_pattern' =>
  match bind_opt_str q with Raise e => Raise e | Ret q' =>
    match select_where (search_where q' city_pattern') (left_join d) with
    | Raise e => Raise e
    | Ret rows => Ret (map fst rows)
    end
  end end.

End Endpoints.

(** ** The service as a transition system

    A state is the committed database and the background tasks that were
    enqueued and have not run yet.  Requests that only read are not
    transitions.  A background task runs at any later time, against
    whatever the extractors and the LLM API answer then. *)

Record state {host : Host} := {
  store : db;
  background : list task
}.

Definition initial {host : Host} : state :=
  {| store := init_db None; background := [] |}.

Inductive step {host : Host} : state -> state -> Prop :=
| step_create_place (s : state) (place : Place.t) :
    step s {| store := fst (create_place (store s) place);
              background := background s |}
| step_create_place_and_scrape (s : state) (request : CreatePlaceAndScrapeRequest.t) :
    step s {| store := fst (fst (create_place_and_scrape_reviews (store s) request));
              background := background s ++
                            snd (create_place_and_scrape_reviews (store s) request) |}
| step_scrape_reviews (s : state) (request : ScrapeRequest.t) :
    step s {| store := store s;
              background := background s ++ snd (scrape_reviews (store s) request) |}
| step_background (s : state) (t : task) (before after : list task)
    (G : globals) (api_key : option pystr)
    (acreate : chat_request -> Summarizer.api_outcome) :
    background s = before ++ t :: after ->
    step s {| store := run_task G api_key acreate (store s) t;
              background := before ++ after |}.

Inductive reachable {host : Host} : state -> Prop :=
| reachable_initial : reachable initial
| reachable_step (s s' : state) : reachable s -> step s s' -> reachable s'.

(** ** Notions used to state the properties *)

Section Notions.
Context {host : Host}.

(** [id] is the primary key of [places]. *)
Definition unique_places (d : db) : Prop := NoDup (map p_id (places d)).

(** [place_id] is UNIQUE in [vibe_summaries]. *)
Definition unique_summaries (d : db) : Prop := NoDup (map v_place_id (vibe_summaries d)).

(** [y] occurs in [t] as a substring, ASCII letters compared without
    regard to case. *)
Fixpoint prefix_nocase (y t : pystr) : bool :=
  match y, t with
  | [], _ => true
  | _ :: _, [] => false
  | a :: y', b :: t' => (ascii_lower_char a =? ascii_lower_char b)%N && prefix_nocase y' t'
  end.

Fixpoint contains_nocase (y t : pystr) : bool :=
  prefix_nocase y t || match t with [] => false | _ :: t' => contains_nocase y t' end.

(** [y] occurs in [t] as LIKE reads them: [t] up to its first U+0000,
    U+FFFE and U+FFFF taken for U+FFFD. *)
Definition occurs_nocase (y t : pystr) : bool :=
  contains_nocase (like_reads y) (like_reads t).

(** The place mentions [y] in its name or category or, when it has a
    summary row, in the summary text or the serialized tag lists. *)
Definition mentions (d : db) (y : pystr) (p : place_row) : bool :=
  occurs_nocase y (p_name p) ||
  occurs_nocase y (p_category p) ||
  match select_vibe d (p_id p) with
  | Some v =>
    occurs_nocase y (v_summary v) ||
    occurs_nocase y (v_mood_tags v) ||
    occurs_nocase y (v_key_themes v)
  | None => false
  end.

(** A query that the search takes as it stands: it holds no LIKE
    wildcard ([%], [_]), no U+0000 and no surrogate; [str.lower()]
    changes nothing in it but ASCII letters (so it is for every ASCII
    text, and for a text whose other characters have no case); and its
    pattern is within the length that LIKE accepts. *)
Definition plain_query (y : pystr) : Prop :=
  Forall (fun c => (c <> 37 /\ c <> 95 /\ c <> 0)%N /\ is_surrogate c = false) y /\
  py_lower y = map ascii_lower_char y /\
  utf8_length y + 2 <= SQLITE_MAX_LIKE_PATTERN_LENGTH.

(** A LIKE pattern without wildcards. *)
Definition no_wildcard (pattern : pystr) : Prop :=
  Forall (fun c => (c <> 37 /\ c <> 95)%N) pattern.

(** Unicode text: code points up to U+10FFFF, none of them a surrogate. *)
Definition unicode_text (s : pystr) : Prop := code_points s /\ utf8_encodable s = true.

(** [d'] holds the reviews of [d], in place, followed by new rows of
    [place_id]; [texts] are the contents of the new rows. *)
Definition adds_reviews (place_id : Z) (d d' : db) (texts : list pystr) : Prop :=
  exists added,
    reviews d' = reviews d ++ added /\
    Forall (fun r => r_place_id r = place_id) added /\
    map r_content added = texts.

(** The summary rows of [d'] are those of [d], possibly with new
    content. *)
Definition same_summary_rows (d d' : db) : Prop :=
  map v_id (vibe_summaries d') = map v_id (vibe_summaries d) /\
  map v_place_id (vibe_summaries d') = map v_place_id (vibe_summaries d).

End Notions.

(** Summaries, reviews and waiting tasks refer to places that exist. *)
Definition refers_to_places {host : Host} (s : state) : Prop :=
  incl (map v_place_id (vibe_summaries (store s))) (map p_id (places (store s))) /\
  incl (map r_place_id (reviews (store s))) (map p_id (places (store s))) /\
  incl (map task_place_id (background s)) (map p_id (places (store s))).

(** ** A worked example: one place, an extractor that finds two reviews,
    and a model that answers with the requested JSON. *)

Definition example_globals : globals :=
  fun name =>
    if pystr_eqb name (py "scrape_google_maps_reviews")
    then Some (fun _ => Ret [py "cozy and quiet"; py "loud but fun"])
    else None.

(** A hot beverage sign (U+2615), a space and a word. *)
Definition example_summary : pystr := [0x2615%N] ++ py " cozy".

Definition example_reply : pystr :=
  py "{" ++ dq ++ py "summary" ++ dq ++ py ": " ++ dq ++ example_summary ++ dq ++ py ", "
  ++ dq ++ py "mood_tags" ++ dq ++ py ": [" ++ dq ++ py "cozy" ++ dq ++ py ", "
  ++ dq ++ py "quiet" ++ dq ++ py "], "
  ++ dq ++ py "key_themes" ++ dq ++ py ": [" ++ dq ++ py "reading" ++ dq ++ py "]}".

Definition example_acreate : chat_request -> Summarizer.api_outcome :=
  fun _ => Summarizer.Reply example_reply.

Definition example_request : @CreatePlaceAndScrapeRequest.t example_host :=
  {| CreatePlaceAndScrapeRequest.name := py "Blue Cup";
     CreatePlaceAndScrapeRequest.city := py "Pune";
     CreatePlaceAndScrapeRequest.category := py "cafe";
     CreatePlaceAndScrapeRequest.address := None;
     CreatePlaceAndScrapeRequest.latitude := None;
     CreatePlaceAndScrapeRequest.longitude := None;
     CreatePlaceAndScrapeRequest.google_maps_url := Some (py "https://maps.example/blue-cup");
     CreatePlaceAndScrapeRequest.tripadvisor_url := None |}.

Definition example_task : task :=
  {| task_place_id := 1;
     task_place_name := py "Blue Cup";
     task_google_maps_url := Some (py "https://maps.example/blue-cup");
     task_tripadvisor_url := None |}.

(** The place was created and its task is waiting. *)
Definition example_created : @state example_host :=
  {| store := fst (fst (create_place_and_scrape_reviews (@store example_host initial) example_request));
     background := @background example_host initial ++
                   snd (create_place_and_scrape_reviews (@store example_host initial) example_request) |}.

Definition example_reviews : list pystr := [py "cozy and quiet"; py "loud but fun"].

(** The payload that [example_reply] denotes. *)
Definition example_fields : dict :=
  [(py "summary", JStr example_summary);
   (py "mood_tags", JArr [JStr (py "cozy"); JStr (py "quiet")]);
   (py "key_themes", JArr [JStr (py "reading")])].

(** The database once the two reviews are inserted and committed. *)
Definition example_reviewed : @db example_host :=
  fst (fst (scrape_source example_globals (py "scrape_google_maps_reviews") (py "Google Maps")
              (Some (py "https://maps.example/blue-cup")) 1
              (store example_created, [], []))).

(** A reply that is JSON with the three keys, but whose [mood_tags] is a
    string instead of a list. *)
Definition deviating_reply : pystr :=
  py "{" ++ dq ++ py "summary" ++ dq ++ py ": " ++ dq ++ py "cozy" ++ dq ++ py ", "
  ++ dq ++ py "mood_tags" ++ dq ++ py ": " ++ dq ++ py "cozy, quiet" ++ dq ++ py ", "
  ++ dq ++ py "key_themes" ++ dq ++ py ": []}".


(** The task has run. *)
Definition example_scraped : @state example_host :=
  {| store := run_task example_globals (Some (py "sk-example")) example_acreate
                       (store example_created) example_task;
     background := [] ++ [] |}.

End Api.

(** * Further notions used to state properties of the service *)

Module Notions.
Import Json Store Api.
Local Open Scope Z_scope.

(** The texts of a list up to the first one that cannot be stored as a
    review of [place_id]: the text cannot be bound as TEXT (it holds a
    surrogate code point), or the place id cannot be bound as INTEGER. *)
Fixpoint storable_prefix (place_id : Z) (texts : list pystr) : list pystr :=
  match texts with
  | [] => []
  | t :: rest =>
    if fits_int64 place_id && utf8_encodable t then t :: storable_prefix place_id rest else []
  end.

(** The ids are positive (above [low]) and strictly increasing. *)
Fixpoint increasing_from (low : Z) (ids : list Z) : Prop :=
  match ids with
  | [] => True
  | id :: rest => low < id /\ increasing_from id rest
  end.

Section Service.
Context {host : Host}.

(** In each table the row ids are positive and increase with the
    position of the row. *)
Definition ids_in_order (d : db) : Prop :=
  increasing_from 0 (map p_id (places d)) /\
  increasing_from 0 (map r_id (reviews d)) /\
  increasing_from 0 (map v_id (vibe_summaries d)).

(** [s'] is [s] or a state that the service reaches from [s]. *)
Inductive later : state -> state -> Prop :=
| later_now (s : state) : later s s
| later_step (s s' s'' : state) : later s s' -> step s' s'' -> later s s''.

(** [d'] holds the places and the reviews of [d], in place and unchanged,
    possibly followed by new rows, and a summary row for every place that
    has one in [d]. *)
Definition grows (d d' : db) : Prop :=
  (exists more, places d' = places d ++ more) /\
  (exists more, reviews d' = reviews d ++ more) /\
  (exists more,
     map v_place_id (vibe_summaries d') = map v_place_id (vibe_summaries d) ++ more).

(** The text fields of a place can all be bound as TEXT. *)
Definition encodable_fields (name city category : pystr) (address : option pystr) : bool :=
  utf8_encodable name && utf8_encodable city && utf8_encodable category &&
  match address with Some a => utf8_encodable a | None => true end.

(** The city filter of the search: the city of the place contains [city],
    ASCII letters compared without regard to case; an absent or empty
    filter holds of every place. *)
Definition in_city (city : option pystr) (p : place_row) : bool :=
  match city with
  | Some c => if truthy c then occurs_nocase c (p_city p) else true
  | None => true
  end.

(** What one source of the task contributes: the texts that its
    extractor returns for the URL, up to the first that cannot be stored;
    nothing when the URL is absent or empty, when the extractor's name is
    unbound or when the extractor raises. *)
Definition source_texts (G : globals) (fname : pystr) (place_id : Z) (url : option pystr)
  : list pystr :=
  match url with
  | Some u =>
    if truthy u then
      match G fname with
      | Some f => match f u with Ret texts => storable_prefix place_id texts | Raise _ => [] end
      | None => []
      end
    else []
  | None => []
  end.

Definition google_texts (G : globals) (place_id : Z) (google_maps_url : option pystr)
  : list pystr :=
  source_texts G (py "scrape_google_maps_reviews") place_id google_maps_url.

Definition tripadvisor_texts (G : globals) (place_id : Z) (tripadvisor_url : option pystr)
  : list pystr :=
  source_texts G (py "scrape_tripadvisor_reviews") place_id tripadvisor_url.

(** A review row as the task writes it: no rating, no date. *)
Definition scraped_row (place_id : Z) (source : pystr) (row : review_row) (content : pystr)
  : Prop :=
  r_place_id row = place_id /\ r_source row = source /\ r_content row = content /\
  r_rating row = None /\ r_date row = None.

(** The summary row that the task writes from a payload: the text that
    was bound for the summary, and the JSON texts of the values under
    mood_tags and key_themes. *)
Definition payload_row (row_id place_id : Z) (text : pystr) (fields : dict) : vibe_row :=
  {| v_id := row_id; v_place_id := place_id; v_summary := text;
     v_mood_tags := json_dumps (dict_get (py "mood_tags") fields (JArr []));
     v_key_themes := json_dumps (dict_get (py "key_themes") fields (JArr [])) |}.

(** The summary rows with the row of [place_id] rewritten where it
    stands: it keeps its row id and its place. *)
Definition rewritten (place_id : Z) (text : pystr) (fields : dict) (rows : list vibe_row)
  : list vibe_row :=
  map (fun v => if v_place_id v =? place_id
                then payload_row (v_id v) (v_place_id v) text fields
                else v) rows.

(** Review rows by source and content, and the rows that a list of texts
    of one source gives. *)
Definition source_and_content (r : review_row) : pystr * pystr := (r_source r, r_content r).

Definition labelled (source : pystr) (texts : list pystr) : list (pystr * pystr) :=
  map (fun t => (source, t)) texts.

End Service.
End Notions.

(** * Notions about strings used to state properties of the scraper *)

Module Text.
Import Json.

(** [s.find(sep)]: the index of the first occurrence of [sep] in [s],
    counted from [i]; [None] where Python returns -1. *)
Fixpoint find_from (sep s : pystr) (i : nat) : option nat :=
  match strip_prefix sep s with
  | Some _ => Some i
  | None =>
    match s with
    | [] => None
    | _ :: rest => find_from sep rest (S i)
    end
  end.

Definition str_find (sep s : pystr) : option nat := find_from sep s 0.

(** [r] occurs in [s]. *)
Definition occurs_in (r s : pystr) : Prop := exists before after, s = before ++ r ++ after.

End Text.

(** * Notions used to state properties of the scraper's command line *)

Module Cli.
Import Scraper.

Section Runs.
Context {host : Host}.
Variable creds : credentials.
Variable reddit_search : pystr -> pystr -> Z -> pyres (list submission).
Variable browser_scrape : pystr -> Z -> pyres (list record).

(** [scrape_reddit] searches the subreddit [name] first: the fourth effect
    of a run that passes the credentials check. *)
Definition first_search (query : pystr) (limit : Z) (name : pystr) : Prop :=
  nth_error (fst (scrape_reddit creds reddit_search query limit)) 3
  = Some (RedditSearch name query limit).

(** The call that [main] makes for a platform. *)
Definition scrape (p : platform) (query : pystr) (limit : Z)
  : list event * outcome (list record) :=
  match p with
  | gmaps => scrape_gmaps browser_scrape query limit
  | reddit => scrape_reddit creds reddit_search query limit
  end.

(** The files that a run writes: name and number of rows, in order. *)
Definition csv_writes (trace : list event) : list (pystr * nat) :=
  flat_map (fun ev => match ev with WriteCsv f n => [(f, n)] | _ => [] end) trace.

(** The record that [scrape_reddit] makes of a comment of a submission. *)
Definition record_of (query name : pystr) (sub : submission) (c : comment) (r : record) : Prop :=
  source r = py "Reddit" /\
  Scraper.query r = query /\
  location_name r = title sub /\
  review_text r = body c /\
  author c = Some (review_author r) /\
  location_rating r = str_of_Z (score sub) ++ py " upvotes" /\
  location_address r = py "r/" ++ name /\
  url r = py "https://reddit.com" ++ permalink sub.

End Runs.
End Cli.

(** * [gmaps_scraper.py]: the Google Maps path

    [scrape_gmaps] drives a browser through Selenium and reads the pages
    with BeautifulSoup.  Every call into Selenium is an effect whose
    answer, a value or an exception, is the browser's; the browser is a
    parameter of the model, a state machine of any kind.  What
    BeautifulSoup selects from a page source is a function of that source
    and a parameter too.  The progress bar of [tqdm] (on standard error)
    is left out. *)

Module Gmaps.
Import Scraper.
Local Open Scope Z_scope.

(** [GMAPS_REVIEWS_PER_LOCATION] *)
Definition GMAPS_REVIEWS_PER_LOCATION : Z := 25.

(** The exceptions that the handlers of the script tell apart, and any
    other subclass of [Exception]. *)
Inductive failure :=
| TimeoutException
| NoSuchElementException
| OtherException.

Inductive result (A : Type) :=
| Done (a : A)
| Failed (e : failure).
Arguments Done {A} a.
Arguments Failed {A} e.

(** A [WebElement] *)
Definition element := N.

(** The calls into Selenium, indexed by the type of what they return. *)
Inductive call : Type -> Type :=
| Chrome (arguments : list pystr) : call unit
    (* webdriver.Chrome(service=Service(ChromeDriverManager().install()), options=options) *)
| Get (url : pystr) : call unit                               (* driver.get(url) *)
| UntilPresent (timeout : Z) (css : pystr) : call element
    (* WebDriverWait(driver, timeout).until(EC.presence_of_element_located((By.CSS_SELECTOR, css))) *)
| UntilVisible (timeout : Z) (css : pystr) : call element
    (* ... EC.visibility_of_element_located ... *)
| ElementText (e : element) : call pystr                      (* e.text *)
| PageSource : call pystr                                     (* driver.page_source *)
| FindByXPath (xpath : pystr) : call element                  (* driver.find_element(By.XPATH, xpath) *)
| ExecuteScript (script : pystr) (argument : element) : call unit
| Quit : call unit.                                           (* driver.quit() *)

(** What a run does, in order. *)
Inductive action :=
| Printed (msg : pystr)
| Slept (seconds : pystr)          (* time.sleep, given by the literal of the source *)
| Called (R : Type) (c : call R).
Arguments Called {R} c.

(** What BeautifulSoup selects from a page: the tags that the script
    asks for, each given by what the script reads of it. *)
Record anchor := {
  href : pystr;                    (* link['href'] *)
  aria_label : option pystr        (* link.get('aria-label') *)
}.

Record review_element := {
  author_el : option pystr;        (* select_one('.d4r55'), its text *)
  text_el : option pystr           (* select_one('.MyEned .wiI7pd'), its text *)
}.

Record document := {
  place_links : list anchor;
    (* select('a[href^=https://www.google.com/maps/place/]') *)
  address : option pystr;
    (* select_one('button[data-item-id=address] .Io6YTe'), its text *)
  rating : option pystr;
    (* select_one('div.F7nice span[aria-hidden=true]'), its text *)
  review_elements : list review_element
    (* select('div.jftiEf.fontBodyMedium') *)
}.

(** *** Strings and lists *)

(** [str.isspace] of one character: what [str.strip()] removes. *)
Definition is_space (c : N) : bool :=
  ((9 <=? c) && (c <=? 13) || (28 <=? c) && (c <=? 32) || (c =? 0x85) || (c =? 0xA0)
   || (c =? 0x1680) || (0x2000 <=? c) && (c <=? 0x200A) || (c =? 0x2028) || (c =? 0x2029)
   || (c =? 0x202F) || (c =? 0x205F) || (c =? 0x3000))%N.

Fixpoint lstrip (s : pystr) : pystr :=
  match s with
  | c :: r => if is_space c then lstrip r else s
  | [] => []
  end.

Definition rstrip (s : pystr) : pystr := rev (lstrip (rev s)).

(** [s.strip()] *)
Definition strip (s : pystr) : pystr := rstrip (lstrip s).

(** [query.replace(' ', '+')] *)
Definition spaces_to_plus (s : pystr) : pystr :=
  map (fun c => if (c =? 32)%N then 43%N else c) s.

(** [list(dict.fromkeys(keys))]: the keys without repetition, each at its
    first position. *)
Fixpoint fromkeys (seen keys : list pystr) : list pystr :=
  match keys with
  | [] => []
  | k :: rest =>
    if existsb (pystr_eqb k) seen then fromkeys seen rest
    else k :: fromkeys (k :: seen) rest
  end.

(** [l[:n]] for an [int] [n]: a negative [n] counts from the end. *)
Definition slice_to {A} (n : Z) (l : list A) : list A :=
  if 0 <=? n then firstn (Z.to_nat n) l
  else firstn (List.length l - Z.to_nat (- n)) l.

(** The loop over [review_elements[:GMAPS_REVIEWS_PER_LOCATION]]
    (lines 159 to 174). *)
Definition reviews_data (query location_name url : pystr) (address rating : option pystr)
    (review_elements : list review_element) : list record :=
  flat_map (fun review_el =>
    match author_el review_el, text_el review_el with
    | Some author_text, Some text =>
      [{| source := py "Google Maps";
          Scraper.query := query;
          Scraper.location_name := location_name;
          review_text := strip text;
          review_author := strip author_text;
          location_rating := match rating with Some r => strip r | None => py "N/A" end;
          location_address := match address with Some a => strip a | None => py "N/A" end;
          Scraper.url := url |}]
    | _, _ => []
    end)
    (slice_to GMAPS_REVIEWS_PER_LOCATION review_elements).

(** The urls of the links that have a label, each once (line 103). *)
Definition location_urls (links : list anchor) : list pystr :=
  fromkeys [] (map href (filter (fun link => truthy_opt (aria_label link)) links)).

(** *** The script *)

Section Script.
Context {host : Host}.

(** The browser: a state and its answer to each call. *)
Variable world : Type.
Variable browser : forall R, call R -> world -> result R * world.

(** [BeautifulSoup(page_source, 'html.parser')] and the selections *)
Variable soup : pystr -> document.

(** A computation of the script: from the state of the browser to what
    was done, the state left, and a value or the exception raised. *)
Definition run (A : Type) : Type := world -> list action * world * result A.

Definition ret {A} (a : A) : run A := fun w => ([], w, Done a).

Definition raise {A} (e : failure) : run A := fun w => ([], w, Failed e).

Definition bind {A B} (m : run A) (k : A -> run B) : run B :=
  fun w =>
    match m w with
    | (done, w1, Done a) =>
      match k a w1 with
      | (done', w2, r) => (done ++ done', w2, r)
      end
    | (done, w1, Failed e) => (done, w1, Failed e)
    end.

(** [try: m] with the outcome handed to the handlers *)
Definition try {A} (m : run A) : run (result A) :=
  fun w => match m w with (done, w1, r) => (done, w1, Done r) end.

Definition print (msg : pystr) : run unit := fun w => ([Printed msg], w, Done tt).

Definition sleep (seconds : pystr) : run unit := fun w => ([Slept seconds], w, Done tt).

Definition selenium {R} (c : call R) : run R :=
  fun w => match browser c w with (r, w1) => ([Called c], w1, r) end.

Local Notation "x <- m ;; k" := (bind m (fun x => k))
  (at level 61, m at next level, right associativity).
Local Notation "m ;; k" := (bind m (fun _ => k))
  (at level 61, right associativity).

(** [setup_driver()] *)
Definition setup_driver : run unit :=
  print (py "INFO: Setting up Selenium WebDriver...") ;;
  selenium (Chrome [py "--headless"; py "--start-maximized"; py "--disable-gpu";
                    py "log-level=3";
                    py "user-agent=Mozilla/5.0 (Windows NT 10.0; Win64; x64) AppleWebKit/537.36 (KHTML, like Gecko) Chrome/91.0.4472.124 Safari/537.36"]).

Definition scroll_script : pystr := py "arguments[0].scrollTop = arguments[0].scrollHeight".

(** The [for _ in range(scrolls)] loop of [scroll_element]: an exception
    of the body leaves the loop. *)
Fixpoint scroll_loop (element : element) (n : nat) : run unit :=
  match n with
  | O => ret tt
  | S n' =>
    r <- try (selenium (ExecuteScript scroll_script element) ;; sleep (py "1.2")) ;;
    match r with
    | Done _ => scroll_loop element n'
    | Failed _ => ret tt
    end
  end.

(** [scroll_element(driver, element, scrolls)] *)
Definition scroll_element (element : element) (scrolls : Z) : run unit :=
  scroll_loop element (Z.to_nat scrolls).

Definition reviews_button_xpath : pystr :=
  py "//button[contains(@aria-label, " ++ dq ++ py "Reviews for" ++ dq
  ++ py ") or contains(@aria-label, " ++ dq ++ py "reviews" ++ dq ++ py ")]".

Definition reviews_panel_selector : pystr := py "div.m6QErb.DxyBCb.kA9K6e.li8Ydd.dS8AEf".

(** [scrape_gmaps_location(driver, url, query)] *)
Definition scrape_gmaps_location (url query : pystr) : run (list record) :=
  selenium (Get url) ;;
  title <- try (title_element <- selenium (UntilVisible 15 (py "h1")) ;;
                selenium (ElementText title_element)) ;;
  match title with
  | Failed TimeoutException =>
    print (py "WARNING: Skipping location due to timeout on title: " ++ url) ;;
    ret []
  | Failed e => raise e
  | Done location_name =>
    page <- selenium PageSource ;;
    let address := address (soup page) in
    let rating := rating (soup page) in
    clicked <- try (reviews_button <- selenium (FindByXPath reviews_button_xpath) ;;
                    selenium (ExecuteScript (py "arguments[0].click();") reviews_button)) ;;
    match clicked with
    | Failed NoSuchElementException => ret tt
    | Failed e => raise e
    | Done _ => ret tt
    end ;;
    scrolled <- try (reviews_panel <- selenium (UntilPresent 15 reviews_panel_selector) ;;
                     scroll_element reviews_panel (GMAPS_REVIEWS_PER_LOCATION / 8 + 1)) ;;
    match scrolled with
    | Failed TimeoutException => ret tt
    | Failed e => raise e
    | Done _ => ret tt
    end ;;
    page' <- selenium PageSource ;;
    ret (reviews_data query location_name url address rating (review_elements (soup page')))
  end.

(** The [for url in urls[:limit]] loop of [scrape_gmaps].  [results] is
    the list that the loop extends; it is kept when an exception leaves
    the loop. *)
Fixpoint visit_locations (query : pystr) (urls : list pystr) (results : list record)
  : world -> list action * world * list record * result unit :=
  fun w =>
    match urls with
    | [] => ([], w, results, Done tt)
    | url :: rest =>
      match scrape_gmaps_location url query w with
      | (done, w1, Failed e) => (done, w1, results, Failed e)
      | (done, w1, Done location_data) =>
        let results' :=
          match location_data with
          | [] => results
          | _ :: _ => results ++ location_data
          end in
        match visit_locations query rest results' w1 with
        | (done', w2, results'', r) => (done ++ Slept (py "1") :: done', w2, results'', r)
        end
      end
    end.

Definition feed_selector : pystr := py "div[role=" ++ dq ++ py "feed" ++ dq ++ py "]".

Definition search_url (query : pystr) : pystr :=
  py "https://www.google.com/maps/search/" ++ spaces_to_plus query.

(** The body of the [try] of [scrape_gmaps] up to the loop: the urls of
    the locations found. *)
Definition find_locations (query : pystr) (limit : Z) : run (list pystr) :=
  print (py "INFO: Searching Google Maps for: '" ++ query ++ py "'") ;;
  selenium (Get (search_url query)) ;;
  feed_element <- selenium (UntilPresent 10 feed_selector) ;;
  print (py "INFO: Scrolling results to find locations...") ;;
  scroll_element feed_element (limit / 5 + 2) ;;
  page <- selenium PageSource ;;
  let urls := location_urls (place_links (soup page)) in
  print (py "INFO: Found " ++ str_of_Z (Z.of_nat (List.length urls))
         ++ py " unique locations. Scraping top " ++ str_of_Z limit ++ py "...") ;;
  ret urls.

(** The [finally] clause *)
Definition close_driver : run unit :=
  print (py "INFO: Closing WebDriver.") ;;
  selenium Quit.

(** [scrape_gmaps(query, limit)] *)
Definition scrape_gmaps (query : pystr) (limit : Z) : run (list record) :=
  fun w =>
    match setup_driver w with
    | (done0, w0, Failed e) => (done0, w0, Failed e)
    | (done0, w0, Done _) =>
      (* try: *)
      let '(done1, w1, results, raised) :=
        match find_locations query limit w0 with
        | (done, w', Failed e) => (done, w', [], Failed e)
        | (done, w', Done urls) =>
          match visit_locations query (slice_to limit urls) [] w' with
          | (done', w'', results, r) => (done ++ done', w'', results, r)
          end
        end in
      (* except TimeoutException: *)
      let '(done2, pending) :=
        match raised with
        | Failed TimeoutException =>
          ([Printed (py "ERROR: Could not find results panel. Page might have changed or no results found.")],
           None)
        | Failed e => ([], Some e)
        | Done _ => ([], None)
        end in
      (* finally: *)
      match close_driver w1 with
      | (done3, w3, Failed e) => (done0 ++ done1 ++ done2 ++ done3, w3, Failed e)
      | (done3, w3, Done _) =>
        (done0 ++ done1 ++ done2 ++ done3, w3,
         match pending with
         | Some e => Failed e
         | None => Done results
         end)
      end
    end.

End Script.

(** *** Notions used to state the properties *)

(** The urls that a run loads, in order. *)
Definition loaded (done : list action) : list pystr :=
  flat_map (fun a => match a with Called (Get url) => [url] | _ => [] end) done.

(** The number of times a run quits the driver. *)
Definition quits (done : list action) : nat :=
  List.length (filter (fun a => match a with Called Quit => true | _ => false end) done).

(** The calls into Selenium that a run makes, whatever they are. *)
Definition calls (done : list action) : nat :=
  List.length (filter (fun a => match a with Called _ => true | _ => false end) done).

(** The number of scripts a run executes. *)
Definition scripts (done : list action) : nat :=
  List.length (filter (fun a => match a with Called (ExecuteScript _ _) => true | _ => false end)
                      done).

(** An action of the body of the script: neither the launch of the
    browser nor its end. *)
Definition inner (a : action) : Prop :=
  match a with
  | Called c => match c with Chrome _ => False | Quit => False | _ => True end
  | _ => True
  end.

(** An action of the body that loads no page either. *)
Definition quiet (a : action) : Prop :=
  match a with
  | Called c => match c with Chrome _ => False | Quit => False | Get _ => False | _ => True end
  | _ => True
  end.

(** [holds m P Q]: every action of a run of [m] satisfies [P], and the
    value that the run returns, when it returns one, satisfies [Q]. *)
Definition holds {world A} (m : run world A) (P : action -> Prop) (Q : A -> Prop) : Prop :=
  forall w,
    Forall P (fst (fst (m w))) /\
    match snd (m w) with Done a => Q a | Failed _ => True end.

Definition is_printed (a : action) : Prop := exists msg, a = Printed msg.

(** A text without white space at either end. *)
Definition stripped (s : pystr) : Prop :=
  match s with
  | [] => True
  | c :: _ => is_space c = false /\ is_space (last s c) = false
  end.

(** A record of a review of the page [url], found for [query]. *)
Definition place_record (query url : pystr) (r : record) : Prop :=
  source r = py "Google Maps" /\ Scraper.query r = query /\ Scraper.url r = url /\
  stripped (review_text r) /\ stripped (review_author r) /\
  stripped (location_rating r) /\ stripped (location_address r).

(** What the command line gets from [scrape_gmaps] when the browser is in
    the state [w]: the records, or the exception.  This is the parameter
    [browser_scrape] of [Scraper.main]. *)
Definition failure_name (e : failure) : pystr :=
  match e with
  | TimeoutException => py "TimeoutException"
  | NoSuchElementException => py "NoSuchElementException"
  | OtherException => py "Exception"
  end.

Definition browser_scrape_from {host : Host} {world : Type}
    (browser : forall R, call R -> world -> result R * world) (soup : pystr -> document)
    (w : world) : pystr -> Z -> pyres (list record) :=
  fun query limit =>
    match snd (scrape_gmaps browser soup query limit w) with
    | Done results => Ret results
    | Failed e => Raise (RuntimeError (failure_name e))
    end.

End Gmaps.

(** * Worked examples of the scraper and of the service *)

Module Samples.
Import Json Store Api Scraper Gmaps.
Local Open Scope Z_scope.

(** A place of the request body of [POST /places/]; the id it carries is
    not used. *)
Definition example_place : @Place.t example_host :=
  {| Place.id := Some 77;
     Place.name := py "Blue Cup";
     Place.city := py "Pune";
     Place.category := py "cafe";
     Place.address := Some (py "12 Main St");
     Place.latitude := None;
     Place.longitude := None |}.

(** A place whose name is a lone high surrogate. *)
Definition unencodable_place : @Place.t example_host :=
  {| Place.id := None;
     Place.name := [0xD83D%N];
     Place.city := py "Pune";
     Place.category := py "cafe";
     Place.address := None;
     Place.latitude := None;
     Place.longitude := None |}.

(** A request body of [POST /scrape/place-and-reviews]. *)
Definition example_request : @CreatePlaceAndScrapeRequest.t example_host :=
  {| CreatePlaceAndScrapeRequest.name := py "Red Door";
     CreatePlaceAndScrapeRequest.city := py "Pune";
     CreatePlaceAndScrapeRequest.category := py "bar";
     CreatePlaceAndScrapeRequest.address := None;
     CreatePlaceAndScrapeRequest.latitude := None;
     CreatePlaceAndScrapeRequest.longitude := None;
     CreatePlaceAndScrapeRequest.google_maps_url := Some (py "https://maps.example/red-door");
     CreatePlaceAndScrapeRequest.tripadvisor_url := None |}.

(** A model that answers with an object of other keys. *)
Definition other_keys_reply : pystr :=
  py "{" ++ dq ++ py "vibe" ++ dq ++ py ": " ++ dq ++ py "cozy" ++ dq ++ py "}".

(** Reddit credentials that are set. *)
Definition example_creds : credentials :=
  {| REDDIT_CLIENT_ID := py "client-id";
     REDDIT_CLIENT_SECRET := py "client-secret";
     REDDIT_USER_AGENT := py "vibe-navigator" |}.

Definition long_comment : pystr :=
  py "The old fort cafe is calm in the morning and the filter coffee is worth the walk.".

Definition example_submission : submission :=
  {| title := py "Quiet cafes?";
     score := 12;
     permalink := py "/r/delhi/comments/abc/quiet_cafes/";
     comments :=
       [{| is_Comment := true; body := long_comment; author := Some (py "asha") |};
        {| is_Comment := true; body := py "Try the one near the metro."; author := Some (py "ravi") |};
        {| is_Comment := true; body := long_comment; author := None |}] |}.

(** Reddit knows the subreddit [delhi]. *)
Definition example_reddit_search : pystr -> pystr -> Z -> pyres (list submission) :=
  fun subreddit _ _ =>
    if pystr_eqb subreddit (py "delhi") then Ret [example_submission]
    else Raise (RuntimeError (py "Redirect")).

(** Reddit answers for [all] only. *)
Definition fallback_reddit_search : pystr -> pystr -> Z -> pyres (list submission) :=
  fun subreddit _ _ =>
    if pystr_eqb subreddit (py "all") then Ret [example_submission]
    else Raise (RuntimeError (py "Redirect")).

(** A browser without state that answers every call, finds no reviews
    button, and shows the same page whatever was loaded. *)
Definition example_browser : forall R, call R -> unit -> result R * unit :=
  fun R c _ =>
    match c in call R return result R * unit with
    | Chrome _ => (Done tt, tt)
    | Get _ => (Done tt, tt)
    | UntilPresent _ _ => (Done 1%N, tt)
    | UntilVisible _ _ => (Done 2%N, tt)
    | ElementText _ => (Done (py "Blue Cup"), tt)
    | PageSource => (Done (py "<html></html>"), tt)
    | FindByXPath _ => (Failed NoSuchElementException, tt)
    | ExecuteScript _ _ => (Done tt, tt)
    | Quit => (Done tt, tt)
    end.

(** The same browser, in which the results feed never shows up. *)
Definition timeout_browser : forall R, call R -> unit -> result R * unit :=
  fun R c w =>
    match c in call R return result R * unit with
    | UntilPresent _ _ => (Failed TimeoutException, tt)
    | other => example_browser other w
    end.

(** What is selected from that page: two links to one place and a link
    without label; one review with its author, one without. *)
Definition example_soup : pystr -> document :=
  fun _ =>
    {| place_links :=
         [{| href := py "https://www.google.com/maps/place/blue-cup"; aria_label := Some (py "Blue Cup") |};
          {| href := py "https://www.google.com/maps/place/blue-cup"; aria_label := Some (py "Blue Cup") |};
          {| href := py "https://www.google.com/maps/place/red-door"; aria_label := None |}];
       address := Some (py " 12 Main St ");
       rating := None;
       review_elements :=
         [{| author_el := Some (py " Asha "); text_el := Some (py "  cozy and quiet ") |};
          {| author_el := None; text_el := Some (py "no author") |}] |}.

End Samples.

(** * Properties *)

Unset Implicit Arguments.

Lemma pystr_eqb_eq a b : pystr_eqb a b = true <-> a = b.
Proof.
  unfold pystr_eqb. destruct (list_eq_dec N.eq_dec a b); split; congruence.
Qed.

Lemma pystr_eqb_refl a : pystr_eqb a a = true.
Proof. now apply pystr_eqb_eq. Qed.

(** ** The JSON codec *)

Module JsonFacts.
Import Json.
Local Open Scope N_scope.

Ltac Zify.zify_post_hook ::= Z.to_euclidean_division_equations.

Ltac ncase :=
  repeat match goal with
  | |- context [?a <? ?b] => destruct (N.ltb_spec a b)
  | |- context [?a <=? ?b] => destruct (N.leb_spec a b)
  | |- context [?a =? ?b] => destruct (N.eqb_spec a b)
  end; cbn [andb orb negb]; try lia.

(** *** Four hexadecimal digits *)

Lemma hexval_hexdigit d : d < 16 -> hexval (hexdigit d) = Some d.
Proof.
  intros H. unfold hexval, hexdigit.
  destruct (N.ltb_spec d 10); ncase; f_equal; lia.
Qed.

Lemma hex_digits n : n < 65536 ->
  (n / 4096) mod 16 * 4096 + (n / 256) mod 16 * 256 + (n / 16) mod 16 * 16 + n mod 16 = n.
Proof. intros. lia. Qed.

Lemma decode_hex4 n : n < 65536 ->
  decode_uXXXX (hexdigit ((n / 4096) mod 16)) (hexdigit ((n / 256) mod 16))
               (hexdigit ((n / 16) mod 16)) (hexdigit (n mod 16)) = Some n.
Proof.
  intros H. unfold decode_uXXXX.
  rewrite !hexval_hexdigit by (apply N.mod_lt; lia).
  f_equal. now apply hex_digits.
Qed.

(** *** Surrogate pairs: the bit operations of the encoder and of the
    decoder, as arithmetic *)

Lemma lor_shift_add a b : b < 1024 -> N.lor (a * 1024) b = a * 1024 + b.
Proof.
  intros Hb.
  rewrite N.add_nocarry_lxor.
  - symmetry. apply N.lxor_lor.
    apply N.bits_inj_0. intros i. rewrite N.land_spec.
    destruct (N.lt_ge_cases i 10) as [Hi|Hi].
    + change 1024 with (2 ^ 10). rewrite N.mul_pow2_bits_low by assumption. reflexivity.
    + replace (N.testbit b i) with false; [apply andb_false_r|].
      symmetry. rewrite <- (N.mod_small b (2 ^ 10)) by (change (2 ^ 10) with 1024; lia).
      apply N.mod_pow2_bits_high. assumption.
  - apply N.bits_inj_0. intros i. rewrite N.land_spec.
    destruct (N.lt_ge_cases i 10) as [Hi|Hi].
    + change 1024 with (2 ^ 10). rewrite N.mul_pow2_bits_low by assumption. reflexivity.
    + replace (N.testbit b i) with false; [apply andb_false_r|].
      symmetry. rewrite <- (N.mod_small b (2 ^ 10)) by (change (2 ^ 10) with 1024; lia).
      apply N.mod_pow2_bits_high. assumption.
Qed.

Lemma land_3ff n : N.land n 0x3ff = n mod 1024.
Proof. change 0x3ff with (N.ones 10). rewrite N.land_ones. reflexivity. Qed.

Lemma shiftr_10 n : N.shiftr n 10 = n / 1024.
Proof. rewrite N.shiftr_div_pow2. reflexivity. Qed.

Lemma shiftl_10 n : N.shiftl n 10 = n * 1024.
Proof. rewrite N.shiftl_mul_pow2. reflexivity. Qed.

Lemma high_of_eq c : high_of c = 0xd800 + ((c - 0x10000) / 1024) mod 1024.
Proof. unfold high_of. rewrite land_3ff, shiftr_10. change 0xd800 with (54 * 1024). apply lor_shift_add. apply N.mod_lt. lia. Qed.
Lemma low_of_eq c : low_of c = 0xdc00 + (c - 0x10000) mod 1024.
Proof. unfold low_of. rewrite land_3ff. change 0xdc00 with (55 * 1024). apply lor_shift_add. apply N.mod_lt. lia. Qed.

Lemma join_high_low c : 0x10000 <= c -> c <= 0x10FFFF -> join_surrogates (high_of c) (low_of c) = c.
Proof.
  intros H1 H2. unfold join_surrogates. rewrite high_of_eq, low_of_eq, shiftl_10.
  replace (0xdc00 + (c - 0x10000) mod 1024 - 0xdc00) with ((c - 0x10000) mod 1024) by lia.
  replace (0xd800 + ((c - 0x10000) / 1024) mod 1024 - 0xd800) with (((c - 0x10000) / 1024) mod 1024) by lia.
  rewrite lor_shift_add by (apply N.mod_lt; lia).
  lia.
Qed.

Lemma high_of_range c : 0xd800 <= high_of c <= 0xdbff.
Proof. rewrite high_of_eq. pose proof (N.mod_lt ((c - 0x10000) / 1024) 1024). lia. Qed.
Lemma low_of_range c : 0xdc00 <= low_of c <= 0xdfff.
Proof. rewrite low_of_eq. pose proof (N.mod_lt (c - 0x10000) 1024). lia. Qed.

(** *** One escaped code point, and what [scanstring] does on it *)

Lemma escape_char_shape c : esc_shape c (escape_char c).
Proof.
  unfold escape_char.
  destruct (N.eqb_spec c 92) as [->|?]; [apply esc_short with (e := 92); [reflexivity|lia|lia]|].
  destruct (N.eqb_spec c 34) as [->|?]; [apply esc_short with (e := 34); [reflexivity|lia|lia]|].
  destruct (N.eqb_spec c 8) as [->|?]; [apply esc_short with (e := 98); [reflexivity|lia|lia]|].
  destruct (N.eqb_spec c 12) as [->|?]; [apply esc_short with (e := 102); [reflexivity|lia|lia]|].
  destruct (N.eqb_spec c 10) as [->|?]; [apply esc_short with (e := 110); [reflexivity|lia|lia]|].
  destruct (N.eqb_spec c 13) as [->|?]; [apply esc_short with (e := 114); [reflexivity|lia|lia]|].
  destruct (N.eqb_spec c 9) as [->|?]; [apply esc_short with (e := 116); [reflexivity|lia|lia]|].
  destruct (N.leb_spec 32 c); destruct (N.leb_spec c 126); cbn [andb];
    try (apply esc_plain; lia).
  all: destruct (N.ltb_spec c 0x10000); [apply esc_u; assumption | apply esc_pair; assumption].
Qed.

Lemma surrogate_escape c : is_surrogate c = true -> escape_char c = 92 :: 117 :: hex4 c.
Proof.
  unfold is_surrogate, escape_char. intros H.
  apply andb_true_iff in H. destruct H as [H1 H2].
  apply N.leb_le in H1, H2.
  ncase; reflexivity.
Qed.

Lemma scan_plain c t : c <> 34 -> c <> 92 -> 32 <= c ->
  scanstring (c :: t) = cons_char c (scanstring t).
Proof. intros. simpl. ncase; reflexivity. Qed.

Lemma scan_short e c t : unescape e = Some c -> e <> 117 ->
  scanstring (92 :: e :: t) = cons_char c (scanstring t).
Proof.
  intros He Hu. simpl. destruct (N.eqb_spec e 117); [contradiction|]. now rewrite He.
Qed.

Lemma scan_u_nonhigh a b c d uni t :
  decode_uXXXX a b c d = Some uni -> is_high_surrogate uni = false ->
  scanstring (92 :: 117 :: a :: b :: c :: d :: t) = cons_char uni (scanstring t).
Proof. intros Hd Hh. simpl. now rewrite Hd, Hh. Qed.

Lemma scan_u_pair a b c d uni a2 b2 c2 d2 uni2 t :
  decode_uXXXX a b c d = Some uni -> is_high_surrogate uni = true ->
  decode_uXXXX a2 b2 c2 d2 = Some uni2 -> is_low_surrogate uni2 = true ->
  scanstring (92 :: 117 :: a :: b :: c :: d :: 92 :: 117 :: a2 :: b2 :: c2 :: d2 :: t)
  = cons_char (join_surrogates uni uni2) (scanstring t).
Proof. intros Hd Hh Hd2 Hl. simpl. now rewrite Hd, Hh, Hd2, Hl. Qed.

Lemma scan_u_high_nonlow a b c d uni a2 b2 c2 d2 uni2 t :
  decode_uXXXX a b c d = Some uni -> is_high_surrogate uni = true ->
  decode_uXXXX a2 b2 c2 d2 = Some uni2 -> is_low_surrogate uni2 = false ->
  scanstring (92 :: 117 :: a :: b :: c :: d :: 92 :: 117 :: a2 :: b2 :: c2 :: d2 :: t)
  = cons_char uni (scanstring (92 :: 117 :: a2 :: b2 :: c2 :: d2 :: t)).
Proof. intros Hd Hh Hd2 Hl. simpl. now rewrite Hd, Hh, Hd2, Hl. Qed.

Lemma scan_u_high_other a b c d uni t :
  decode_uXXXX a b c d = Some uni -> is_high_surrogate uni = true ->
  (forall r3, t <> 92 :: 117 :: r3) ->
  scanstring (92 :: 117 :: a :: b :: c :: d :: t) = cons_char uni (scanstring t).
Proof.
  intros Hd Hh Ht.
  change (scanstring (92 :: 117 :: a :: b :: c :: d :: t)) with
    (match decode_uXXXX a b c d with
     | None => DecodeError
     | Some uni =>
       if is_high_surrogate uni then
         match t with
         | bs :: u :: r3 =>
           if (bs =? 92) && (u =? 117) then
             match r3 with
             | a2 :: b2 :: c2 :: d2 :: r4 =>
               match decode_uXXXX a2 b2 c2 d2 with
               | None => DecodeError
               | Some uni2 =>
                 if is_low_surrogate uni2
                 then cons_char (join_surrogates uni uni2) (scanstring r4)
                 else cons_char uni (scanstring t)
               end
             | _ => DecodeError
             end
           else cons_char uni (scanstring t)
         | _ => cons_char uni (scanstring t)
         end
       else cons_char uni (scanstring t)
     end).
  rewrite Hd, Hh.
  destruct t as [|bs [|u r3]]; try reflexivity.
  destruct (N.eqb_spec bs 92) as [->|?]; [|reflexivity].
  destruct (N.eqb_spec u 117) as [->|?]; [|reflexivity].
  exfalso. eapply Ht. reflexivity.
Qed.

Lemma scan_hex_nonhigh c t :
  c < 65536 -> is_high_surrogate c = false ->
  scanstring (92 :: 117 :: hex4 c ++ t) = cons_char c (scanstring t).
Proof. intros. unfold hex4. cbn [app]. eapply scan_u_nonhigh; eauto using decode_hex4. Qed.

Lemma scan_hex_pair c l t :
  c < 65536 -> is_high_surrogate c = true -> l < 65536 -> is_low_surrogate l = true ->
  scanstring (92 :: 117 :: hex4 c ++ 92 :: 117 :: hex4 l ++ t)
  = cons_char (join_surrogates c l) (scanstring t).
Proof. intros. unfold hex4. cbn [app]. eapply scan_u_pair; eauto using decode_hex4. Qed.

Lemma scan_hex_high_nonlow c l t :
  c < 65536 -> is_high_surrogate c = true -> l < 65536 -> is_low_surrogate l = false ->
  scanstring (92 :: 117 :: hex4 c ++ 92 :: 117 :: hex4 l ++ t)
  = cons_char c (scanstring (92 :: 117 :: hex4 l ++ t)).
Proof. intros. unfold hex4. cbn [app]. eapply scan_u_high_nonlow; eauto using decode_hex4. Qed.

Lemma scan_hex_high_other c t :
  c < 65536 -> is_high_surrogate c = true -> (forall r3, t <> 92 :: 117 :: r3) ->
  scanstring (92 :: 117 :: hex4 c ++ t) = cons_char c (scanstring t).
Proof. intros. unfold hex4. cbn [app]. eapply scan_u_high_other; eauto using decode_hex4. Qed.

Lemma is_high_true c : is_high_surrogate c = true <-> 0xd800 <= c <= 0xdbff.
Proof. unfold is_high_surrogate. rewrite andb_true_iff, !N.leb_le. tauto. Qed.
Lemma is_low_true c : is_low_surrogate c = true <-> 0xdc00 <= c <= 0xdfff.
Proof. unfold is_low_surrogate. rewrite andb_true_iff, !N.leb_le. tauto. Qed.
Lemma is_surrogate_true c : is_surrogate c = true <-> 0xd800 <= c <= 0xdfff.
Proof. unfold is_surrogate. rewrite andb_true_iff, !N.leb_le. tauto. Qed.
Lemma is_high_false c : is_high_surrogate c = false <-> ~ (0xd800 <= c <= 0xdbff).
Proof. rewrite <- is_high_true. destruct (is_high_surrogate c); intuition congruence. Qed.
Lemma is_low_false c : is_low_surrogate c = false <-> ~ (0xdc00 <= c <= 0xdfff).
Proof. rewrite <- is_low_true. destruct (is_low_surrogate c); intuition congruence. Qed.

(** *** [scanstring] on an encoded string *)

Lemma rereads_nil : rereads [].
Proof. intros rest. reflexivity. Qed.

Lemma reread_low c s : c < 0xd800 -> reread (c :: s) = c :: reread s.
Proof.
  intros H. cbn [reread].
  destruct (N.leb_spec 0x10000 c); [lia|].
  replace (is_high_surrogate c) with false; [reflexivity|].
  symmetry. apply is_high_false. lia.
Qed.

Lemma rereads_cons c s :
  rereads s ->
  match s with _ :: r' => rereads r' | [] => True end ->
  rereads (c :: s).
Proof.
  intros Hs Hr rest. cbn [flat_map]. rewrite <- app_assoc.
  destruct (escape_char_shape c) as [? ? ? ?|e He Hu ?|Hc|Hc].
  - cbn [app]. rewrite scan_plain by assumption. rewrite Hs, reread_low by assumption. reflexivity.
  - cbn [app]. rewrite (scan_short e c _ He Hu). rewrite Hs, reread_low by assumption. reflexivity.
  - destruct (is_high_surrogate c) eqn:Hh.
    + apply is_high_true in Hh as Hrange.
      destruct s as [|l r'].
      * cbn [flat_map app].
        rewrite scan_hex_high_other; [|lia|assumption|intros r3; congruence].
        change (scanstring (34 :: rest)) with (Parsed (@nil N) rest).
        cbn [reread]. destruct (N.leb_spec 65536 c); [lia|]. rewrite Hh. reflexivity.
      * cbn [flat_map]. rewrite <- (app_assoc (escape_char l)).
        set (T := flat_map escape_char r' ++ 34 :: rest).
        assert (Hre : reread (c :: l :: r') =
                      if is_low_surrogate l then join_surrogates c l :: reread r'
                      else c :: reread (l :: r')).
        { cbn [reread]. destruct (N.leb_spec 65536 c); [lia|]. rewrite Hh. reflexivity. }
        rewrite Hre.
        destruct (is_low_surrogate l) eqn:Hl.
        -- apply is_low_true in Hl as Hlr.
           rewrite surrogate_escape by (apply is_surrogate_true; lia).
           cbn [app].
           rewrite scan_hex_pair; [|lia|assumption|lia|assumption].
           unfold T. rewrite Hr. reflexivity.
        -- assert (Hstep : scanstring ((92 :: 117 :: hex4 c) ++ escape_char l ++ T)
                           = cons_char c (scanstring (escape_char l ++ T))).
           { destruct (escape_char_shape l) as [? ? ? ?|e He Hu ?|Hlc|Hlc].
             - cbn [app]. apply scan_hex_high_other; [lia|assumption|]. intros r3. congruence.
             - cbn [app]. apply scan_hex_high_other; [lia|assumption|]. intros r3. congruence.
             - cbn [app]. apply scan_hex_high_nonlow; [lia|assumption|lia|assumption].
             - rewrite <- app_assoc. cbn [app].
               pose proof (high_of_range l).
               apply scan_hex_high_nonlow; [lia|assumption|lia|]. apply is_low_false. lia. }
           rewrite Hstep.
           specialize (Hs rest). cbn [flat_map] in Hs. rewrite <- app_assoc in Hs.
           fold T in Hs. rewrite Hs. reflexivity.
    + cbn [app]. rewrite scan_hex_nonhigh by assumption.
      rewrite Hs. cbn [reread]. destruct (N.leb_spec 65536 c); [lia|]. rewrite Hh. reflexivity.
  - rewrite <- app_assoc. cbn [app].
    pose proof (high_of_range c). pose proof (low_of_range c).
    rewrite scan_hex_pair; [|lia|apply is_high_true; lia|lia|apply is_low_true; lia].
    rewrite Hs. cbn [reread]. destruct (N.leb_spec 65536 c); [|lia]. reflexivity.
Qed.

(** [scanstring] reads the encoding of any string up to its closing quote
    and returns [reread s]. *)
Lemma scanstring_escape s : rereads s.
Proof.
  enough (H : rereads s /\ match s with _ :: r' => rereads r' | [] => True end) by apply H.
  induction s as [|c s [IH1 IH2]].
  - split; [apply rereads_nil | exact I].
  - split; [apply rereads_cons; assumption | assumption].
Qed.

(** *** [json.loads] on the output of [json.dumps] *)

Section Roundtrip.
Context {host : Host}.

Lemma json_ind_nested (P : json -> Prop) :
  P JNull -> (forall b, P (JBool b)) -> (forall l, P (JNum l)) -> (forall s, P (JStr s)) ->
  (forall items, Forall P items -> P (JArr items)) ->
  (forall members, Forall (fun kv => P (snd kv)) members -> P (JObj members)) ->
  forall v, P v.
Proof.
  intros Hnull Hbool Hnum Hstr Harr Hobj.
  fix IH 1. intros [| b | l | s | items | members].
  - exact Hnull.
  - apply Hbool.
  - apply Hnum.
  - apply Hstr.
  - apply Harr. induction items as [|x r IHr]; constructor; [apply IH | exact IHr].
  - apply Hobj. induction members as [|x r IHr]; constructor; [apply IH | exact IHr].
Qed.

Lemma starts_value_app t rest : starts_value t -> starts_value (t ++ rest).
Proof. intros (c & r & -> & H). exists c, (r ++ rest). split; [reflexivity|assumption]. Qed.

Lemma dumps_starts v : number_free v = true -> starts_value (json_dumps v).
Proof.
  destruct v as [| [|] | l | s | items | members]; cbn; intros H; try discriminate;
    eexists _, _; (split; [reflexivity|]); repeat split; try reflexivity; lia.
Qed.

Lemma skip_ws_starts t : starts_value t -> skip_ws t = t.
Proof. intros (c & r & -> & H & _). cbn. now rewrite H. Qed.

Lemma skip_ws_space_value t : starts_value t -> skip_ws (32 :: t) = t.
Proof. intros H. cbn. now apply skip_ws_starts. Qed.

Lemma scan_once_str f r : scan_once (S f) (34 :: r) = parsed_map JStr (scanstring r).
Proof. reflexivity. Qed.
Lemma scan_once_obj f r : scan_once (S f) (123 :: r) = JSONObject (scan_once f) f r.
Proof. reflexivity. Qed.
Lemma scan_once_arr f r : scan_once (S f) (91 :: r) = JSONArray (scan_once f) f r.
Proof. reflexivity. Qed.

Lemma scan_encoded f s rest :
  scan_once (S f) (encode_basestring_ascii s ++ rest) = Parsed (JStr (reread s)) rest.
Proof.
  unfold encode_basestring_ascii. cbn [app]. rewrite scan_once_str.
  rewrite <- app_assoc. cbn [app]. now rewrite scanstring_escape.
Qed.

Lemma array_loop_dumps scan items : forall n rest,
  Forall (scans scan) items -> items <> [] -> (List.length items <= n)%nat ->
  array_loop scan n (join (py ", ") (map json_dumps items) ++ 93 :: rest)
  = Parsed (map reread_json items) rest.
Proof.
  induction items as [|v items IH]; intros n rest Hall Hne Hlen; [congruence|].
  inversion Hall as [|? ? [Hv1 Hv2] Hall']; subst.
  destruct n as [|n]; [cbn in Hlen; lia|].
  destruct items as [|v2 items].
  - cbn [map join array_loop]. rewrite Hv2. cbn. reflexivity.
  - change (join (py ", ") (map json_dumps (v :: v2 :: items)))
      with (json_dumps v ++ py ", " ++ join (py ", ") (map json_dumps (v2 :: items))).
    rewrite <- !app_assoc. cbn [array_loop]. rewrite Hv2.
    change (py ", " ++ ?x) with (44 :: 32 :: x).
    cbn [skip_ws is_ws N.eqb Pos.eqb orb].
    rewrite skip_ws_starts.
    2:{ inversion Hall' as [|? ? [Hn _] _]; subst.
        destruct items; cbn [map join]; rewrite <- ?app_assoc;
          apply starts_value_app, dumps_starts, Hn. }
    rewrite IH; [reflexivity| assumption | congruence | cbn in Hlen |- *; lia].
Qed.

Lemma dumps_member_tail kv : dumps_member kv = 34 :: member_tail kv.
Proof.
  unfold dumps_member, member_tail, encode_basestring_ascii.
  cbn [app]. now rewrite <- app_assoc.
Qed.

Lemma object_loop_member scan k v n tail :
  scans scan v ->
  object_loop scan (S n) (member_tail (k, v) ++ tail) =
  match skip_ws tail with
  | c2 :: r3 =>
    if c2 =? 125 then Parsed [(reread k, reread_json v)] r3
    else if c2 =? 44 then
      match skip_ws r3 with
      | q :: r4 =>
        if q =? 34 then parsed_map (cons (reread k, reread_json v)) (object_loop scan n r4)
        else DecodeError
      | [] => DecodeError
      end
    else DecodeError
  | [] => DecodeError
  end.
Proof.
  intros [Hv1 Hv2]. unfold member_tail. cbn [fst snd].
  rewrite <- !app_assoc. cbn [app object_loop].
  rewrite scanstring_escape.
  change (py ": " ++ ?x) with (58 :: 32 :: x).
  cbn [app skip_ws is_ws N.eqb Pos.eqb orb].
  rewrite skip_ws_starts by (apply starts_value_app, dumps_starts, Hv1).
  rewrite Hv2. reflexivity.
Qed.

Lemma object_loop_dumps scan members : forall n rest t,
  Forall (fun kv => scans scan (snd kv)) members ->
  join (py ", ") (map dumps_member members) = 34 :: t ->
  (List.length members <= n)%nat ->
  object_loop scan n (t ++ 125 :: rest) = Parsed (map (reread_member reread_json) members) rest.
Proof.
  induction members as [|[k v] members IH]; intros n rest t Hall Ht Hlen; [discriminate|].
  inversion Hall as [|? ? Hv Hall']; subst. cbn [snd] in *.
  destruct n as [|n]; [cbn in Hlen; lia|].
  destruct members as [|kv2 members].
  - cbn [map join] in Ht. rewrite dumps_member_tail in Ht. injection Ht as <-.
    rewrite object_loop_member by assumption. reflexivity.
  - change (join (py ", ") (map dumps_member ((k, v) :: kv2 :: members)))
      with (dumps_member (k, v) ++ py ", " ++ join (py ", ") (map dumps_member (kv2 :: members)))
      in Ht.
    assert (Hq : exists t2, join (py ", ") (map dumps_member (kv2 :: members)) = 34 :: t2).
    { destruct members; cbn [map join]; rewrite dumps_member_tail; cbn [app];
        eexists; reflexivity. }
    destruct Hq as [t2 Ht2]. rewrite Ht2, dumps_member_tail in Ht. cbn [app] in Ht.
    injection Ht as <-.
    rewrite <- !app_assoc. rewrite object_loop_member by assumption.
    change (py ", " ++ ?x) with (44 :: 32 :: x).
    cbn [app skip_ws is_ws N.eqb Pos.eqb orb].
    rewrite (IH n rest t2 Hall' Ht2); [reflexivity | cbn in Hlen |- *; lia].
Qed.

Lemma list_max_le_each {A} (f : A -> nat) (l : list A) x n :
  In x l -> (list_max (map f l) <= n)%nat -> (f x <= n)%nat.
Proof.
  intros Hin Hmax. rewrite list_max_le in Hmax. rewrite Forall_forall in Hmax.
  apply Hmax. now apply in_map.
Qed.

Lemma scan_once_dumps v :
  number_free v = true ->
  forall fuel rest, (fuel_needed v <= fuel)%nat ->
  scan_once fuel (json_dumps v ++ rest) = Parsed (reread_json v) rest.
Proof.
  induction v as [| b | l | s | items IH | members IH] using json_ind_nested;
    intros Hnf fuel rest Hfuel; (destruct fuel as [|f]; [cbn in Hfuel; lia|]).
  - reflexivity.
  - destruct b; reflexivity.
  - discriminate.
  - apply scan_encoded.
  - cbn [json_dumps reread_json fuel_needed number_free] in *.
    cbn [app]. rewrite scan_once_arr. unfold JSONArray.
    destruct items as [|v items].
    + reflexivity.
    + assert (Hall : Forall (scans (scan_once f)) (v :: items)).
      { rewrite Forall_forall in IH |- *. intros x Hx. rewrite forallb_forall in Hnf.
        split; [now apply Hnf|]. intros rest'. apply IH; [assumption|now apply Hnf|].
        apply (list_max_le_each fuel_needed (v :: items) x); [assumption|lia]. }
      rewrite <- app_assoc. cbn [app].
      assert (Hst : starts_value (join (py ", ") (map json_dumps (v :: items)) ++ 93 :: rest)).
      { inversion Hall as [|? ? [Hn _] _]; subst.
        destruct items; cbn [map join]; rewrite <- ?app_assoc;
          apply starts_value_app, dumps_starts, Hn. }
      rewrite skip_ws_starts by assumption.
      destruct Hst as (c & r & Hc & _ & Hne & _). rewrite Hc.
      destruct (N.eqb_spec c 93); [contradiction|].
      rewrite <- Hc. rewrite array_loop_dumps; [reflexivity|assumption|congruence|lia].
  - cbn [json_dumps reread_json fuel_needed number_free] in *.
    cbn [app]. rewrite scan_once_obj. unfold JSONObject.
    change (map (fun kv => encode_basestring_ascii (fst kv) ++ py ": " ++ json_dumps (snd kv)) members)
      with (map dumps_member members).
    destruct members as [|kv members].
    + reflexivity.
    + assert (Hall : Forall (fun kv => scans (scan_once f) (snd kv)) (kv :: members)).
      { rewrite Forall_forall in IH |- *. intros x Hx. rewrite forallb_forall in Hnf.
        split; [now apply Hnf|]. intros rest'. apply IH; [assumption|now apply Hnf|].
        apply (list_max_le_each (fun kv => fuel_needed (snd kv)) (kv :: members) x).
        - assumption.
        - lia. }
      assert (Hq : exists t, join (py ", ") (map dumps_member (kv :: members)) = 34 :: t).
      { destruct members; cbn [map join]; rewrite dumps_member_tail; cbn [app];
          eexists; reflexivity. }
      destruct Hq as [t Ht]. rewrite Ht. cbn [app skip_ws is_ws N.eqb Pos.eqb orb].
      rewrite <- app_assoc. cbn [app].
      rewrite (object_loop_dumps (scan_once f) (kv :: members) f rest t Hall Ht); [reflexivity|lia].
Qed.

Lemma length_join_ge sep (parts : list pystr) p :
  In p parts -> (List.length p <= List.length (join sep parts))%nat.
Proof.
  induction parts as [|q parts IH]; intros Hin; [contradiction|].
  destruct parts as [|q2 parts].
  - destruct Hin as [->|[]]. cbn. lia.
  - change (join sep (q :: q2 :: parts)) with (q ++ sep ++ join sep (q2 :: parts)).
    rewrite !length_app. destruct Hin as [->|Hin]; [lia|]. specialize (IH Hin). lia.
Qed.

Lemma length_join_count sep (parts : list pystr) :
  (forall p, In p parts -> 1 <= List.length p)%nat ->
  (List.length parts <= List.length (join sep parts))%nat.
Proof.
  induction parts as [|q parts IH]; intros Hpos; [cbn; lia|].
  destruct parts as [|q2 parts].
  - specialize (Hpos q (or_introl eq_refl)). cbn. lia.
  - change (join sep (q :: q2 :: parts)) with (q ++ sep ++ join sep (q2 :: parts)).
    rewrite !length_app.
    pose proof (Hpos q (or_introl eq_refl)).
    assert (List.length (q2 :: parts) <= List.length (join sep (q2 :: parts)))%nat.
    { apply IH. intros p Hp. apply Hpos. now right. }
    cbn [List.length] in *. lia.
Qed.

Lemma fuel_needed_length v :
  number_free v = true -> (fuel_needed v <= List.length (json_dumps v))%nat.
Proof.
  induction v as [| b | l | s | items IH | members IH] using json_ind_nested; intros Hnf.
  - cbn. lia.
  - destruct b; cbn; lia.
  - discriminate.
  - cbn. lia.
  - cbn [json_dumps fuel_needed number_free] in *. cbn [List.length].
    rewrite length_app. cbn [List.length].
    rewrite Forall_forall in IH. rewrite forallb_forall in Hnf.
    enough (Nat.max (List.length items) (list_max (map fuel_needed items))
            <= List.length (join (py ", ") (map json_dumps items)))%nat by lia.
    apply Nat.max_lub.
    + rewrite <- (length_map json_dumps items). apply length_join_count.
      intros p Hp. apply in_map_iff in Hp. destruct Hp as (x & <- & Hx).
      specialize (IH x Hx (Hnf x Hx)). destruct x; cbn in *; lia.
    + apply list_max_le. rewrite Forall_forall. intros n Hn.
      apply in_map_iff in Hn. destruct Hn as (x & <- & Hx).
      etransitivity; [apply IH; auto|]. apply length_join_ge. now apply in_map.
  - cbn [json_dumps fuel_needed number_free] in *. cbn [List.length].
    rewrite length_app. cbn [List.length].
    change (map (fun kv => encode_basestring_ascii (fst kv) ++ py ": " ++ json_dumps (snd kv)) members)
      with (map dumps_member members).
    rewrite Forall_forall in IH. rewrite forallb_forall in Hnf.
    enough (Nat.max (List.length members) (list_max (map (fun kv => fuel_needed (snd kv)) members))
            <= List.length (join (py ", ") (map dumps_member members)))%nat by lia.
    apply Nat.max_lub.
    + rewrite <- (length_map dumps_member members). apply length_join_count.
      intros p Hp. apply in_map_iff in Hp. destruct Hp as (x & <- & Hx).
      rewrite dumps_member_tail. cbn. lia.
    + apply list_max_le. rewrite Forall_forall. intros n Hn.
      apply in_map_iff in Hn. destruct Hn as (x & <- & Hx).
      etransitivity; [apply IH; auto|].
      etransitivity; [|apply length_join_ge; apply in_map; exact Hx].
      unfold dumps_member. rewrite !length_app. lia.
Qed.

(** Decoding the encoding of a value without numbers succeeds, and gives
    the value back up to the joining of split surrogate pairs and the
    merging of duplicate keys. *)
Theorem json_loads_dumps v :
  number_free v = true -> json_loads (json_dumps v) = Ret (reread_json v).
Proof.
  intros Hnf. unfold json_loads.
  rewrite skip_ws_starts by (apply dumps_starts, Hnf).
  rewrite <- (app_nil_r (json_dumps v)) at 2.
  rewrite scan_once_dumps; [reflexivity|assumption|].
  pose proof (fuel_needed_length v Hnf). lia.
Qed.
End Roundtrip.

(** *** Strings that are read back unchanged *)

Lemma reread_id s : code_points s -> no_split_pair s = true -> reread s = s.
Proof.
  unfold code_points. induction s as [|c r IH]; intros Hcp Hns; [reflexivity|].
  inversion Hcp as [|? ? Hc Hr]; subst.
  cbn [no_split_pair] in Hns. apply andb_true_iff in Hns. destruct Hns as [Hpair Hns].
  specialize (IH Hr Hns). cbn [reread].
  destruct (N.leb_spec 0x10000 c).
  - rewrite join_high_low by assumption. now rewrite IH.
  - destruct (is_high_surrogate c); cbn [andb negb] in Hpair.
    + destruct r as [|l r']; [reflexivity|].
      destruct (is_low_surrogate l); [discriminate|]. now rewrite IH.
    + now rewrite IH.
Qed.

Lemma reread_all_id l :
  Forall (fun s => code_points s /\ no_split_pair s = true) l -> map reread l = l.
Proof.
  induction 1 as [|s l [H1 H2] _ IH]; [reflexivity|].
  cbn [map]. now rewrite reread_id, IH.
Qed.

Lemma reread_json_strings l : reread_json (JArr (map JStr l)) = JArr (map JStr (map reread l)).
Proof. cbn [reread_json]. now rewrite !map_map. Qed.

Lemma number_free_strings l : number_free (JArr (map JStr l)) = true.
Proof. cbn [number_free]. rewrite forallb_forall. intros x Hx. apply in_map_iff in Hx. now destruct Hx as (s & <- & _). Qed.

Section StringLists.
Context {host : Host}.

Lemma json_loads_dumps_strings l :
  json_loads (json_dumps (JArr (map JStr l))) = Ret (JArr (map JStr (map reread l))).
Proof. rewrite json_loads_dumps by apply number_free_strings. now rewrite reread_json_strings. Qed.

End StringLists.

(** *** The decoder never runs out of fuel *)

Lemma skip_ws_length s : (List.length (skip_ws s) <= List.length s)%nat.
Proof.
  induction s as [|c r IH]; [apply Nat.le_refl|].
  cbn [skip_ws]. destruct (is_ws c); cbn [List.length]; lia.
Qed.

Lemma consumes_error {A} s : consumes (@DecodeError A) s.
Proof. split; [discriminate|]. intros a r H. discriminate. Qed.

Lemma consumes_map {A B} (f : A -> B) p s s' :
  consumes p s -> (List.length s <= List.length s')%nat -> consumes (parsed_map f p) s'.
Proof.
  intros [H1 H2] Hle. destruct p as [a r| |]; cbn; [|apply consumes_error|congruence].
  split; [discriminate|]. intros b r' Hb. injection Hb as <- <-.
  specialize (H2 a r eq_refl). lia.
Qed.

Lemma consumes_parsed {A} (a : A) r s :
  (List.length r < List.length s)%nat -> consumes (Parsed a r) s.
Proof. intros H. split; [discriminate|]. intros a' r' H'. injection H' as <- <-. exact H. Qed.

Lemma scanstring_consumes : forall n s, (List.length s <= n)%nat -> s <> [] -> consumes (scanstring s) s.
Proof.
  induction n as [|n IH]; intros s Hn Hne.
  - destruct s; [congruence|cbn in Hn; lia].
  - assert (Hrec : forall t, (List.length t < List.length s)%nat -> t <> [] ->
                     forall c, consumes (cons_char c (scanstring t)) s).
    { intros t Ht Htne c. apply consumes_map with (s := t); [apply IH; [lia|assumption]|lia]. }
    assert (Hrec0 : forall t, (List.length t < List.length s)%nat ->
                     forall c, consumes (cons_char c (scanstring t)) s).
    { intros t Ht c. destruct t as [|x t]; [apply consumes_error|]. apply Hrec; [assumption|discriminate]. }
    destruct s as [|c r]; [congruence|]. cbn [scanstring].
    destruct (c =? 34); [apply consumes_parsed; cbn; lia|].
    destruct (c =? 92).
    + destruct r as [|e r1]; [apply consumes_error|].
      destruct (e =? 117).
      * destruct r1 as [|a [|b [|c' [|d r2]]]]; try apply consumes_error.
        destruct (decode_uXXXX a b c' d) as [uni|]; [|apply consumes_error].
        destruct (is_high_surrogate uni); [|apply Hrec0; cbn; lia].
        destruct r2 as [|bs [|u r3]]; try (apply Hrec0; cbn; lia).
        destruct ((bs =? 92) && (u =? 117)); [|apply Hrec0; cbn; lia].
        destruct r3 as [|a2 [|b2 [|c2 [|d2 r4]]]]; try apply consumes_error.
        destruct (decode_uXXXX a2 b2 c2 d2) as [uni2|]; [|apply consumes_error].
        destruct (is_low_surrogate uni2); apply Hrec0; cbn; lia.
      * destruct (unescape e); [apply Hrec0; cbn; lia|apply consumes_error].
    + destruct (c <? 32); [apply consumes_error|apply Hrec0; cbn; lia].
Qed.

Lemma scanstring_consumes' s : consumes (scanstring s) s.
Proof.
  destruct s as [|c r]; [apply consumes_error|].
  apply scanstring_consumes with (n := List.length (c :: r)); [apply Nat.le_refl|discriminate].
Qed.

Lemma strip_prefix_length p : forall s r,
  strip_prefix p s = Some r -> (List.length r + List.length p = List.length s)%nat.
Proof.
  induction p as [|a p IH]; intros s r H.
  - injection H as <-. cbn. lia.
  - destruct s as [|b s]; [discriminate|]. cbn [strip_prefix] in H.
    destruct (a =? b); [|discriminate]. apply IH in H. cbn [List.length]. lia.
Qed.

Lemma literal_consumes name v s p :
  name <> EmptyString -> literal name v s = Some p -> consumes p s.
Proof.
  unfold literal. intros Hname H.
  destruct (strip_prefix (py name) s) as [r|] eqn:Hr; [|discriminate].
  injection H as <-. apply strip_prefix_length in Hr.
  apply consumes_parsed. destruct name; [congruence|]. cbn in Hr. lia.
Qed.

Lemma span_digits_length s : (List.length (snd (span_digits s)) <= List.length s)%nat.
Proof.
  induction s as [|c r IH]; [apply Nat.le_refl|].
  cbn [span_digits]. destruct (is_digit c); [|apply Nat.le_refl].
  destruct (span_digits r) as [d r']. cbn [snd List.length] in *. lia.
Qed.

Lemma match_int_length s i r :
  match_int s = Some (i, r) -> (List.length r < List.length s)%nat.
Proof.
  unfold match_int.
  destruct s as [|c s0]; [discriminate|].
  destruct (c =? 45).
  - destruct s0 as [|c1 r1]; [discriminate|].
    destruct (c1 =? 48); [intros H; injection H as <- <-; cbn; lia|].
    destruct (is_digit c1); [|discriminate].
    pose proof (span_digits_length r1). destruct (span_digits r1) as [d r'].
    intros H0; injection H0 as <- <-. cbn [snd List.length] in *. lia.
  - destruct (c =? 48); [intros H; injection H as <- <-; cbn; lia|].
    destruct (is_digit c); [|discriminate].
    pose proof (span_digits_length s0). destruct (span_digits s0) as [d r'].
    intros H0; injection H0 as <- <-. cbn [snd List.length] in *. lia.
Qed.

Lemma match_frac_length s : (List.length (snd (match_frac s)) <= List.length s)%nat.
Proof.
  unfold match_frac. destruct s as [|c r]; [apply Nat.le_refl|].
  destruct (c =? 46); [|apply Nat.le_refl].
  pose proof (span_digits_length r). destruct (span_digits r) as [[|x d] r'];
    cbn [snd List.length] in *; lia.
Qed.

Lemma match_exp_length s : (List.length (snd (match_exp s)) <= List.length s)%nat.
Proof.
  unfold match_exp. destruct s as [|c r]; [apply Nat.le_refl|].
  destruct ((c =? 101) || (c =? 69)); [|apply Nat.le_refl].
  destruct r as [|x r'].
  - cbn. lia.
  - destruct ((x =? 45) || (x =? 43)).
    + pose proof (span_digits_length r'). destruct (span_digits r') as [[|y d] r2];
        cbn [snd List.length] in *; lia.
    + pose proof (span_digits_length (x :: r')). destruct (span_digits (x :: r')) as [[|y d] r2];
        cbn [snd List.length] in *; lia.
Qed.

Lemma match_number_length s lexeme r :
  match_number s = Some (lexeme, r) -> (List.length r < List.length s)%nat.
Proof.
  unfold match_number. destruct (match_int s) as [[i r0]|] eqn:Hi; [|discriminate].
  apply match_int_length in Hi.
  pose proof (match_frac_length r0). destruct (match_frac r0) as [f r1].
  pose proof (match_exp_length r1). destruct (match_exp r1) as [e r2].
  intros H1; injection H1 as <- <-. cbn [snd] in *. lia.
Qed.

Section Loops.
Variable scan : pystr -> parsed json.

Lemma array_loop_consumes : forall n s,
  (List.length s < n)%nat ->
  (forall t, (List.length t <= List.length s)%nat -> consumes (scan t) t) ->
  consumes (array_loop scan n s) s.
Proof.
  induction n as [|n IH]; intros s Hn Hscan; [lia|].
  cbn [array_loop].
  destruct (Hscan s (Nat.le_refl _)) as [Hnf Hlen].
  destruct (scan s) as [v r| |]; [|apply consumes_error|congruence].
  specialize (Hlen v r eq_refl).
  pose proof (skip_ws_length r) as Hws.
  destruct (skip_ws r) as [|c r1]; [apply consumes_error|].
  destruct (c =? 93); [apply consumes_parsed; cbn [List.length] in *; lia|].
  destruct (c =? 44); [|apply consumes_error].
  pose proof (skip_ws_length r1) as Hws1. cbn [List.length] in Hws.
  apply consumes_map with (s := skip_ws r1); [|lia].
  apply IH; [lia|]. intros t Ht. apply Hscan. lia.
Qed.

Lemma JSONArray_consumes n s :
  (List.length s < n)%nat ->
  (forall t, (List.length t <= List.length s)%nat -> consumes (scan t) t) ->
  forall s', (List.length s < List.length s')%nat -> consumes (JSONArray scan n s) s'.
Proof.
  intros Hn Hscan s' Hs'. unfold JSONArray.
  pose proof (skip_ws_length s) as Hws.
  destruct (skip_ws s) as [|c r]; [apply consumes_error|].
  destruct (c =? 93); [apply consumes_parsed; cbn [List.length] in *; lia|].
  apply consumes_map with (s := c :: r); [|lia].
  apply array_loop_consumes; [lia|]. intros t Ht. apply Hscan. lia.
Qed.

Lemma object_loop_consumes : forall n s,
  (List.length s < n)%nat ->
  (forall t, (List.length t <= List.length s)%nat -> consumes (scan t) t) ->
  consumes (object_loop scan n s) s.
Proof.
  induction n as [|n IH]; intros s Hn Hscan; [lia|].
  cbn [object_loop].
  destruct (scanstring_consumes' s) as [Hnf Hlen].
  destruct (scanstring s) as [key r| |]; [|apply consumes_error|congruence].
  specialize (Hlen key r eq_refl).
  pose proof (skip_ws_length r) as Hws.
  destruct (skip_ws r) as [|c r1]; [apply consumes_error|].
  destruct (c =? 58); [|apply consumes_error].
  pose proof (skip_ws_length r1) as Hws1. cbn [List.length] in Hws.
  destruct (Hscan (skip_ws r1)) as [Hnf2 Hlen2]; [lia|].
  destruct (scan (skip_ws r1)) as [value r2| |]; [|apply consumes_error|congruence].
  specialize (Hlen2 value r2 eq_refl).
  pose proof (skip_ws_length r2) as Hws2.
  destruct (skip_ws r2) as [|c2 r3]; [apply consumes_error|].
  cbn [List.length] in Hws2.
  destruct (c2 =? 125); [apply consumes_parsed; lia|].
  destruct (c2 =? 44); [|apply consumes_error].
  pose proof (skip_ws_length r3) as Hws3.
  destruct (skip_ws r3) as [|q r4]; [apply consumes_error|].
  cbn [List.length] in Hws3.
  destruct (q =? 34); [|apply consumes_error].
  apply consumes_map with (s := r4); [|lia].
  apply IH; [lia|]. intros t Ht. apply Hscan. lia.
Qed.

Lemma JSONObject_consumes n s :
  (List.length s < n)%nat ->
  (forall t, (List.length t <= List.length s)%nat -> consumes (scan t) t) ->
  forall s', (List.length s < List.length s')%nat -> consumes (JSONObject scan n s) s'.
Proof.
  intros Hn Hscan s' Hs'. unfold JSONObject.
  pose proof (skip_ws_length s) as Hws.
  destruct (skip_ws s) as [|c r]; [apply consumes_error|].
  cbn [List.length] in Hws.
  destruct (c =? 125); [apply consumes_parsed; lia|].
  destruct (c =? 34); [|apply consumes_error].
  apply consumes_map with (s := r); [|lia].
  apply object_loop_consumes; [lia|]. intros t Ht. apply Hscan. lia.
Qed.

End Loops.

Lemma scan_once_consumes : forall fuel s,
  (List.length s < fuel)%nat -> consumes (scan_once fuel s) s.
Proof.
  induction fuel as [|f IH]; intros s Hf; [lia|].
  cbn [scan_once].
  destruct s as [|c r]; [apply consumes_error|].
  cbn [List.length] in Hf.
  destruct (c =? 34).
  { apply consumes_map with (s := r); [apply scanstring_consumes'|cbn; lia]. }
  destruct (c =? 123).
  { apply JSONObject_consumes; [lia| |cbn; lia]. intros t Ht. apply IH. lia. }
  destruct (c =? 91).
  { apply JSONArray_consumes; [lia| |cbn; lia]. intros t Ht. apply IH. lia. }
  destruct (literal "null" JNull (c :: r)) eqn:H1;
    [eapply literal_consumes; [|exact H1]; discriminate|].
  destruct (literal "true" (JBool true) (c :: r)) eqn:H2;
    [eapply literal_consumes; [|exact H2]; discriminate|].
  destruct (literal "false" (JBool false) (c :: r)) eqn:H3;
    [eapply literal_consumes; [|exact H3]; discriminate|].
  destruct (match_number (c :: r)) as [[lexeme r']|] eqn:H4.
  { apply consumes_parsed. now apply match_number_length in H4. }
  destruct (literal "NaN" (JNum (py "NaN")) (c :: r)) eqn:H5;
    [eapply literal_consumes; [|exact H5]; discriminate|].
  destruct (literal "Infinity" (JNum (py "Infinity")) (c :: r)) eqn:H6;
    [eapply literal_consumes; [|exact H6]; discriminate|].
  destruct (literal "-Infinity" (JNum (py "-Infinity")) (c :: r)) eqn:H7;
    [eapply literal_consumes; [|exact H7]; discriminate|].
  apply consumes_error.
Qed.

(** [json_loads] gives [scan_once] enough fuel for every input. *)
Theorem json_loads_fuel s : scan_once (S (List.length s)) (skip_ws s) <> NoFuel.
Proof.
  apply scan_once_consumes. pose proof (skip_ws_length s). lia.
Qed.

End JsonFacts.

(** ** The summarizer *)

Module SummarizerFacts.
Import Json JsonFacts Summarizer.

Section Facts.
Context {host : Host}.

Lemma error_message_number_free s t : number_free (error_message s t) = true.
Proof. reflexivity. Qed.

Lemma error_message_loads s t :
  json_loads (json_dumps (error_message s t)) =
  Ret (JObj [(py "summary", JStr (reread s));
             (py "mood_tags", JArr [JStr (py "error")]);
             (py "key_themes", JArr [JStr (reread t)])]).
Proof.
  rewrite json_loads_dumps by apply error_message_number_free.
  reflexivity.
Qed.

Lemma error_message_well_formed s t : well_formed_payload (json_dumps (error_message s t)).
Proof.
  eexists. split; [apply error_message_loads|]. intros k. reflexivity.
Qed.

(** Claim C1, as amended.  [summarize_reviews] returns a string on every
    input: it is a function, no path of it raises.  When the API key is
    missing or the network call raises, the string parses as JSON with
    exactly the keys summary, mood_tags and key_themes; when the call
    succeeds, the string is the reply of the model, as it came. *)
Theorem summarize_reviews_result api_key acreate reviews :
  match reply_of api_key acreate reviews with
  | Some content => snd (summarize_reviews api_key acreate reviews) = content
  | None => well_formed_payload (snd (summarize_reviews api_key acreate reviews))
  end.
Proof.
  unfold reply_of, summarize_reviews.
  destruct (truthy_opt api_key); cbn [negb].
  - destruct (acreate (request_for reviews)) as [content|e]; cbn [snd].
    + reflexivity.
    + apply error_message_well_formed.
  - apply error_message_well_formed.
Qed.

(** Claim C7.  Without an API key ([None] or the empty string),
    [summarize_reviews] prints one line and calls no network API,
    whatever the reviews are.  It returns the text written out below: the
    JSON encoding of the object whose summary tells that the key is
    missing, whose mood_tags is the list of the one string error and whose
    key_themes is the list of the one string configuration. *)
Theorem missing_api_key api_key acreate reviews :
  truthy_opt api_key = false ->
  fst (summarize_reviews api_key acreate reviews) =
    [Print (py "ERROR: OPENAI_API_KEY environment variable not set.")] /\
  snd (summarize_reviews api_key acreate reviews) =
    py "{" ++ dq ++ py "summary" ++ dq ++ py ": "
    ++ dq ++ py "AI Summarizer is not configured. Missing API Key." ++ dq ++ py ", "
    ++ dq ++ py "mood_tags" ++ dq ++ py ": [" ++ dq ++ py "error" ++ dq ++ py "], "
    ++ dq ++ py "key_themes" ++ dq ++ py ": [" ++ dq ++ py "configuration" ++ dq ++ py "]}" /\
  json_loads (snd (summarize_reviews api_key acreate reviews)) =
    Ret (JObj [(py "summary", JStr (py "AI Summarizer is not configured. Missing API Key."));
               (py "mood_tags", JArr [JStr (py "error")]);
               (py "key_themes", JArr [JStr (py "configuration")])]) /\
  forall request, ~ In (ChatCompletion request) (fst (summarize_reviews api_key acreate reviews)).
Proof.
  intros Hkey. unfold summarize_reviews. rewrite Hkey. cbn [negb fst snd].
  split; [reflexivity|]. split; [reflexivity|]. split.
  - rewrite error_message_loads. reflexivity.
  - intros request [H|[]]. discriminate.
Qed.

End Facts.

Lemma missing_api_key_witness :
  truthy_opt (Some []) = false /\
  json_loads (snd (summarize_reviews (host := example_host) (Some [])
                     (fun _ => Reply (py "{}")) [py "cozy and quiet"])) =
    Ret (JObj [(py "summary", JStr (py "AI Summarizer is not configured. Missing API Key."));
               (py "mood_tags", JArr [JStr (py "error")]);
               (py "key_themes", JArr [JStr (py "configuration")])]).
Proof.
  split; [reflexivity|].
  apply (missing_api_key (host := example_host) (Some []) (fun _ => Reply (py "{}"))
           [py "cozy and quiet"]).
  reflexivity.
Defined.

(** Against claim C1 as stated: the key is set, the call succeeds and the
    model answers with a plain sentence; the returned string is that
    sentence, which is not JSON. *)
Lemma raw_reply_is_returned :
  ~ well_formed_payload
      (snd (summarize_reviews (host := example_host) (Some (py "sk-test"))
              (fun _ => Reply (py "The place feels cozy and quiet."))
              [py "cozy and quiet"; py "loud but fun"])).
Proof.
  intros (fields & Hloads & _). vm_compute in Hloads. discriminate.
Qed.

End SummarizerFacts.

(** ** The scraper command line *)

Module ScraperFacts.
Import Scraper.

Section Facts.
Context {host : Host}.
Variable creds : credentials.
Variable reddit_search : pystr -> pystr -> Z -> pyres (list submission).
Variable browser_scrape : pystr -> Z -> pyres (list record).

Lemma scrape_reddit_unset query limit :
  credentials_unset creds ->
  scrape_reddit creds reddit_search query limit =
  ([Print (py "ERROR: Reddit API credentials are not set. Please edit the script and add them.")],
   Exited 1%Z).
Proof.
  intros Hunset. unfold scrape_reddit.
  replace (pystr_eqb (REDDIT_CLIENT_ID creds) (py "YOUR_CLIENT_ID")
           || pystr_eqb (REDDIT_CLIENT_SECRET creds) (py "YOUR_CLIENT_SECRET")) with true;
    [reflexivity|].
  symmetry. apply orb_true_iff.
  destruct Hunset as [H|H]; [left|right]; now apply pystr_eqb_eq.
Qed.

(** Claim C9.  When the Reddit client id or secret still is the
    placeholder, [scrape_reddit] prints the error and exits with status 1;
    the command line ends with that status, having done nothing but print:
    no API client, no search, no browser, no file. *)
Theorem reddit_exits_before_any_work query limit output :
  credentials_unset creds ->
  scrape_reddit creds reddit_search query limit =
    ([Print (py "ERROR: Reddit API credentials are not set. Please edit the script and add them.")],
     Exited 1%Z) /\
  snd (main creds reddit_search browser_scrape reddit query limit output) = 1%Z /\
  Forall is_print (fst (main creds reddit_search browser_scrape reddit query limit output)).
Proof.
  intros Hunset. split; [now apply scrape_reddit_unset|].
  unfold main. rewrite scrape_reddit_unset by assumption. cbn [fst snd].
  split; [reflexivity|].
  repeat (apply Forall_cons; [eexists; reflexivity|]). apply Forall_nil.
Qed.

End Facts.

Lemma reddit_exits_before_any_work_witness :
  credentials_unset {| REDDIT_CLIENT_ID := py "YOUR_CLIENT_ID";
                       REDDIT_CLIENT_SECRET := py "YOUR_CLIENT_SECRET";
                       REDDIT_USER_AGENT := py "vibe-navigator" |} /\
  snd (main (host := example_host)
         {| REDDIT_CLIENT_ID := py "YOUR_CLIENT_ID";
            REDDIT_CLIENT_SECRET := py "YOUR_CLIENT_SECRET";
            REDDIT_USER_AGENT := py "vibe-navigator" |}
         (fun _ _ _ => Ret []) (fun _ _ => Ret [])
         reddit (py "Cafes in Delhi") 10 (py "vibe_navigator_data.csv")) = 1%Z.
Proof.
  split; [left; reflexivity|].
  apply (reddit_exits_before_any_work (host := example_host)
           {| REDDIT_CLIENT_ID := py "YOUR_CLIENT_ID";
              REDDIT_CLIENT_SECRET := py "YOUR_CLIENT_SECRET";
              REDDIT_USER_AGENT := py "vibe-navigator" |}
           (fun _ _ _ => Ret []) (fun _ _ => Ret [])
           (py "Cafes in Delhi") 10 (py "vibe_navigator_data.csv")).
  left; reflexivity.
Defined.

End ScraperFacts.

(** ** The database and the API service *)

Module StoreFacts.
Import Json Store.
Local Open Scope Z_scope.

Section Facts.
Context {host : Host}.

Lemma max_id_ge ids x : In x ids -> x <= max_id ids.
Proof.
  induction ids as [|y ids IH]; intros Hin; [contradiction|].
  cbn [max_id fold_right]. fold (max_id ids).
  destruct Hin as [->|Hin]; [lia|]. specialize (IH Hin). lia.
Qed.

Lemma next_rowid_fresh ids seq : ~ In (next_rowid ids seq) ids.
Proof. intros Hin. apply max_id_ge in Hin. unfold next_rowid in Hin. lia. Qed.

Lemma bind_str_ret s s' : bind_str s = Ret s' -> s' = s /\ utf8_encodable s = true.
Proof. unfold bind_str. destruct (utf8_encodable s); [|discriminate]. intros H; injection H as <-. auto. Qed.

Lemma bind_int_ret z z' : bind_int z = Ret z' -> z' = z /\ fits_int64 z = true.
Proof. unfold bind_int. destruct (fits_int64 z); [|discriminate]. intros H; injection H as <-. auto. Qed.

Lemma bind_int_fits z : fits_int64 z = true -> bind_int z = Ret z.
Proof. unfold bind_int. now intros ->. Qed.

Lemma bind_int_overflow z : fits_int64 z = false -> bind_int z = Raise OverflowError.
Proof. unfold bind_int. now intros ->. Qed.

Lemma fits_int64_range z : fits_int64 z = true <-> - 2 ^ 63 <= z <= 2 ^ 63 - 1.
Proof. unfold fits_int64. rewrite andb_true_iff, !Z.leb_le. tauto. Qed.

Lemma max_id_nonneg ids : 0 <= max_id ids.
Proof. induction ids as [|y ids IH]; cbn [max_id fold_right]; [lia|]. fold (max_id ids). lia. Qed.

Lemma insert_place_ret d name city category address latitude longitude d' id :
  insert_place d name city category address latitude longitude = Ret (d', id) ->
  exists row,
    places d' = places d ++ [row] /\ p_id row = id /\ ~ In id (map p_id (places d)) /\
    p_name row = name /\ p_city row = city /\ p_category row = category /\
    reviews d' = reviews d /\ vibe_summaries d' = vibe_summaries d.
Proof.
  unfold insert_place.
  destruct (bind_str name) as [name'|] eqn:Hn; [|discriminate].
  destruct (bind_str city) as [city'|] eqn:Hc; [|discriminate].
  destruct (bind_str category) as [category'|] eqn:Hk; [|discriminate].
  destruct (bind_opt_str address) as [address'|]; [|discriminate].
  destruct (table_full _ _); [discriminate|].
  apply bind_str_ret in Hn, Hc, Hk. destruct Hn as [-> _], Hc as [-> _], Hk as [-> _].
  intros H; injection H as <- <-. eexists. cbn.
  repeat split; try reflexivity. apply next_rowid_fresh.
Qed.

(** The id of a new place can be bound again. *)
Lemma insert_place_fits d name city category address latitude longitude d' id :
  insert_place d name city category address latitude longitude = Ret (d', id) ->
  1 <= id <= MAX_ROWID /\ fits_int64 id = true.
Proof.
  unfold insert_place.
  destruct (bind_str name) as [name'|]; [|discriminate].
  destruct (bind_str city) as [city'|]; [|discriminate].
  destruct (bind_str category) as [category'|]; [|discriminate].
  destruct (bind_opt_str address) as [address'|]; [|discriminate].
  destruct (table_full _ _) eqn:Hfull; [discriminate|].
  intros H; injection H as _ <-.
  unfold table_full in Hfull. apply Z.leb_gt in Hfull.
  pose proof (max_id_nonneg (map p_id (places d))) as Hmax.
  assert (Hrange : 1 <= next_rowid (map p_id (places d)) (seq_places d) <= MAX_ROWID)
    by (unfold next_rowid; lia).
  split; [exact Hrange|]. apply fits_int64_range. unfold MAX_ROWID in Hrange. lia.
Qed.

Lemma NoDup_snoc {A} (l : list A) x : NoDup l -> ~ In x l -> NoDup (l ++ [x]).
Proof.
  intros Hl Hx. apply NoDup_app; [assumption|repeat constructor; intros []|].
  intros y Hy [<-|[]]. contradiction.
Qed.

Lemma insert_review_ret d place_id source content d' :
  insert_review d place_id source content = Ret d' ->
  exists row,
    reviews d' = reviews d ++ [row] /\ r_place_id row = place_id /\ r_content row = content /\
    r_source row = source /\
    places d' = places d /\ vibe_summaries d' = vibe_summaries d.
Proof.
  unfold insert_review.
  destruct (bind_int place_id) as [place_id'|] eqn:Hp; [|discriminate].
  destruct (bind_str source) as [source'|] eqn:Hs; [|discriminate].
  destruct (bind_str content) as [content'|] eqn:Hc; [|discriminate].
  apply bind_str_ret in Hs, Hc. destruct Hs as [-> _], Hc as [-> _].
  apply bind_int_ret in Hp. destruct Hp as [-> _].
  intros H; injection H as <-. eexists. cbn. repeat split; reflexivity.
Qed.

Lemma insert_review_fits d place_id source content d' :
  insert_review d place_id source content = Ret d' -> fits_int64 place_id = true.
Proof.
  unfold insert_review.
  destruct (bind_int place_id) as [place_id'|] eqn:Hp; [|discriminate].
  intros _. now apply bind_int_ret in Hp.
Qed.

Lemma insert_review_overflow d place_id source content :
  fits_int64 place_id = false -> insert_review d place_id source content = Raise OverflowError.
Proof. intros H. unfold insert_review. now rewrite (bind_int_overflow _ H). Qed.

Lemma update_vibe_ret d place_id summary mood_tags key_themes d' :
  update_vibe d place_id summary mood_tags key_themes = Ret d' ->
  places d' = places d /\ reviews d' = reviews d /\
  map v_id (vibe_summaries d') = map v_id (vibe_summaries d) /\
  map v_place_id (vibe_summaries d') = map v_place_id (vibe_summaries d).
Proof.
  unfold update_vibe. destruct (bind_value summary) as [bound|]; [|discriminate].
  destruct (bind_int place_id) as [place_id'|] eqn:Hp; [|discriminate].
  apply bind_int_ret in Hp. destruct Hp as [-> _].
  destruct bound as [summary'|].
  - intros H; injection H as <-. cbn. repeat split; try reflexivity.
    + rewrite map_map. apply map_ext. intros v. now destruct (v_place_id v =? place_id).
    + rewrite map_map. apply map_ext. intros v. now destruct (v_place_id v =? place_id).
  - destruct (existsb _ _); [discriminate|]. intros H; injection H as <-. auto.
Qed.

Lemma find_map_update {A} (f : A -> bool) (g : A -> A) (l : list A) x :
  (forall a, f (g a) = f a) -> find f l = Some x -> find f (map g l) = Some (g x).
Proof.
  intros Hfg. induction l as [|a l IH]; [discriminate|].
  cbn [find map]. rewrite Hfg. destruct (f a); [intros H; now injection H as <-|exact IH].
Qed.

Lemma update_vibe_select d place_id summary mood_tags key_themes d' row :
  select_vibe d place_id = Some row ->
  update_vibe d place_id summary mood_tags key_themes = Ret d' ->
  exists text,
    bind_value summary = Ret (Some text) /\
    select_vibe d' place_id =
      Some {| v_id := v_id row; v_place_id := place_id; v_summary := text;
              v_mood_tags := mood_tags; v_key_themes := key_themes |}.
Proof.
  unfold update_vibe, select_vibe. intros Hsel.
  destruct (bind_value summary) as [bound|]; [|discriminate].
  destruct (bind_int place_id) as [place_id'|] eqn:Hp; [|discriminate].
  apply bind_int_ret in Hp. destruct Hp as [-> _].
  destruct bound as [summary'|].
  - intros H; injection H as <-. exists summary'. split; [reflexivity|]. cbn.
    pose proof (find_some _ _ Hsel) as [_ Hrow]. apply Z.eqb_eq in Hrow.
    erewrite find_map_update; [| |exact Hsel].
    + rewrite Hrow, Z.eqb_refl. reflexivity.
    + intros a. destruct (v_place_id a =? place_id) eqn:Ha; cbn; exact Ha.
  - replace (existsb (fun v => v_place_id v =? place_id) (vibe_summaries d)) with true;
      [discriminate|].
    symmetry. apply existsb_exists. exists row. apply (find_some _ _ Hsel).
Qed.

Lemma filter_none {A} (f : A -> bool) l : (forall x, In x l -> f x = false) -> filter f l = [].
Proof.
  induction l as [|a l IH]; intros H; [reflexivity|].
  cbn [filter]. rewrite (H a (or_introl eq_refl)). apply IH. intros x Hx. apply H. now right.
Qed.

Lemma find_none_existsb {A} (f : A -> bool) l : find f l = None -> existsb f l = false.
Proof.
  induction l as [|a l IH]; [reflexivity|]. cbn. destruct (f a); [discriminate|exact IH].
Qed.

Lemma find_snoc_none {A} (f : A -> bool) l x :
  find f l = None -> f x = true -> find f (l ++ [x]) = Some x.
Proof.
  induction l as [|a l IH]; cbn; intros Hl Hx; [now rewrite Hx|].
  destruct (f a); [discriminate|]. now apply IH.
Qed.

Lemma insert_vibe_ret d place_id summary mood_tags key_themes d' :
  insert_vibe d place_id summary mood_tags key_themes = Ret d' ->
  exists text id,
    bind_value summary = Ret (Some text) /\
    vibe_summaries d' =
      vibe_summaries d ++
      [{| v_id := id; v_place_id := place_id; v_summary := text;
          v_mood_tags := mood_tags; v_key_themes := key_themes |}] /\
    ~ In place_id (map v_place_id (vibe_summaries d)) /\
    places d' = places d /\ reviews d' = reviews d.
Proof.
  unfold insert_vibe.
  destruct (bind_int place_id) as [place_id'|] eqn:Hp; [|discriminate].
  apply bind_int_ret in Hp. destruct Hp as [-> _].
  destruct (bind_value summary) as [[summary'|]|]; try discriminate.
  destruct (existsb _ _) eqn:Hex; [discriminate|].
  intros H; injection H as <-. eexists _, _. cbn. repeat split; try reflexivity.
  intros Hin. apply in_map_iff in Hin. destruct Hin as (v & Hv & Hin).
  assert (existsb (fun v => v_place_id v =? place_id) (vibe_summaries d) = true).
  { apply existsb_exists. exists v. split; [assumption|]. now apply Z.eqb_eq. }
  congruence.
Qed.

(** What an update writes: the row of the place gets the new content, every
    other row stays. *)
Lemma update_vibe_rows d place_id summary mood_tags key_themes d' :
  update_vibe d place_id summary mood_tags key_themes = Ret d' ->
  In place_id (map v_place_id (vibe_summaries d)) ->
  exists text,
    bind_value summary = Ret (Some text) /\
    vibe_summaries d' =
      map (fun v => if v_place_id v =? place_id
                    then {| v_id := v_id v; v_place_id := v_place_id v; v_summary := text;
                            v_mood_tags := mood_tags; v_key_themes := key_themes |}
                    else v)
          (vibe_summaries d).
Proof.
  unfold update_vibe. intros H Hin.
  destruct (bind_value summary) as [bound|]; [|discriminate].
  destruct (bind_int place_id) as [place_id'|] eqn:Hp; [|discriminate].
  apply bind_int_ret in Hp. destruct Hp as [-> _].
  destruct bound as [summary'|].
  - injection H as <-. exists summary'. split; reflexivity.
  - replace (existsb (fun v => v_place_id v =? place_id) (vibe_summaries d)) with true in H;
      [discriminate|].
    symmetry. apply existsb_exists. apply in_map_iff in Hin. destruct Hin as (v & Hv & Hin).
    exists v. split; [exact Hin|]. now apply Z.eqb_eq.
Qed.

End Facts.
End StoreFacts.

Module ApiFacts.
Import Json JsonFacts Store StoreFacts Api.
Local Open Scope Z_scope.

Section Task.
Context {host : Host}.
Variable G : globals.
Variable api_key : option pystr.
Variable acreate : chat_request -> Summarizer.api_outcome.

Lemma adds_reviews_refl place_id d : adds_reviews place_id d d [].
Proof. exists []. rewrite app_nil_r. repeat split. constructor. Qed.

Lemma adds_reviews_trans place_id d1 d2 d3 t1 t2 :
  adds_reviews place_id d1 d2 t1 -> adds_reviews place_id d2 d3 t2 ->
  adds_reviews place_id d1 d3 (t1 ++ t2).
Proof.
  intros (a1 & H1 & F1 & M1) (a2 & H2 & F2 & M2). exists (a1 ++ a2).
  rewrite H2, H1, app_assoc. repeat split.
  - apply Forall_app. now split.
  - rewrite map_app. now rewrite M1, M2.
Qed.

(** What the insert loop keeps: places and summaries are untouched, the
    new review rows follow the old ones, and the texts appended to
    [all_reviews] are exactly the contents of the new rows. *)
Lemma insert_all_spec place_id source texts : forall d all_reviews d' all_reviews' err,
  insert_all d place_id source texts all_reviews = (d', all_reviews', err) ->
  places d' = places d /\ vibe_summaries d' = vibe_summaries d /\
  exists inserted,
    all_reviews' = all_reviews ++ inserted /\
    adds_reviews place_id d d' inserted /\
    (err = None -> inserted = texts).
Proof.
  induction texts as [|t texts IH]; intros d all_reviews d' all_reviews' err H.
  - cbn in H. injection H as <- <- <-. repeat split.
    exists []. rewrite app_nil_r. repeat split. apply adds_reviews_refl.
  - cbn [insert_all] in H.
    destruct (insert_review d place_id source t) as [d1|e] eqn:Hins.
    + apply insert_review_ret in Hins.
      destruct Hins as (row & Hrev & Hpid & Hcontent & _ & Hpl & Hvs).
      apply IH in H. destruct H as (Hpl' & Hvs' & inserted & Hall & Hadds & Herr).
      split; [congruence|]. split; [congruence|].
      exists (t :: inserted). split; [rewrite Hall, <- app_assoc; reflexivity|].
      split.
      * change (t :: inserted) with ([t] ++ inserted).
        apply adds_reviews_trans with (d2 := d1); [|assumption].
        exists [row]. repeat split; [assumption| |cbn; now rewrite Hcontent].
        constructor; [assumption|constructor].
      * intros He. now rewrite Herr.
    + injection H as <- <- <-. repeat split.
      exists []. rewrite app_nil_r. repeat split; [apply adds_reviews_refl|discriminate].
Qed.

Lemma scrape_source_spec fname source url place_id d all_reviews out d' all_reviews' out' :
  scrape_source G fname source url place_id (d, all_reviews, out) = (d', all_reviews', out') ->
  places d' = places d /\ vibe_summaries d' = vibe_summaries d /\
  exists inserted,
    all_reviews' = all_reviews ++ inserted /\ adds_reviews place_id d d' inserted.
Proof.
  assert (Hsame : places d = places d /\ vibe_summaries d = vibe_summaries d /\
                  exists inserted, all_reviews = all_reviews ++ inserted /\
                                   adds_reviews place_id d d inserted).
  { repeat split. exists []. rewrite app_nil_r. split; [reflexivity|apply adds_reviews_refl]. }
  unfold scrape_source.
  destruct url as [u|]; [|intros H; injection H as <- <- <-; exact Hsame].
  destruct (truthy u); [|intros H; injection H as <- <- <-; exact Hsame].
  destruct (G fname) as [f|]; [|intros H; injection H as <- <- <-; exact Hsame].
  destruct (f u) as [texts|e]; [|intros H; injection H as <- <- <-; exact Hsame].
  destruct (insert_all d place_id source texts all_reviews) as [[d1 all1] err] eqn:Hall.
  apply insert_all_spec in Hall. destruct Hall as (H1 & H2 & inserted & H3 & H4 & _).
  destruct err; intros H; injection H as <- <- <-; repeat split; try assumption;
    exists inserted; split; assumption.
Qed.

Lemma upsert_vibe_summary_spec d place_id summary_data d' :
  upsert_vibe_summary d place_id summary_data = Ret d' ->
  exists fields text row_id,
    summary_data = JObj fields /\
    bind_value (dict_get (py "summary") fields (JStr (py "No summary provided."))) = Ret (Some text) /\
    select_vibe d' place_id =
      Some {| v_id := row_id; v_place_id := place_id; v_summary := text;
              v_mood_tags := json_dumps (dict_get (py "mood_tags") fields (JArr []));
              v_key_themes := json_dumps (dict_get (py "key_themes") fields (JArr [])) |} /\
    places d' = places d /\ reviews d' = reviews d /\
    (unique_summaries d -> unique_summaries d') /\
    (forall row, select_vibe d place_id = Some row ->
       same_summary_rows d d' /\ row_id = v_id row).
Proof.
  unfold upsert_vibe_summary.
  destruct summary_data as [| | | | |fields]; try discriminate.
  destruct (bind_int place_id) as [place_id'|] eqn:Hp; [|discriminate].
  apply bind_int_ret in Hp. destruct Hp as [-> _].
  destruct (select_vibe d place_id) as [row|] eqn:Hsel; intros H.
  - pose proof (update_vibe_select _ _ _ _ _ _ _ Hsel H) as (text & Hbind & Hsel').
    apply update_vibe_ret in H. destruct H as (Hpl & Hrev & Hids & Hpids).
    exists fields, text, (v_id row). repeat split; try assumption.
    + unfold unique_summaries. now rewrite Hpids.
    + injection H as <-. reflexivity.
  - apply insert_vibe_ret in H.
    destruct H as (text & id & Hbind & Hrows & Hfresh & Hpl & Hrev).
    exists fields, text, id. repeat split; try assumption.
    + unfold select_vibe. rewrite Hrows. apply find_snoc_none; [exact Hsel|]. cbn. apply Z.eqb_refl.
    + unfold unique_summaries. rewrite Hrows, map_app. cbn [map].
      intros Hnd. now apply NoDup_snoc.
    + discriminate.
    + discriminate.
    + discriminate.
Qed.

Lemma upsert_vibe_summary_fits d place_id summary_data d' :
  upsert_vibe_summary d place_id summary_data = Ret d' -> fits_int64 place_id = true.
Proof.
  unfold upsert_vibe_summary.
  destruct summary_data as [| | | | |fields]; try discriminate.
  destruct (bind_int place_id) as [place_id'|] eqn:Hp; [|discriminate].
  intros _. now apply bind_int_ret in Hp.
Qed.

(** The rows that a successful upsert leaves: the row of the place is
    rewritten where it stands, or, when the place has none, a row is
    appended. *)
Lemma upsert_vibe_summary_rows d place_id fields d' :
  upsert_vibe_summary d place_id (JObj fields) = Ret d' ->
  exists text,
    bind_value (dict_get (py "summary") fields (JStr (py "No summary provided.")))
      = Ret (Some text) /\
    match select_vibe d place_id with
    | Some _ =>
      vibe_summaries d' =
        map (fun v => if v_place_id v =? place_id
                      then {| v_id := v_id v; v_place_id := v_place_id v; v_summary := text;
                              v_mood_tags := json_dumps (dict_get (py "mood_tags") fields (JArr []));
                              v_key_themes := json_dumps (dict_get (py "key_themes") fields (JArr [])) |}
                      else v)
            (vibe_summaries d)
    | None =>
      exists row_id,
        vibe_summaries d' =
          vibe_summaries d ++
          [{| v_id := row_id; v_place_id := place_id; v_summary := text;
              v_mood_tags := json_dumps (dict_get (py "mood_tags") fields (JArr []));
              v_key_themes := json_dumps (dict_get (py "key_themes") fields (JArr [])) |}]
    end.
Proof.
  unfold upsert_vibe_summary.
  destruct (bind_int place_id) as [place_id'|] eqn:Hp; [|discriminate].
  apply bind_int_ret in Hp. destruct Hp as [-> _].
  destruct (select_vibe d place_id) as [row|] eqn:Hsel; intros H.
  - apply update_vibe_rows in H; [exact H|].
    unfold select_vibe in Hsel. apply find_some in Hsel. destruct Hsel as [Hin Heq].
    apply Z.eqb_eq in Heq. rewrite <- Heq. now apply in_map.
  - apply insert_vibe_ret in H. destruct H as (text & id & Hbind & Hrows & _).
    exists text. split; [exact Hbind|]. now exists id.
Qed.

Lemma summarize_and_upsert_spec d place_id all_reviews d' out r :
  summarize_and_upsert api_key acreate d place_id all_reviews = (d', out, r) ->
  (forall e, r = Raise e -> d' = d) /\
  (forall n b, r = Ret (n, b) ->
     n = List.length all_reviews /\ b = true /\
     exists summary_data,
       json_loads (snd (Summarizer.summarize_reviews api_key acreate all_reviews)) = Ret summary_data /\
       upsert_vibe_summary d place_id summary_data = Ret d').
Proof.
  unfold summarize_and_upsert.
  destruct (Summarizer.summarize_reviews api_key acreate all_reviews) as [out0 summary_json].
  cbn [snd].
  destruct (json_loads summary_json) as [summary_data|e0].
  - destruct (upsert_vibe_summary d place_id summary_data) as [d1|e1] eqn:Hup.
    + intros H; injection H as <- <- <-. split; [discriminate|].
      intros n b Hr. injection Hr as <- <-. repeat split. exists summary_data. now split.
    + intros H; injection H as <- <- <-. split; [reflexivity|discriminate].
  - intros H; injection H as <- <- <-. split; [reflexivity|discriminate].
Qed.

(** The whole task, for any namespace: the texts of the review rows it
    adds are the list it passes to the Summarizer, and the summary is
    upserted from the parsed answer. *)
Lemma scrape_and_store_reviews_spec d place_id place_name google_maps_url tripadvisor_url
    d' out ret :
  scrape_and_store_reviews G api_key acreate d place_id place_name
                           google_maps_url tripadvisor_url = (d', out, ret) ->
  exists all_reviews d2,
    adds_reviews place_id d d2 all_reviews /\
    places d2 = places d /\ vibe_summaries d2 = vibe_summaries d /\
    ((all_reviews = [] /\ d' = d2 /\ ret = Some (O, false)) \/
     (all_reviews <> [] /\ d' = d2 /\ ret = None) \/
     (all_reviews <> [] /\ ret = Some (List.length all_reviews, true) /\
      exists summary_data,
        json_loads (snd (Summarizer.summarize_reviews api_key acreate all_reviews))
          = Ret summary_data /\
        upsert_vibe_summary d2 place_id summary_data = Ret d')).
Proof.
  unfold scrape_and_store_reviews.
  destruct (scrape_source G (py "scrape_google_maps_reviews") (py "Google Maps")
              google_maps_url place_id (d, [], [])) as [[d1 all1] out1] eqn:H1.
  destruct (scrape_source G (py "scrape_tripadvisor_reviews") (py "TripAdvisor")
              tripadvisor_url place_id (d1, all1, out1)) as [[d2 all2] out2] eqn:H2.
  apply scrape_source_spec in H1, H2.
  destruct H1 as (Hp1 & Hv1 & ins1 & Ha1 & Hadd1).
  destruct H2 as (Hp2 & Hv2 & ins2 & Ha2 & Hadd2).
  cbn [app] in Ha1. subst all1 all2.
  assert (Hadd : adds_reviews place_id d d2 (ins1 ++ ins2))
    by (eapply adds_reviews_trans; eassumption).
  assert (Hp : places d2 = places d) by congruence.
  assert (Hv : vibe_summaries d2 = vibe_summaries d) by congruence.
  destruct (ins1 ++ ins2) as [|r0 rs] eqn:Hall.
  - intros H; injection H as <- <- <-. exists [], d2. repeat split; try assumption.
    left. repeat split.
  - destruct (summarize_and_upsert api_key acreate d2 place_id (r0 :: rs))
      as [[d3 out3] [[n b]|e]] eqn:Hsum;
      apply summarize_and_upsert_spec in Hsum; destruct Hsum as [Hraise Hret];
      intros H; injection H as <- <- <-; exists (r0 :: rs), d2; repeat split; try assumption.
    + destruct (Hret n b eq_refl) as (-> & -> & summary_data & Hl & Hu).
      right; right. split; [discriminate|]. split; [reflexivity|]. now exists summary_data.
    + right; left. split; [discriminate|]. split; [now apply (Hraise e)|reflexivity].
Qed.

Lemma run_task_spec d t :
  let d' := run_task G api_key acreate d t in
  places d' = places d /\
  (exists texts, adds_reviews (task_place_id t) d d' texts) /\
  (unique_summaries d -> unique_summaries d') /\
  (forall row, select_vibe d (task_place_id t) = Some row ->
     same_summary_rows d d' /\
     exists row', select_vibe d' (task_place_id t) = Some row' /\ v_id row' = v_id row).
Proof.
  unfold run_task.
  destruct (scrape_and_store_reviews G api_key acreate d (task_place_id t) (task_place_name t)
              (task_google_maps_url t) (task_tripadvisor_url t)) as [[d' out] ret] eqn:Hrun.
  cbn [fst]. apply scrape_and_store_reviews_spec in Hrun.
  destruct Hrun as (all_reviews & d2 & Hadd & Hp & Hv & Hcases).
  assert (Hsame2 : forall row, select_vibe d (task_place_id t) = Some row ->
            same_summary_rows d d2 /\
            exists row', select_vibe d2 (task_place_id t) = Some row' /\ v_id row' = v_id row).
  { intros row Hrow. split; [unfold same_summary_rows; now rewrite Hv|].
    exists row. unfold select_vibe in *. now rewrite Hv. }
  assert (Huniq2 : unique_summaries d -> unique_summaries d2)
    by (unfold unique_summaries; now rewrite Hv).
  destruct Hcases as [(_ & -> & _)|[(_ & -> & _)|(_ & _ & summary_data & _ & Hup)]].
  - split; [assumption|]. split; [now exists all_reviews|]. split; assumption.
  - split; [assumption|]. split; [now exists all_reviews|]. split; assumption.
  - apply upsert_vibe_summary_spec in Hup.
    destruct Hup as (fields & text & row_id & _ & _ & Hsel & Hpl & Hrev & Huniq & Hrows).
    split; [congruence|]. split; [|split].
    + exists all_reviews. destruct Hadd as (added & Ha & Hf & Hm).
      exists added. rewrite Hrev. now repeat split.
    + auto.
    + intros row Hrow.
      assert (Hrow2 : select_vibe d2 (task_place_id t) = Some row)
        by (unfold select_vibe in *; now rewrite Hv).
      destruct (Hrows row Hrow2) as [[Hids Hpids] ->].
      split; [unfold same_summary_rows; rewrite Hids, Hpids, Hv; now split|].
      eexists. split; [exact Hsel|reflexivity].
Qed.

End Task.

(** *** Reading back what the task stored *)

Section ReadBack.
Context {host : Host}.

Lemma validate_items_strings l : validate_items (map JStr l) = Some l.
Proof. induction l as [|s l IH]; [reflexivity|]. cbn [map validate_items]. now rewrite IH. Qed.

Lemma validate_str_list_strings l : validate_str_list (JArr (map JStr l)) = Ret l.
Proof. unfold validate_str_list. now rewrite validate_items_strings. Qed.

Lemma get_vibe_summary_strings d place_id row mood themes :
  fits_int64 place_id = true ->
  select_vibe d place_id = Some row ->
  v_mood_tags row = json_dumps (JArr (map JStr mood)) ->
  v_key_themes row = json_dumps (JArr (map JStr themes)) ->
  get_vibe_summary d place_id =
    Ret {| VibeSummary.id := Some (v_id row);
           VibeSummary.place_id := v_place_id row;
           VibeSummary.summary := v_summary row;
           VibeSummary.mood_tags := map reread mood;
           VibeSummary.key_themes := map reread themes |}.
Proof.
  intros Hfits Hsel Hm Ht. unfold get_vibe_summary. rewrite (bind_int_fits _ Hfits), Hsel, Hm, Ht.
  rewrite !json_loads_dumps_strings, !validate_str_list_strings. reflexivity.
Qed.

(** After a successful upsert of a payload whose tags are lists of
    strings, the read path returns the bound summary and the lists as the
    decoder reads them. *)
Lemma get_after_upsert d place_id fields d' mood themes :
  upsert_vibe_summary d place_id (JObj fields) = Ret d' ->
  dict_get (py "mood_tags") fields (JArr []) = JArr (map JStr mood) ->
  dict_get (py "key_themes") fields (JArr []) = JArr (map JStr themes) ->
  exists row_id text,
    bind_value (dict_get (py "summary") fields (JStr (py "No summary provided."))) = Ret (Some text) /\
    select_vibe d' place_id =
      Some {| v_id := row_id; v_place_id := place_id; v_summary := text;
              v_mood_tags := json_dumps (JArr (map JStr mood));
              v_key_themes := json_dumps (JArr (map JStr themes)) |} /\
    get_vibe_summary d' place_id =
      Ret {| VibeSummary.id := Some row_id;
             VibeSummary.place_id := place_id;
             VibeSummary.summary := text;
             VibeSummary.mood_tags := map reread mood;
             VibeSummary.key_themes := map reread themes |}.
Proof.
  intros Hup Hm Ht. pose proof (upsert_vibe_summary_fits _ _ _ _ Hup) as Hfits.
  apply upsert_vibe_summary_spec in Hup.
  destruct Hup as (fields' & text & row_id & Heq & Hbind & Hsel & _).
  injection Heq as <-. exists row_id, text. split; [exact Hbind|].
  rewrite Hm, Ht in Hsel. split; [exact Hsel|].
  rewrite (get_vibe_summary_strings d' place_id _ mood themes Hfits Hsel);
    cbn [v_id v_place_id v_summary v_mood_tags v_key_themes]; reflexivity.
Qed.

Lemma select_vibe_none d place_id :
  ~ In place_id (map v_place_id (vibe_summaries d)) -> select_vibe d place_id = None.
Proof.
  intros Hnot. unfold select_vibe.
  destruct (find _ _) as [v|] eqn:Hfind; [|reflexivity].
  apply find_some in Hfind. destruct Hfind as [Hin Heq]. apply Z.eqb_eq in Heq.
  exfalso. apply Hnot. rewrite <- Heq. now apply in_map.
Qed.

Lemma encodable_no_split_pair s : utf8_encodable s = true -> no_split_pair s = true.
Proof.
  unfold utf8_encodable. induction s as [|c r IH]; [reflexivity|].
  cbn [forallb no_split_pair]. intros H. apply andb_true_iff in H. destruct H as [Hc Hr].
  rewrite (IH Hr), andb_true_r.
  assert (Hh : is_high_surrogate c = false).
  { unfold is_surrogate in Hc. unfold is_high_surrogate.
    destruct (N.leb_spec 0xD800 c), (N.leb_spec c 0xDFFF), (N.leb_spec c 0xDBFF);
      cbn in Hc |- *; try reflexivity; try discriminate; lia. }
  now rewrite Hh.
Qed.

Lemma unicode_texts_reread l : Forall unicode_text l -> map reread l = l.
Proof.
  intros H. apply reread_all_id. eapply Forall_impl; [|exact H].
  intros s [Hcp Henc]. split; [exact Hcp|now apply encodable_no_split_pair].
Qed.

(** An object whose summary can be bound is always upserted, for a place
    id that can be bound. *)
Lemma upsert_succeeds d place_id fields text :
  fits_int64 place_id = true ->
  bind_value (dict_get (py "summary") fields (JStr (py "No summary provided."))) = Ret (Some text) ->
  exists d', upsert_vibe_summary d place_id (JObj fields) = Ret d'.
Proof.
  intros Hfits Hbind. unfold upsert_vibe_summary. rewrite (bind_int_fits _ Hfits).
  destruct (select_vibe d place_id) as [row|] eqn:Hsel.
  - unfold update_vibe. rewrite Hbind, (bind_int_fits _ Hfits). eexists. reflexivity.
  - unfold insert_vibe. rewrite (bind_int_fits _ Hfits), Hbind.
    rewrite (find_none_existsb _ _ Hsel). eexists. reflexivity.
Qed.


End ReadBack.

(** *** Invariants of the reachable states *)

Section Invariants.
Context {host : Host}.

Lemma create_place_places d place :
  unique_places d -> unique_places (fst (create_place d place)) /\
  vibe_summaries (fst (create_place d place)) = vibe_summaries d /\
  reviews (fst (create_place d place)) = reviews d.
Proof.
  intros Hu. unfold create_place.
  destruct (insert_place d (Place.name place) (Place.city place) (Place.category place)
              (Place.address place) (Place.latitude place) (Place.longitude place))
    as [[d' id]|e] eqn:Hins; cbn [fst]; [|auto].
  apply insert_place_ret in Hins.
  destruct Hins as (row & Hpl & Hid & Hfresh & _ & _ & _ & Hrev & Hvs).
  split; [|auto]. unfold unique_places. rewrite Hpl, map_app. cbn [map].
  apply NoDup_snoc; [exact Hu|now rewrite Hid].
Qed.

Lemma create_place_and_scrape_places d request :
  unique_places d ->
  unique_places (fst (fst (create_place_and_scrape_reviews d request))) /\
  vibe_summaries (fst (fst (create_place_and_scrape_reviews d request))) = vibe_summaries d /\
  reviews (fst (fst (create_place_and_scrape_reviews d request))) = reviews d.
Proof.
  intros Hu. unfold create_place_and_scrape_reviews.
  destruct (insert_place d (CreatePlaceAndScrapeRequest.name request)
              (CreatePlaceAndScrapeRequest.city request)
              (CreatePlaceAndScrapeRequest.category request)
              (CreatePlaceAndScrapeRequest.address request)
              (CreatePlaceAndScrapeRequest.latitude request)
              (CreatePlaceAndScrapeRequest.longitude request))
    as [[d' id]|e] eqn:Hins; cbn [fst]; [|auto].
  apply insert_place_ret in Hins.
  destruct Hins as (row & Hpl & Hid & Hfresh & _ & _ & _ & Hrev & Hvs).
  split; [|auto]. unfold unique_places. rewrite Hpl, map_app. cbn [map].
  apply NoDup_snoc; [exact Hu|now rewrite Hid].
Qed.

Lemma step_keeps_unique s s' :
  step s s' ->
  unique_places (store s) /\ unique_summaries (store s) ->
  unique_places (store s') /\ unique_summaries (store s').
Proof.
  intros Hstep [Hp Hs].
  destruct Hstep as [s place|s request|s request|s t before after G api_key acreate Hq];
    cbn [store].
  - destruct (create_place_places (store s) place Hp) as (H1 & H2 & _).
    split; [exact H1|]. unfold unique_summaries. now rewrite H2.
  - destruct (create_place_and_scrape_places (store s) request Hp) as (H1 & H2 & _).
    split; [exact H1|]. unfold unique_summaries. now rewrite H2.
  - now split.
  - destruct (run_task_spec G api_key acreate (store s) t) as (H1 & _ & H2 & _).
    split; [unfold unique_places; now rewrite H1|now apply H2].
Qed.

Lemma reachable_unique s :
  reachable s -> unique_places (store s) /\ unique_summaries (store s).
Proof.
  induction 1 as [|s s' _ IH Hstep].
  - split; constructor.
  - now apply (step_keeps_unique s s').
Qed.

(** Claim C8, as amended.  In every reachable state the ids of the rows
    of [places] are pairwise distinct.  (Name, city and category are
    never NULL, which the types say; they may be empty.) *)
Theorem place_ids_unique (s : state) : reachable s -> unique_places (store s).
Proof. intros Hreach. apply (reachable_unique s Hreach). Qed.

End Invariants.

(** *** Requests that name a place that does not exist *)

Section MissingPlace.
Context {host : Host}.

Lemma upsert_place_ids d place_id summary_data d' :
  upsert_vibe_summary d place_id summary_data = Ret d' ->
  incl (map v_place_id (vibe_summaries d')) (place_id :: map v_place_id (vibe_summaries d)).
Proof.
  unfold upsert_vibe_summary.
  destruct summary_data as [| | | | |fields]; try discriminate.
  destruct (bind_int place_id) as [place_id'|] eqn:Hp; [|discriminate].
  apply bind_int_ret in Hp. destruct Hp as [-> _].
  destruct (select_vibe d place_id) as [row|]; intros H.
  - apply update_vibe_ret in H. destruct H as (_ & _ & _ & ->). apply incl_tl, incl_refl.
  - apply insert_vibe_ret in H. destruct H as (text & id & _ & -> & _).
    rewrite map_app. cbn [map v_place_id]. intros x Hx. apply in_app_or in Hx.
    destruct Hx as [Hx|[<-|[]]]; [now right|now left].
Qed.

Lemma run_task_place_ids G api_key acreate d t :
  incl (map v_place_id (vibe_summaries (run_task G api_key acreate d t)))
       (task_place_id t :: map v_place_id (vibe_summaries d)).
Proof.
  unfold run_task.
  destruct (scrape_and_store_reviews G api_key acreate d (task_place_id t) (task_place_name t)
              (task_google_maps_url t) (task_tripadvisor_url t)) as [[d' out] ret] eqn:Hrun.
  cbn [fst]. apply scrape_and_store_reviews_spec in Hrun.
  destruct Hrun as (all_reviews & d2 & _ & _ & Hv & Hcases).
  destruct Hcases as [(_ & -> & _)|[(_ & -> & _)|(_ & _ & summary_data & _ & Hup)]].
  - rewrite Hv. apply incl_tl, incl_refl.
  - rewrite Hv. apply incl_tl, incl_refl.
  - apply upsert_place_ids in Hup. now rewrite Hv in Hup.
Qed.

Lemma select_place_some d place_id p :
  select_place d place_id = Some p -> In place_id (map p_id (places d)).
Proof.
  unfold select_place. intros H. apply find_some in H. destruct H as [Hin Heq].
  apply Z.eqb_eq in Heq. rewrite <- Heq. now apply in_map.
Qed.

Lemma select_place_none d place_id :
  select_place d place_id = None -> ~ In place_id (map p_id (places d)).
Proof.
  unfold select_place. intros H Hin. apply in_map_iff in Hin. destruct Hin as (p & Hp & Hin).
  apply (find_none _ _ H) in Hin. rewrite Hp, Z.eqb_refl in Hin. discriminate.
Qed.

Lemma step_keeps_references s s' : step s s' -> refers_to_places s -> refers_to_places s'.
Proof.
  intros Hstep (Hv & Hr & Ht).
  destruct Hstep as [s place|s request|s request|s t before after G api_key acreate Hq];
    unfold refers_to_places; cbn [store background].
  - unfold create_place.
    destruct (insert_place _ _ _ _ _ _ _) as [[d' id]|e] eqn:Hins; cbn [fst]; [|now repeat split].
    apply insert_place_ret in Hins.
    destruct Hins as (row & Hpl & _ & _ & _ & _ & _ & Hrev & Hvs).
    rewrite Hpl, Hvs, Hrev, map_app. repeat split; intros x Hx; apply in_or_app; left; auto.
  - unfold create_place_and_scrape_reviews.
    destruct (insert_place _ _ _ _ _ _ _) as [[d' id]|e] eqn:Hins; cbn [fst snd].
    + apply insert_place_ret in Hins.
      destruct Hins as (row & Hpl & Hid & _ & _ & _ & _ & Hrev & Hvs).
      rewrite Hpl, Hvs, Hrev, !map_app. cbn [map task_place_id]. rewrite Hid.
      repeat split; intros x Hx; apply in_or_app.
      * left; auto.
      * left; auto.
      * apply in_app_or in Hx. destruct Hx as [Hx|[<-|[]]]; [left; auto|right; now left].
    + rewrite app_nil_r. now repeat split.
  - split; [exact Hv|]. split; [exact Hr|]. unfold scrape_reviews.
    destruct (bind_int (ScrapeRequest.place_id request)) as [place_id|] eqn:Hp;
      [|cbn [snd]; now rewrite app_nil_r].
    apply bind_int_ret in Hp. destruct Hp as [-> _].
    destruct (select_place (store s) (ScrapeRequest.place_id request)) as [p|] eqn:Hsel;
      cbn [snd].
    + rewrite map_app. cbn [map task_of_request task_place_id].
      intros x Hx. apply in_app_or in Hx. destruct Hx as [Hx|[<-|[]]]; [auto|].
      now apply (select_place_some _ _ p).
    + now rewrite app_nil_r.
  - destruct (run_task_spec G api_key acreate (store s) t) as (Hpl & (texts & Hadd) & _).
    rewrite Hpl. rewrite Hq in Ht. rewrite map_app in Ht. cbn [map] in Ht.
    assert (Hin : In (task_place_id t) (map p_id (places (store s)))).
    { apply Ht. apply in_or_app. right. now left. }
    split; [|split].
    + intros x Hx. apply run_task_place_ids in Hx. destruct Hx as [<-|Hx]; auto.
    + destruct Hadd as (added & -> & Hall & _). rewrite map_app.
      intros x Hx. apply in_app_or in Hx. destruct Hx as [Hx|Hx]; [auto|].
      apply in_map_iff in Hx. destruct Hx as (r & <- & Hrin).
      rewrite Forall_forall in Hall. now rewrite (Hall r Hrin).
    + rewrite map_app. intros x Hx. apply Ht. apply in_app_or in Hx.
      apply in_or_app. destruct Hx; [now left|right; now right].
Qed.

Lemma reachable_references s : reachable s -> refers_to_places s.
Proof.
  induction 1 as [|s s' _ IH Hstep].
  - repeat split; intros x [].
  - now apply (step_keeps_references s s').
Qed.

Lemma select_reviews_none d place_id :
  ~ In place_id (map r_place_id (reviews d)) -> select_reviews d place_id = [].
Proof.
  intros Hnot. unfold select_reviews. apply filter_none.
  intros r Hr. apply Z.eqb_neq. intros Heq. apply Hnot. rewrite <- Heq. now apply in_map.
Qed.

(** The ids of the places of a reachable state are rowids: positive and
    within the 64-bit range. *)
Lemma step_keeps_place_ids s s' :
  step s s' ->
  Forall (fun id => 1 <= id <= MAX_ROWID) (map p_id (places (store s))) ->
  Forall (fun id => 1 <= id <= MAX_ROWID) (map p_id (places (store s'))).
Proof.
  intros Hstep Hids.
  destruct Hstep as [s place|s request|s request|s t before after G api_key acreate Hq];
    cbn [store].
  - unfold create_place.
    destruct (insert_place _ _ _ _ _ _ _) as [[d' id]|e] eqn:Hins; cbn [fst]; [|exact Hids].
    pose proof (insert_place_fits _ _ _ _ _ _ _ _ _ Hins) as [Hrange _].
    apply insert_place_ret in Hins. destruct Hins as (row & Hpl & Hid & _).
    rewrite Hpl, map_app. apply Forall_app. split; [exact Hids|].
    cbn [map]. rewrite Hid. now constructor.
  - unfold create_place_and_scrape_reviews.
    destruct (insert_place _ _ _ _ _ _ _) as [[d' id]|e] eqn:Hins; cbn [fst]; [|exact Hids].
    pose proof (insert_place_fits _ _ _ _ _ _ _ _ _ Hins) as [Hrange _].
    apply insert_place_ret in Hins. destruct Hins as (row & Hpl & Hid & _).
    rewrite Hpl, map_app. apply Forall_app. split; [exact Hids|].
    cbn [map]. rewrite Hid. now constructor.
  - exact Hids.
  - destruct (run_task_spec G api_key acreate (store s) t) as (Hpl & _). now rewrite Hpl.
Qed.

Lemma reachable_place_ids s :
  reachable s -> Forall (fun id => 1 <= id <= MAX_ROWID) (map p_id (places (store s))).
Proof.
  induction 1 as [|s s' _ IH Hstep]; [constructor|now apply (step_keeps_place_ids s s')].
Qed.

Lemma reachable_place_fits s id :
  reachable s -> In id (map p_id (places (store s))) -> fits_int64 id = true.
Proof.
  intros Hreach Hin. pose proof (reachable_place_ids s Hreach) as Hids.
  rewrite Forall_forall in Hids. specialize (Hids id Hin).
  apply fits_int64_range. unfold MAX_ROWID in Hids. lia.
Qed.

(** Claim C5, as amended.  In a reachable state, for a place id that
    [places] does not hold: when the id fits in 64 bits,
    [GET /places/{id}], [GET /places/{id}/vibe] and [POST /scrape/reviews]
    answer 404 and [GET /places/{id}/reviews] answers 200 with an empty
    list; when it does not, each of the four fails with [OverflowError],
    status 500.  In either case the trigger hands no task to the
    background. *)
Theorem missing_place_not_found (s : state) (request : ScrapeRequest.t) :
  reachable s ->
  select_place (store s) (ScrapeRequest.place_id request) = None ->
  snd (scrape_reviews (store s) request) = [] /\
  if fits_int64 (ScrapeRequest.place_id request) then
    status_code (get_place (store s) (ScrapeRequest.place_id request)) = 404 /\
    status_code (get_vibe_summary (store s) (ScrapeRequest.place_id request)) = 404 /\
    status_code (fst (scrape_reviews (store s) request)) = 404 /\
    get_reviews (store s) (ScrapeRequest.place_id request) = Ret [] /\
    status_code (get_reviews (store s) (ScrapeRequest.place_id request)) = 200
  else
    get_place (store s) (ScrapeRequest.place_id request) = Raise OverflowError /\
    get_vibe_summary (store s) (ScrapeRequest.place_id request) = Raise OverflowError /\
    fst (scrape_reviews (store s) request) = Raise OverflowError /\
    get_reviews (store s) (ScrapeRequest.place_id request) = Raise OverflowError /\
    status_code (get_place (store s) (ScrapeRequest.place_id request)) = 500 /\
    status_code (get_vibe_summary (store s) (ScrapeRequest.place_id request)) = 500 /\
    status_code (fst (scrape_reviews (store s) request)) = 500 /\
    status_code (get_reviews (store s) (ScrapeRequest.place_id request)) = 500.
Proof.
  intros Hreach Hsel. destruct (reachable_references s Hreach) as (Hv & Hr & _).
  apply select_place_none in Hsel as Hnot.
  unfold get_place, scrape_reviews, get_vibe_summary, get_reviews, bind_int.
  destruct (fits_int64 (ScrapeRequest.place_id request)).
  - rewrite Hsel.
    rewrite select_vibe_none by (intros Hin; now apply Hv in Hin).
    rewrite select_reviews_none by (intros Hin; now apply Hr in Hin).
    repeat split.
  - repeat split.
Qed.

End MissingPlace.

(** *** The search *)

Section SearchFacts.
Context {host : Host}.
Local Open Scope N_scope.

Lemma like_percent pattern text :
  like_match (37 :: pattern) text =
  like_match pattern text
  || match text with [] => false | _ :: text' => like_match (37 :: pattern) text' end.
Proof. destruct text; reflexivity. Qed.

Lemma like_match_char c pattern text :
  c <> 37 -> c <> 95 ->
  like_match (c :: pattern) text =
  match text with
  | [] => false
  | x :: text' => (ascii_lower_char c =? ascii_lower_char x) && like_match pattern text'
  end.
Proof.
  intros H1 H2. cbn [like_match].
  destruct (N.eqb_spec c 37); [contradiction|]. destruct (N.eqb_spec c 95); [contradiction|].
  reflexivity.
Qed.

Lemma like_only_percent text : like_match [37] text = true.
Proof.
  induction text as [|x text IH]; rewrite like_percent; [reflexivity|].
  rewrite IH. apply orb_true_r.
Qed.

Lemma like_prefix pattern : no_wildcard pattern ->
  forall text, like_match (pattern ++ [37]) text = prefix_nocase pattern text.
Proof.
  induction 1 as [|c pattern [H1 H2] _ IH]; intros text.
  - cbn [app prefix_nocase]. apply like_only_percent.
  - cbn [app]. rewrite like_match_char by assumption.
    destruct text as [|x text]; [reflexivity|]. cbn [prefix_nocase]. now rewrite IH.
Qed.

Lemma like_contains pattern text : no_wildcard pattern ->
  like_match (37 :: pattern ++ [37]) text = contains_nocase pattern text.
Proof.
  intros Hp. induction text as [|x text IH]; rewrite like_percent, like_prefix by assumption.
  - reflexivity.
  - cbn [contains_nocase]. now rewrite IH.
Qed.

Lemma ascii_lower_char_idem c : ascii_lower_char (ascii_lower_char c) = ascii_lower_char c.
Proof.
  unfold ascii_lower_char.
  destruct (N.leb_spec 65 c), (N.leb_spec c 90); cbn [andb]; try reflexivity.
  - destruct (N.leb_spec 65 (c + 32)), (N.leb_spec (c + 32) 90); cbn [andb]; try reflexivity; lia.
  - destruct (N.leb_spec 65 c), (N.leb_spec c 90); cbn [andb]; try reflexivity; lia.
  - destruct (N.leb_spec 65 c), (N.leb_spec c 90); cbn [andb]; try reflexivity; lia.
  - destruct (N.leb_spec 65 c), (N.leb_spec c 90); cbn [andb]; try reflexivity; lia.
Qed.

Lemma prefix_nocase_lower y : forall t,
  prefix_nocase (map ascii_lower_char y) (map ascii_lower_char t) = prefix_nocase y t.
Proof.
  induction y as [|a y IH]; intros [|b t]; try reflexivity.
  cbn [map prefix_nocase]. now rewrite !ascii_lower_char_idem, IH.
Qed.

Lemma contains_nocase_lower y t :
  contains_nocase (map ascii_lower_char y) (map ascii_lower_char t) = contains_nocase y t.
Proof.
  induction t as [|b t IH].
  - cbn [map contains_nocase]. change (@nil N) with (map ascii_lower_char []) at 1.
    now rewrite prefix_nocase_lower.
  - cbn [contains_nocase]. rewrite <- IH.
    change (ascii_lower_char b :: map ascii_lower_char t) with (map ascii_lower_char (b :: t)).
    cbn [contains_nocase map]. f_equal.
    change (ascii_lower_char b :: map ascii_lower_char t) with (map ascii_lower_char (b :: t)).
    apply prefix_nocase_lower.
Qed.

(** Lowering ASCII letters and what LIKE reads *)

Lemma ascii_lower_char_cases c :
  ascii_lower_char c = c \/ (65 <= c <= 90 /\ ascii_lower_char c = c + 32).
Proof.
  unfold ascii_lower_char.
  destruct (N.leb_spec 65 c), (N.leb_spec c 90); cbn [andb]; auto.
Qed.

Lemma ascii_lower_char_zero c : (ascii_lower_char c =? 0) = (c =? 0).
Proof.
  destruct (ascii_lower_char_cases c) as [->|[Hc ->]]; [reflexivity|].
  destruct (N.eqb_spec (c + 32) 0), (N.eqb_spec c 0); try reflexivity; lia.
Qed.

Lemma upto_nul_lower t : upto_nul (map ascii_lower_char t) = map ascii_lower_char (upto_nul t).
Proof.
  induction t as [|c t IH]; [reflexivity|].
  cbn [map upto_nul]. rewrite ascii_lower_char_zero.
  destruct (c =? 0); [reflexivity|]. cbn [map]. now rewrite IH.
Qed.

Lemma like_char_lower c : like_char (ascii_lower_char c) = ascii_lower_char (like_char c).
Proof.
  unfold like_char.
  destruct (ascii_lower_char_cases c) as [Hc|[Hc Hl]].
  - rewrite Hc. destruct ((c =? 0xFFFE) || (c =? 0xFFFF)) eqn:Hw; [|exact (eq_sym Hc)].
    reflexivity.
  - rewrite Hl.
    destruct (N.eqb_spec (c + 32) 0xFFFE); [lia|]. destruct (N.eqb_spec (c + 32) 0xFFFF); [lia|].
    destruct (N.eqb_spec c 0xFFFE); [lia|]. destruct (N.eqb_spec c 0xFFFF); [lia|].
    cbn [orb]. exact (eq_sym Hl).
Qed.

Lemma like_reads_lower t : like_reads (sql_lower t) = map ascii_lower_char (like_reads t).
Proof.
  unfold like_reads, sql_lower. rewrite upto_nul_lower, !map_map.
  apply map_ext. apply like_char_lower.
Qed.

Lemma upto_nul_id s : Forall (fun c => c <> 0) s -> upto_nul s = s.
Proof.
  induction 1 as [|c s Hc _ IH]; [reflexivity|].
  cbn [upto_nul]. destruct (N.eqb_spec c 0); [contradiction|]. now rewrite IH.
Qed.

Lemma utf8_length_app a b : (utf8_length (a ++ b) = utf8_length a + utf8_length b)%Z.
Proof.
  induction a as [|c a IH]; [reflexivity|].
  cbn [app]. unfold utf8_length in *. cbn [fold_right]. rewrite IH. lia.
Qed.

Lemma utf8_bytes_lower c : utf8_bytes (ascii_lower_char c) = utf8_bytes c.
Proof.
  destruct (ascii_lower_char_cases c) as [->|[Hc ->]]; [reflexivity|].
  unfold utf8_bytes.
  destruct (N.ltb_spec (c + 32) 0x80); [|lia]. destruct (N.ltb_spec c 0x80); [reflexivity|lia].
Qed.

Lemma utf8_length_lower s : utf8_length (map ascii_lower_char s) = utf8_length s.
Proof.
  induction s as [|c s IH]; [reflexivity|].
  cbn [map]. unfold utf8_length in *. cbn [fold_right]. now rewrite IH, utf8_bytes_lower.
Qed.

Lemma is_surrogate_lower c : is_surrogate (ascii_lower_char c) = is_surrogate c.
Proof.
  destruct (ascii_lower_char_cases c) as [->|[Hc ->]]; [reflexivity|].
  unfold is_surrogate.
  destruct (N.leb_spec 0xD800 (c + 32)), (N.leb_spec 0xD800 c); try reflexivity; lia.
Qed.

(** The pattern of a plain query: it is bound, it is not too long, and
    LIKE reads it as it stands. *)
Lemma plain_pattern y :
  plain_query y ->
  like_pattern y = [37] ++ map ascii_lower_char y ++ [37] /\
  utf8_encodable (like_pattern y) = true /\
  (SQLITE_MAX_LIKE_PATTERN_LENGTH <? utf8_length (like_pattern y))%Z = false /\
  like_reads (like_pattern y) = 37 :: map ascii_lower_char (like_reads y) ++ [37] /\
  no_wildcard (map ascii_lower_char (like_reads y)).
Proof.
  intros (Hchars & Hlower & Hlen). unfold like_pattern. rewrite Hlower.
  rewrite Forall_forall in Hchars.
  assert (Hnul : Forall (fun c => c <> 0) y).
  { apply Forall_forall. intros c Hc. now destruct (Hchars c Hc) as [(_ & _ & H) _]. }
  split; [reflexivity|]. split; [|split; [|split]].
  - unfold utf8_encodable. cbn [app forallb]. rewrite forallb_app. cbn [forallb].
    rewrite andb_true_r. change (negb (is_surrogate 37)) with true. cbn [andb].
    apply forallb_forall. intros c Hc. apply in_map_iff in Hc. destruct Hc as (x & <- & Hx).
    rewrite is_surrogate_lower. now destruct (Hchars x Hx) as [_ ->].
  - apply Z.ltb_ge. rewrite !utf8_length_app, utf8_length_lower.
    change (utf8_length [37]) with 1%Z. lia.
  - unfold like_reads. rewrite (upto_nul_id y Hnul).
    rewrite upto_nul_id.
    + cbn [app map]. rewrite map_app. cbn [map]. change (like_char 37) with 37.
      f_equal. f_equal. rewrite !map_map. apply map_ext. apply like_char_lower.
    + cbn [app]. constructor; [discriminate|]. apply Forall_app. split.
      * apply Forall_map. eapply Forall_impl; [|exact Hnul]. intros c Hc. cbn beta.
        intros H0. apply Hc. apply N.eqb_eq. rewrite <- ascii_lower_char_zero.
        now apply N.eqb_eq.
      * constructor; [discriminate|constructor].
  - unfold like_reads. rewrite (upto_nul_id y Hnul). unfold no_wildcard.
    apply Forall_map. apply Forall_map. apply Forall_forall. intros c Hc.
    destruct (Hchars c Hc) as [(H37 & H95 & _) _]. cbn beta.
    unfold like_char.
    destruct ((c =? 0xFFFE) || (c =? 0xFFFF)) eqn:Hw.
    + split; discriminate.
    + destruct (ascii_lower_char_cases c) as [->|[Hr ->]]; [now split|lia].
Qed.

(** Every ASCII text without wildcard and without U+0000, of at most
    49998 characters, is a plain query. *)
Lemma plain_query_ascii y :
  forallb is_ascii y = true ->
  Forall (fun c => c <> 37 /\ c <> 95 /\ c <> 0) y ->
  (Z.of_nat (List.length y) <= 49998)%Z ->
  plain_query y.
Proof.
  intros Hascii Hchars Hlen. rewrite forallb_forall in Hascii. split; [|split].
  - rewrite Forall_forall in *. intros c Hc. split; [now apply Hchars|].
    specialize (Hascii c Hc). unfold is_ascii in Hascii. apply N.ltb_lt in Hascii.
    unfold is_surrogate. destruct (N.leb_spec 0xD800 c); [lia|reflexivity].
  - unfold py_lower. replace (forallb is_ascii y) with true; [reflexivity|].
    symmetry. now apply forallb_forall.
  - unfold SQLITE_MAX_LIKE_PATTERN_LENGTH.
    assert (H : utf8_length y = Z.of_nat (List.length y)).
    { clear Hchars Hlen. induction y as [|c y IH]; [reflexivity|].
      cbn [utf8_length fold_right List.length]. fold (utf8_length y).
      rewrite IH by (intros x Hx; apply Hascii; now right).
      specialize (Hascii c (or_introl eq_refl)). unfold is_ascii in Hascii.
      unfold utf8_bytes. rewrite Hascii. lia. }
    lia.
Qed.

Lemma lower_like_occurs y column :
  plain_query y ->
  lower_like column (like_pattern y) =
  Ret (match column with Some t => occurs_nocase y t | None => false end).
Proof.
  intros Hy. destruct (plain_pattern y Hy) as (_ & _ & Hlen & Hreads & Hnw).
  unfold lower_like, like. rewrite Hlen. f_equal.
  destruct column as [t|]; [|reflexivity]. cbn [option_map].
  rewrite Hreads, like_reads_lower.
  change (37 :: map ascii_lower_char (like_reads y) ++ [37])
    with (37 :: (map ascii_lower_char (like_reads y)) ++ [37]).
  rewrite like_contains by assumption. unfold occurs_nocase. apply contains_nocase_lower.
Qed.

(** On texts without U+0000, U+FFFE and U+FFFF, LIKE reads what is
    there: [occurs_nocase] is the plain test for a substring, ASCII
    letters without regard to case. *)
Lemma like_reads_ordinary t :
  Forall (fun c => c <> 0 /\ c <> 0xFFFE /\ c <> 0xFFFF) t -> like_reads t = t.
Proof.
  intros H. unfold like_reads. rewrite upto_nul_id.
  - rewrite <- (map_id t) at 2. apply map_ext_in. intros c Hc.
    rewrite Forall_forall in H. destruct (H c Hc) as (_ & H1 & H2). unfold like_char.
    apply N.eqb_neq in H1, H2. now rewrite H1, H2.
  - eapply Forall_impl; [|exact H]. now intros c [Hc _].
Qed.

Lemma occurs_nocase_ordinary y t :
  Forall (fun c => c <> 0 /\ c <> 0xFFFE /\ c <> 0xFFFF) y ->
  Forall (fun c => c <> 0 /\ c <> 0xFFFE /\ c <> 0xFFFF) t ->
  occurs_nocase y t = contains_nocase y t.
Proof. intros Hy Ht. unfold occurs_nocase. now rewrite !like_reads_ordinary. Qed.

Lemma filter_unique_summary (d : db) place_id :
  unique_summaries d ->
  filter (fun v => (v_place_id v =? place_id)%Z) (vibe_summaries d) =
  match select_vibe d place_id with Some v => [v] | None => [] end.
Proof.
  unfold unique_summaries, select_vibe.
  induction (vibe_summaries d) as [|v vs IH]; intros Hnd; [reflexivity|].
  cbn [map] in Hnd. inversion Hnd as [|? ? Hnotin Hnd']; subst.
  cbn [filter find]. destruct (Z.eqb_spec (v_place_id v) place_id) as [Heq|Hne].
  - f_equal. rewrite <- Heq in *.
    apply filter_none. intros x Hx. apply Z.eqb_neq. intros Hxe.
    apply Hnotin. rewrite <- Hxe. now apply in_map.
  - now apply IH.
Qed.

(** With one summary row per place at most, the join has one row for each
    place, with the summary row of the place when it has one. *)
Lemma left_join_unique (d : db) :
  unique_summaries d -> left_join d = map (fun p => (p, select_vibe d (p_id p))) (places d).
Proof.
  intros Hu. unfold left_join.
  induction (places d) as [|p ps IH]; [reflexivity|].
  change (flat_map ?f (p :: ps)) with (f p ++ flat_map f ps).
  cbn beta. rewrite IH, filter_unique_summary by assumption.
  cbn [map]. destruct (select_vibe d (p_id p)) as [v|]; reflexivity.
Qed.

Lemma select_where_total {A} (cond : A -> pyres bool) (keep : A -> bool) rows :
  (forall row, In row rows -> cond row = Ret (keep row)) ->
  select_where cond rows = Ret (filter keep rows).
Proof.
  induction rows as [|row rows IH]; intros H; [reflexivity|].
  cbn [select_where filter]. rewrite (H row (or_introl eq_refl)).
  rewrite IH by (intros r Hr; apply H; now right). reflexivity.
Qed.

(** The part of the WHERE clause that the query adds. *)
Lemma query_where_mentions (d : db) y p :
  plain_query y -> y <> [] ->
  search_where (Some (like_pattern y)) None (p, select_vibe d (p_id p)) = Ret (mentions d y p).
Proof.
  intros Hy Hne. unfold search_where, mentions. cbn [sql_and].
  rewrite !lower_like_occurs by assumption.
  destruct (select_vibe d (p_id p)) as [v|]; cbn [option_map];
    destruct (occurs_nocase y (p_name p)), (occurs_nocase y (p_category p)); cbn [sql_or orb];
    try reflexivity.
  destruct (occurs_nocase y (v_summary v)), (occurs_nocase y (v_mood_tags v)); reflexivity.
Qed.

Lemma filter_all {A} (f : A -> bool) l : (forall x, f x = true) -> filter f l = l.
Proof. intros H. induction l as [|a l IH]; [reflexivity|]. cbn [filter]. now rewrite H, IH. Qed.

Lemma mentions_empty (d : db) p : mentions d [] p = true.
Proof. unfold mentions, occurs_nocase. cbn. now destruct (like_reads (p_name p)). Qed.

(** Claim C6, as amended.  When no two summary rows share a place and the
    query is plain (no LIKE wildcard, no U+0000, no surrogate; lowercasing
    touches its ASCII letters only; its pattern is not too long),
    [GET /search/?query=Y] succeeds and returns exactly the places that
    mention Y, ASCII letters without regard to case, in their name or
    category or in the summary, serialized mood_tags or serialized
    key_themes of their summary row; each of these texts is taken as LIKE
    reads it. *)
Theorem search_places_plain_query (d : db) (y : pystr) :
  unique_summaries d -> plain_query y ->
  search_places d y None = Ret (filter (mentions d y) (places d)).
Proof.
  intros Hu Hy. unfold search_places. cbn [bind_opt_str].
  rewrite (left_join_unique d Hu).
  destruct y as [|c y'] eqn:Ey.
  - cbn [truthy bind_opt_str].
    rewrite (select_where_total _ (fun _ => true)) by (intros [p v] _; reflexivity).
    f_equal. rewrite !filter_all by (intros; try apply mentions_empty; reflexivity).
    rewrite map_map. cbn [fst]. apply map_id.
  - rewrite <- Ey in *. assert (Hne : y <> []) by (rewrite Ey; discriminate).
    replace (truthy y) with true by (rewrite Ey; reflexivity).
    destruct (plain_pattern y Hy) as (_ & Henc & _).
    cbn [bind_opt_str]. unfold bind_str. rewrite Henc.
    rewrite (select_where_total _ (fun row => mentions d y (fst row))).
    + f_equal. induction (places d) as [|p ps IH]; [reflexivity|].
      cbn [map filter fst]. destruct (mentions d y p); cbn [map fst]; now rewrite IH.
    + intros row Hrow. apply in_map_iff in Hrow. destruct Hrow as (p & <- & _).
      cbn [fst]. now apply query_where_mentions.
Qed.

End SearchFacts.

(** *** The module namespace of [main.py] binds neither extractor name *)

Section MainGlobals.
Context {host : Host}.
Variable api_key : option pystr.
Variable acreate : chat_request -> Summarizer.api_outcome.

(** Claim C2, which the code does not meet.  With the namespace that
    [main.py] builds, whatever the URLs are, the task calls no extractor
    (the two names it looks up are unbound, and the [NameError] is
    swallowed), leaves the database as it was, asks for no summary and
    returns (0, False). *)
Theorem main_globals_never_scrape d place_id place_name google_maps_url tripadvisor_url :
  let run := scrape_and_store_reviews main_globals api_key acreate d place_id place_name
               google_maps_url tripadvisor_url in
  fst (fst run) = d /\
  snd run = Some (O, false) /\
  (forall name url, ~ In (ExtractorCall name url) (snd (fst run))) /\
  (forall request, ~ In (ChatCompletion request) (snd (fst run))).
Proof.
  unfold scrape_and_store_reviews, scrape_source.
  change (main_globals (py "scrape_google_maps_reviews")) with (@None extractor).
  change (main_globals (py "scrape_tripadvisor_reviews")) with (@None extractor).
  destruct google_maps_url as [g|]; [destruct (truthy g)|];
    (destruct tripadvisor_url as [t|]; [destruct (truthy t)|]);
    cbn [fst snd]; repeat split;
    try (intros name url Hin); try (intros request Hin);
    repeat (destruct Hin as [Hin|Hin]; [discriminate|]); try contradiction.
Qed.

End MainGlobals.

(** *** The worked example *)

(** Proves that the texts of a given list are Unicode text. *)
Ltac unicode_texts :=
  repeat first
    [ apply Forall_nil | apply Forall_cons | split | reflexivity
    | (unfold N.le; vm_compute; discriminate) ].

(** Proves that a given text is a plain query. *)
Ltac plain_queries :=
  repeat split;
  repeat first
    [ apply Forall_nil
    | apply Forall_cons; [repeat split; discriminate|]
    | (vm_compute; discriminate) ].

Section Examples.
#[local] Existing Instance example_host.

Lemma example_created_reachable : reachable example_created.
Proof.
  apply reachable_step with (s := initial); [apply reachable_initial|].
  apply (step_create_place_and_scrape (host := example_host) initial example_request).
Qed.

Lemma example_scraped_reachable : reachable example_scraped.
Proof.
  apply reachable_step with (s := example_created); [apply example_created_reachable|].
  apply (step_background (host := example_host) example_created example_task [] []
           example_globals (Some (py "sk-example")) example_acreate).
  reflexivity.
Qed.

Lemma place_ids_unique_witness :
  reachable example_scraped /\ unique_places (store example_scraped).
Proof.
  split; [apply example_scraped_reachable|].
  apply (place_ids_unique example_scraped). apply example_scraped_reachable.
Defined.

(** Against claim C8 as stated: [POST /places/] with empty strings stores
    a row whose name, city and category are empty. *)
Lemma empty_fields_are_stored :
  ~ (forall s : @state example_host, reachable s ->
       forall row, In row (places (store s)) ->
         p_name row <> [] /\ p_city row <> [] /\ p_category row <> []).
Proof.
  intros H.
  pose (blank := {| Place.id := None; Place.name := []; Place.city := [];
                    Place.category := []; Place.address := None;
                    Place.latitude := None; Place.longitude := None |} : @Place.t example_host).
  assert (Hreach : reachable {| store := fst (create_place (store initial) blank);
                                background := background initial |}).
  { apply reachable_step with (s := initial); [apply reachable_initial|].
    apply (step_create_place (host := example_host) initial blank). }
  destruct (H _ Hreach {| p_id := 1; p_name := []; p_city := []; p_category := [];
                          p_address := None; p_latitude := None; p_longitude := None |})
    as [Hname _].
  - left. reflexivity.
  - now apply Hname.
Qed.


(** Against claim C5 as stated.  The place of the example was created by
    [POST /scrape/place-and-reviews]; no place has id 999, and
    [GET /places/999/reviews] answers 200. *)
Lemma get_reviews_of_missing_place :
  reachable example_created /\
  select_place (store example_created) 999 = None /\
  get_reviews (store example_created) 999 = Ret [] /\
  status_code (get_reviews (store example_created) 999) = 200 /\
  status_code (get_reviews (store example_created) 999) <> 404.
Proof. split; [apply example_created_reachable|]. repeat split. discriminate. Qed.

(** The same state asked for the id 2^63: the four endpoints fail. *)
Lemma unbindable_id_is_a_server_error :
  select_place (store example_created) (2 ^ 63) = None /\
  status_code (get_place (store example_created) (2 ^ 63)) = 500 /\
  status_code (get_reviews (store example_created) (2 ^ 63)) = 500 /\
  status_code (get_vibe_summary (store example_created) (2 ^ 63)) = 500.
Proof. repeat split. Qed.

Lemma missing_place_not_found_witness :
  reachable example_scraped /\
  select_place (store example_scraped) 999 = None /\
  status_code (fst (scrape_reviews (store example_scraped)
                      {| ScrapeRequest.place_id := 999;
                         ScrapeRequest.place_name := py "Nowhere";
                         ScrapeRequest.google_maps_url := None;
                         ScrapeRequest.tripadvisor_url := None |})) = 404 /\
  get_reviews (store example_scraped) 999 = Ret [].
Proof.
  split; [apply example_scraped_reachable|]. split; [reflexivity|].
  pose proof (missing_place_not_found example_scraped
                {| ScrapeRequest.place_id := 999;
                   ScrapeRequest.place_name := py "Nowhere";
                   ScrapeRequest.google_maps_url := None;
                   ScrapeRequest.tripadvisor_url := None |}
                example_scraped_reachable eq_refl) as [_ H].
  change (fits_int64 (ScrapeRequest.place_id _)) with true in H. cbv iota in H.
  destruct H as (_ & _ & H404 & Hrev & _). split; [exact H404|exact Hrev].
Defined.

(** A query that is not ASCII: a hot beverage sign. *)
Lemma search_places_plain_query_witness :
  unique_summaries (store example_scraped) /\ plain_query [0x2615%N] /\
  plain_query (py "QUIET") /\
  search_places (store example_scraped) [0x2615%N] None =
    Ret (filter (mentions (store example_scraped) [0x2615%N]) (places (store example_scraped))) /\
  exists p, search_places (store example_scraped) [0x2615%N] None = Ret [p].
Proof.
  assert (Hu : unique_summaries (store example_scraped)).
  { vm_compute. repeat constructor. intros []. }
  assert (Hq : plain_query [0x2615%N]) by plain_queries.
  assert (Hq' : plain_query (py "QUIET")) by plain_queries.
  split; [exact Hu|]. split; [exact Hq|]. split; [exact Hq'|].
  split; [exact (search_places_plain_query (store example_scraped) [0x2615%N] Hu Hq)|].
  eexists. rewrite (search_places_plain_query (store example_scraped) [0x2615%N] Hu Hq).
  vm_compute. reflexivity.
Defined.

(** Against claim C6 as stated: the place of the example has no
    underscore in its name or category and no summary row, and the query
    [_] returns it. *)
Lemma wildcard_query_matches_anything :
  reachable example_created /\
  exists p,
    search_places (store example_created) (py "_") None = Ret [p] /\
    p_name p = py "Blue Cup" /\ p_category p = py "cafe" /\
    select_vibe (store example_created) (p_id p) = None /\
    mentions (store example_created) (py "_") p = false.
Proof.
  split; [apply example_created_reachable|].
  eexists. split; [vm_compute; reflexivity|]. repeat split.
Qed.

End Examples.
End ApiFacts.

(** ** Conformance of the library models

    Each expected value below is what CPython 3.11 (modules [json] and
    [sqlite3]) returns on the same input. *)

Module Conformance.
Import Json Store Scraper.

Section Cases.
#[local] Existing Instance example_host.

(** [json.loads('[1,]')] raises. *)
Example loads_trailing_comma : json_loads (py "[1,]") = Raise JSONDecodeError.
Proof. reflexivity. Qed.

(** [json.loads('01')] raises (extra data). *)
Example loads_leading_zero : json_loads (py "01") = Raise JSONDecodeError.
Proof. reflexivity. Qed.

(** [json.loads(' [ ] ')] is the empty list. *)
Example loads_spaces : json_loads (py " [ ] ") = Ret (JArr []).
Proof. reflexivity. Qed.

(** A duplicate key keeps its first position and its last value. *)
Example loads_duplicate_key :
  json_loads (py "{" ++ dq ++ py "a" ++ dq ++ py ":1," ++ dq ++ py "b" ++ dq ++ py ":3,"
              ++ dq ++ py "a" ++ dq ++ py ":2}")
  = Ret (JObj [(py "a", JNum (py "2")); (py "b", JNum (py "3"))]).
Proof. reflexivity. Qed.

(** A control character inside a string is rejected. *)
Example loads_control_character : json_loads (dq ++ [9%N] ++ dq) = Raise JSONDecodeError.
Proof. reflexivity. Qed.

(** A high surrogate escape followed by another escape that is not a low
    surrogate stays alone. *)
Example loads_lone_surrogate :
  json_loads (dq ++ py "\ud83dA" ++ dq) = Ret (JStr [0xD83D%N; 0x41%N]).
Proof. reflexivity. Qed.

(** A high surrogate escape followed by a malformed escape is an error. *)
Example loads_bad_second_escape :
  json_loads (dq ++ py "\ud83d\u12" ++ dq) = Raise JSONDecodeError.
Proof. reflexivity. Qed.

(** [json.loads('-Infinity')] is accepted. *)
Example loads_minus_infinity : json_loads (py "-Infinity") = Ret (JNum (py "-Infinity")).
Proof. reflexivity. Qed.

(** [json.dumps] escapes DEL, a Latin-1 letter and a code point above
    U+FFFF, and leaves the slash alone. *)
Example dumps_escapes :
  json_dumps (JStr [97%N; 127%N; 233%N; 0x1F600%N; 34%N; 92%N; 47%N; 10%N])
  = dq ++ py "a\u007f\u00e9\ud83d\ude00" ++ [92%N] ++ dq ++ py "\\/\n" ++ dq.
Proof. reflexivity. Qed.

(** [SELECT LOWER('Blue Cup') LIKE '%e_c%'] is 1. *)
Example like_underscore : lower_like (Some (py "Blue Cup")) (py "%e_c%") = Ret true.
Proof. reflexivity. Qed.

(** [SELECT LOWER('ABC') LIKE '%b%'] is 1, and NULL is not true. *)
Example like_nocase : lower_like (Some (py "ABC")) (py "%b%") = Ret true
                      /\ lower_like None (py "%") = Ret false.
Proof. split; reflexivity. Qed.

(** LIKE stops at U+0000, in the pattern and in the text: a pattern of a
    percent sign, U+0000, zzz and a percent sign matches abc; the pattern
    for cafe misses ab, U+0000, cafe and the pattern for ab finds it. *)
Example like_stops_at_nul :
  lower_like (Some (py "abc")) ([37; 0]%N ++ py "zzz%") = Ret true /\
  lower_like (Some (py "ab" ++ [0%N] ++ py "cafe")) (py "%cafe%") = Ret false /\
  lower_like (Some (py "ab" ++ [0%N] ++ py "cafe")) (py "%ab%") = Ret true.
Proof. repeat split. Qed.

(** LIKE takes U+FFFE and U+FFFF for U+FFFD, and compares other
    characters outside ASCII as they are: E with acute accent is not
    found by its small letter. *)
Example like_outside_ascii :
  lower_like (Some [0xFFFE%N]) [0xFFFF%N] = Ret true /\
  lower_like (Some ([97; 0xFFFD; 98]%N)) ([37; 0xFFFF; 37]%N) = Ret true /\
  lower_like (Some [0x1FFFE%N]) [0x1FFFF%N] = Ret false /\
  lower_like (Some (py "CAF" ++ [0xC9%N])) ([37; 0xE9; 37]%N) = Ret false /\
  lower_like (Some ([97; 0x2615; 98]%N)) ([37; 0x2615; 37]%N) = Ret true /\
  lower_like (Some ([97; 0x2615; 98]%N)) (py "a_b") = Ret true.
Proof. repeat split. Qed.

(** A pattern of 50000 bytes is accepted, one of 50001 bytes is not,
    whatever it is compared with. *)
Example like_pattern_length :
  lower_like (Some (py "a")) (repeat 97%N (Z.to_nat 50000)) = Ret false /\
  lower_like (Some (py "a")) (repeat 97%N (Z.to_nat 50001)) = Raise OperationalError /\
  lower_like (Some (py "a")) (repeat 0xE9%N (Z.to_nat 25000)) = Ret false /\
  lower_like (Some (py "a")) (repeat 0xE9%N (Z.to_nat 25001)) = Raise OperationalError /\
  lower_like None (repeat 97%N (Z.to_nat 50001)) = Raise OperationalError /\
  lower_like (Some (py "a")) ([97; 0]%N ++ repeat 98%N (Z.to_nat 60000)) = Raise OperationalError.
Proof. repeat split; vm_compute; reflexivity. Qed.

(** An [int] parameter is bound when it fits in 64 bits. *)
Example bind_int_range :
  bind_int (2 ^ 63 - 1) = Ret (2 ^ 63 - 1)%Z /\ bind_int (2 ^ 63) = Raise OverflowError /\
  bind_int (- 2 ^ 63) = Ret (- 2 ^ 63)%Z /\ bind_int (- 2 ^ 63 - 1) = Raise OverflowError.
Proof. repeat split. Qed.

(** ['cafes in in delhi in x'.split(' in ')] *)
Example split_overlapping :
  split (py " in ") (py "cafes in in delhi in x") = [py "cafes"; py "in delhi"; py "x"].
Proof. reflexivity. Qed.

End Cases.
End Conformance.

(** ** The service: creating, listing and reading places *)

Module PlaceFacts.
Import Json JsonFacts Store StoreFacts Api ApiFacts Notions.
Local Open Scope Z_scope.

Section Facts.
Context {host : Host}.

Lemma bind_opt_str_ret o o' : bind_opt_str o = Ret o' -> o' = o.
Proof.
  destruct o as [s|]; cbn [bind_opt_str].
  - destruct (bind_str s) as [s'|] eqn:Hs; [|discriminate].
    apply bind_str_ret in Hs. destruct Hs as [-> _]. now intros H; injection H as <-.
  - now intros H; injection H as <-.
Qed.

Lemma next_rowid_above ids seq x : In x ids -> x < next_rowid ids seq.
Proof. intros Hin. apply max_id_ge in Hin. unfold next_rowid. lia. Qed.

Lemma next_rowid_positive ids seq : 0 < next_rowid ids seq.
Proof. pose proof (max_id_nonneg ids). unfold next_rowid. lia. Qed.

(** The row that a successful insert appends. *)
Lemma insert_place_row d name city category address latitude longitude d' id :
  insert_place d name city category address latitude longitude = Ret (d', id) ->
  id = next_rowid (map p_id (places d)) (seq_places d) /\
  places d' = places d ++
              [{| p_id := id; p_name := name; p_city := city; p_category := category;
                  p_address := address; p_latitude := latitude; p_longitude := longitude |}] /\
  reviews d' = reviews d /\ vibe_summaries d' = vibe_summaries d.
Proof.
  unfold insert_place.
  destruct (bind_str name) as [name'|] eqn:Hn; [|discriminate].
  destruct (bind_str city) as [city'|] eqn:Hc; [|discriminate].
  destruct (bind_str category) as [category'|] eqn:Hk; [|discriminate].
  destruct (bind_opt_str address) as [address'|] eqn:Ha; [|discriminate].
  apply bind_str_ret in Hn, Hc, Hk. destruct Hn as [-> _], Hc as [-> _], Hk as [-> _].
  apply bind_opt_str_ret in Ha. subst address'.
  destruct (table_full _ _); [discriminate|].
  intros H; injection H as <- <-. cbn. repeat split.
Qed.

Lemma insert_place_refused d name city category address latitude longitude :
  encodable_fields name city category address = false ->
  insert_place d name city category address latitude longitude = Raise UnicodeEncodeError.
Proof.
  unfold encodable_fields, insert_place, bind_opt_str, bind_str.
  destruct (utf8_encodable name); [|reflexivity].
  destruct (utf8_encodable city); [|reflexivity].
  destruct (utf8_encodable category); [|reflexivity].
  destruct address as [a|]; [|discriminate].
  destruct (utf8_encodable a); [discriminate|reflexivity].
Qed.

Lemma find_app_some {A} (f : A -> bool) l l' x : find f l = Some x -> find f (l ++ l') = Some x.
Proof.
  induction l as [|a l IH]; [discriminate|]. cbn. destruct (f a); [auto|exact IH].
Qed.

Lemma find_app_none {A} (f : A -> bool) l l' : find f l = None -> find f (l ++ l') = find f l'.
Proof.
  induction l as [|a l IH]; [reflexivity|]. cbn. destruct (f a); [discriminate|exact IH].
Qed.

Lemma select_place_found d id :
  In id (map p_id (places d)) -> exists row, select_place d id = Some row.
Proof.
  intros Hin. destruct (select_place d id) as [row|] eqn:Hsel; [now exists row|].
  now apply select_place_none in Hsel.
Qed.

Lemma select_place_fresh d id : ~ In id (map p_id (places d)) -> select_place d id = None.
Proof.
  intros Hnot. destruct (select_place d id) as [row|] eqn:Hsel; [|reflexivity].
  now apply select_place_some in Hsel.
Qed.

(** Property X1.  A place that [POST /places/] has created is served by
    [GET /places/{id}] under the id of the response, a fresh one, with
    the name, city, category and address of the request; it is listed by
    [GET /places/] under its city and category; and every place that was
    served before is served as before. *)
Theorem created_place_is_served d place d' created :
  create_place d place = (d', Ret created) ->
  exists id row,
    Place.id created = Some id /\
    ~ In id (map p_id (places d)) /\
    get_place d' id = Ret row /\
    p_id row = id /\ p_name row = Place.name place /\ p_city row = Place.city place /\
    p_category row = Place.category place /\ p_address row = Place.address place /\
    In row (get_places d' (Some (Place.city place)) (Some (Place.category place))) /\
    forall q row', get_place d q = Ret row' -> get_place d' q = Ret row'.
Proof.
  unfold create_place.
  destruct (insert_place d (Place.name place) (Place.city place) (Place.category place)
              (Place.address place) (Place.latitude place) (Place.longitude place))
    as [[d1 id]|e] eqn:Hins; [|discriminate].
  intros H; injection H as <- <-.
  pose proof (insert_place_fits _ _ _ _ _ _ _ _ _ Hins) as [_ Hfits].
  apply insert_place_row in Hins. destruct Hins as (Hid & Hpl & _ & _).
  assert (Hfresh : ~ In id (map p_id (places d))) by (rewrite Hid; apply next_rowid_fresh).
  eexists id, _. split; [reflexivity|]. split; [exact Hfresh|].
  split; [|split; [|split; [|split; [|split; [|split; [|split]]]]]].
  - unfold get_place. rewrite (bind_int_fits _ Hfits). unfold select_place. rewrite Hpl.
    rewrite find_app_none by (apply (select_place_fresh d id Hfresh)).
    cbn [find p_id]. rewrite Z.eqb_refl. reflexivity.
  - reflexivity.
  - reflexivity.
  - reflexivity.
  - reflexivity.
  - reflexivity.
  - unfold get_places. apply filter_In. split.
    + rewrite Hpl. apply in_or_app. right. now left.
    + cbn [p_city p_category truthy_opt]. rewrite !pystr_eqb_refl.
      destruct (truthy (Place.city place)), (truthy (Place.category place)); reflexivity.
  - intros q row'. unfold get_place. destruct (bind_int q) as [q'|]; [|discriminate].
    unfold select_place. rewrite Hpl.
    destruct (find (fun p => p_id p =? q') (places d)) as [r|] eqn:Hq; [|discriminate].
    now rewrite (find_app_some _ _ _ _ Hq).
Qed.

(** Property X2.  A place whose name, city, category or address holds a surrogate
    code point cannot be stored: [POST /places/] fails with the encoding
    error (status 500), [POST /scrape/place-and-reviews] answers 500 with
    the error in its detail, and neither changes the database nor hands a
    task to the background. *)
Theorem unencodable_place_is_refused :
  (forall d (place : Place.t),
     encodable_fields (Place.name place) (Place.city place) (Place.category place)
                      (Place.address place) = false ->
     create_place d place = (d, Raise UnicodeEncodeError) /\
     status_code (snd (create_place d place)) = 500) /\
  (forall d (request : CreatePlaceAndScrapeRequest.t),
     encodable_fields (CreatePlaceAndScrapeRequest.name request)
                      (CreatePlaceAndScrapeRequest.city request)
                      (CreatePlaceAndScrapeRequest.category request)
                      (CreatePlaceAndScrapeRequest.address request) = false ->
     create_place_and_scrape_reviews d request =
       (d, Raise (HTTPException 500 (py "Error creating place: " ++ exn_text UnicodeEncodeError)),
        []) /\
     status_code (snd (fst (create_place_and_scrape_reviews d request))) = 500).
Proof.
  split.
  - intros d place H. unfold create_place.
    rewrite (insert_place_refused d _ _ _ _ (Place.latitude place) (Place.longitude place) H).
    split; reflexivity.
  - intros d request H. unfold create_place_and_scrape_reviews.
    rewrite (insert_place_refused d _ _ _ _ (CreatePlaceAndScrapeRequest.latitude request)
               (CreatePlaceAndScrapeRequest.longitude request) H).
    split; reflexivity.
Qed.

(** *** What every operation of the service keeps

    A relation between databases that is reflexive and transitive and
    holds across each of the four statements that write (the three
    INSERTs and the UPDATE) holds across every handler, every run of the
    background task and every sequence of steps. *)

Section Preserved.
Variable R : db -> db -> Prop.
Hypothesis R_refl : forall d, R d d.
Hypothesis R_trans : forall a b c, R a b -> R b c -> R a c.
Hypothesis R_insert_place :
  forall d name city category address latitude longitude d' id,
    insert_place d name city category address latitude longitude = Ret (d', id) -> R d d'.
Hypothesis R_insert_review :
  forall d place_id source content d',
    insert_review d place_id source content = Ret d' -> R d d'.
Hypothesis R_update_vibe :
  forall d place_id summary mood_tags key_themes d',
    update_vibe d place_id summary mood_tags key_themes = Ret d' -> R d d'.
Hypothesis R_insert_vibe :
  forall d place_id summary mood_tags key_themes d',
    insert_vibe d place_id summary mood_tags key_themes = Ret d' -> R d d'.

Lemma insert_all_related place_id source texts : forall d all_reviews,
  R d (fst (fst (insert_all d place_id source texts all_reviews))).
Proof.
  induction texts as [|t texts IH]; intros d all_reviews; cbn [insert_all].
  - apply R_refl.
  - destruct (insert_review d place_id source t) as [d1|e] eqn:Hins; [|apply R_refl].
    eapply R_trans; [eapply R_insert_review; exact Hins|apply IH].
Qed.

Lemma scrape_source_related G fname source url place_id d all_reviews out :
  R d (fst (fst (scrape_source G fname source url place_id (d, all_reviews, out)))).
Proof.
  unfold scrape_source.
  destruct url as [u|]; [|apply R_refl].
  destruct (truthy u); [|apply R_refl].
  destruct (G fname) as [f|]; [|apply R_refl].
  destruct (f u) as [texts|e]; [|apply R_refl].
  pose proof (insert_all_related place_id source texts d all_reviews) as H.
  destruct (insert_all d place_id source texts all_reviews) as [[d1 all1] [e|]]; exact H.
Qed.

Lemma upsert_related d place_id summary_data d' :
  upsert_vibe_summary d place_id summary_data = Ret d' -> R d d'.
Proof.
  unfold upsert_vibe_summary. destruct summary_data as [| | | | |fields]; try discriminate.
  destruct (bind_int place_id) as [place_id'|]; [|discriminate].
  destruct (select_vibe d place_id'); [apply R_update_vibe|apply R_insert_vibe].
Qed.

Lemma task_related G api_key acreate d t : R d (run_task G api_key acreate d t).
Proof.
  unfold run_task, scrape_and_store_reviews.
  pose proof (scrape_source_related G (py "scrape_google_maps_reviews") (py "Google Maps")
                (task_google_maps_url t) (task_place_id t) d [] []) as H1.
  destruct (scrape_source G (py "scrape_google_maps_reviews") (py "Google Maps")
              (task_google_maps_url t) (task_place_id t) (d, [], [])) as [[d1 all1] out1].
  pose proof (scrape_source_related G (py "scrape_tripadvisor_reviews") (py "TripAdvisor")
                (task_tripadvisor_url t) (task_place_id t) d1 all1 out1) as H2.
  destruct (scrape_source G (py "scrape_tripadvisor_reviews") (py "TripAdvisor")
              (task_tripadvisor_url t) (task_place_id t) (d1, all1, out1)) as [[d2 all2] out2].
  cbn [fst] in H1, H2.
  assert (H : R d d2) by (eapply R_trans; eassumption).
  destruct all2 as [|r0 rs]; [exact H|].
  destruct (summarize_and_upsert api_key acreate d2 (task_place_id t) (r0 :: rs))
    as [[d3 out3] r] eqn:Hsum.
  assert (H3 : R d2 d3).
  { destruct r as [[n b]|e].
    - apply summarize_and_upsert_spec in Hsum. destruct Hsum as [_ Hret].
      destruct (Hret n b eq_refl) as (_ & _ & summary_data & _ & Hup).
      now apply upsert_related in Hup.
    - apply summarize_and_upsert_spec in Hsum. destruct Hsum as [Hraise _].
      rewrite (Hraise e eq_refl). apply R_refl. }
  destruct r as [[n b]|e]; cbn [fst]; eapply R_trans; eassumption.
Qed.

Lemma step_related s s' : step s s' -> R (store s) (store s').
Proof.
  intros Hstep.
  destruct Hstep as [s place|s request|s request|s t before after G api_key acreate Hq];
    cbn [store].
  - unfold create_place.
    destruct (insert_place _ _ _ _ _ _ _) as [[d' id]|e] eqn:Hins; cbn [fst]; [|apply R_refl].
    eapply R_insert_place; exact Hins.
  - unfold create_place_and_scrape_reviews.
    destruct (insert_place _ _ _ _ _ _ _) as [[d' id]|e] eqn:Hins; cbn [fst]; [|apply R_refl].
    eapply R_insert_place; exact Hins.
  - apply R_refl.
  - apply task_related.
Qed.

Lemma later_related s s' : later s s' -> R (store s) (store s').
Proof.
  induction 1 as [s|s s' s'' _ IH Hstep]; [apply R_refl|].
  eapply R_trans; [exact IH|now apply step_related].
Qed.

End Preserved.

(** *** Row ids *)

Lemma increasing_from_in low ids x : increasing_from low ids -> In x ids -> low < x.
Proof.
  revert low. induction ids as [|y ids IH]; intros low H Hin; [contradiction|].
  destruct H as [Hy H]. destruct Hin as [->|Hin]; [exact Hy|].
  specialize (IH y H Hin). lia.
Qed.

Lemma increasing_from_snoc low ids x :
  increasing_from low ids -> low < x -> (forall y, In y ids -> y < x) ->
  increasing_from low (ids ++ [x]).
Proof.
  revert low. induction ids as [|y ids IH]; intros low H Hx Hall; cbn.
  - split; [exact Hx|exact I].
  - destruct H as [Hy H]. split; [exact Hy|].
    apply IH; [exact H|apply Hall; now left|intros z Hz; apply Hall; now right].
Qed.

Lemma increasing_next ids seq :
  increasing_from 0 ids -> increasing_from 0 (ids ++ [next_rowid ids seq]).
Proof.
  intros H. apply increasing_from_snoc; [exact H|apply next_rowid_positive|].
  intros y Hy. now apply next_rowid_above.
Qed.

Lemma increasing_from_NoDup low ids : increasing_from low ids -> NoDup ids.
Proof.
  revert low. induction ids as [|y ids IH]; intros low H; constructor.
  - destruct H as [_ H]. intros Hin. pose proof (increasing_from_in y ids y H Hin). lia.
  - destruct H as [_ H]. now apply (IH y).
Qed.

Lemma ids_in_order_kept s s' : step s s' -> ids_in_order (store s) -> ids_in_order (store s').
Proof.
  apply (step_related (fun d d' => ids_in_order d -> ids_in_order d')).
  - auto.
  - auto.
  - intros d name city category address latitude longitude d' id Hins (Hp & Hr & Hv).
    apply insert_place_row in Hins. destruct Hins as (-> & Hpl & Hrev & Hvs).
    unfold ids_in_order. rewrite Hpl, Hrev, Hvs, map_app. cbn [map p_id].
    split; [now apply increasing_next|now split].
  - intros d place_id source content d'.
    unfold insert_review. destruct (bind_int place_id); [|discriminate].
    destruct (bind_str source); [|discriminate]. destruct (bind_str content); [|discriminate].
    intros H (Hp & Hr & Hv). injection H as <-. unfold ids_in_order. cbn.
    rewrite map_app. cbn [map r_id].
    split; [exact Hp|]. split; [now apply increasing_next|exact Hv].
  - intros d place_id summary mood_tags key_themes d' H (Hp & Hr & Hv).
    apply update_vibe_ret in H. destruct H as (Hpl & Hrev & Hids & _).
    unfold ids_in_order. now rewrite Hpl, Hrev, Hids.
  - intros d place_id summary mood_tags key_themes d'.
    unfold insert_vibe. destruct (bind_int place_id); [|discriminate].
    destruct (bind_value summary) as [[text|]|]; try discriminate.
    destruct (existsb _ _); [discriminate|].
    intros H (Hp & Hr & Hv). injection H as <-. unfold ids_in_order. cbn.
    rewrite map_app. cbn [map v_id].
    split; [exact Hp|]. split; [exact Hr|now apply increasing_next].
Qed.

(** Property X3.  In every reachable state the row ids of each of the three
    tables are positive and strictly increasing in row order: an id is
    never handed out twice, also in [reviews] and [vibe_summaries], and a
    row created later has a larger id. *)
Theorem ids_are_assigned_in_order (s : state) :
  reachable s ->
  ids_in_order (store s) /\
  NoDup (map r_id (reviews (store s))) /\ NoDup (map v_id (vibe_summaries (store s))).
Proof.
  intros Hreach.
  assert (H : ids_in_order (store s)).
  { induction Hreach as [|s s' _ IH Hstep].
    - repeat split.
    - now apply (ids_in_order_kept s s'). }
  split; [exact H|]. destruct H as (_ & Hr & Hv).
  split; eapply increasing_from_NoDup; eassumption.
Qed.

(** *** What later states keep *)

Lemma grows_refl d : grows d d.
Proof. repeat split; exists []; now rewrite app_nil_r. Qed.

Lemma grows_trans a b c : grows a b -> grows b c -> grows a c.
Proof.
  intros ([p1 H1] & [r1 H2] & [v1 H3]) ([p2 H4] & [r2 H5] & [v2 H6]).
  split; [|split].
  - exists (p1 ++ p2). now rewrite H4, H1, app_assoc.
  - exists (r1 ++ r2). now rewrite H5, H2, app_assoc.
  - exists (v1 ++ v2). now rewrite H6, H3, app_assoc.
Qed.

Lemma later_grows s s' : later s s' -> grows (store s) (store s').
Proof.
  apply (later_related grows).
  - apply grows_refl.
  - apply grows_trans.
  - intros d name city category address latitude longitude d' id Hins.
    apply insert_place_row in Hins. destruct Hins as (_ & Hpl & Hrev & Hvs).
    split; [eexists; exact Hpl|]. split; exists []; rewrite app_nil_r; congruence.
  - intros d place_id source content d' Hins.
    apply insert_review_ret in Hins. destruct Hins as (row & Hrev & _ & _ & _ & Hpl & Hvs).
    split; [exists []; rewrite app_nil_r; congruence|].
    split; [eexists; exact Hrev|exists []; rewrite app_nil_r; congruence].
  - intros d place_id summary mood_tags key_themes d' H.
    apply update_vibe_ret in H. destruct H as (Hpl & Hrev & _ & Hpids).
    repeat split; exists []; rewrite app_nil_r; congruence.
  - intros d place_id summary mood_tags key_themes d' H.
    apply insert_vibe_ret in H. destruct H as (text & id & _ & Hrows & _ & Hpl & Hrev).
    split; [exists []; rewrite app_nil_r; congruence|].
    split; [exists []; rewrite app_nil_r; congruence|].
    eexists. rewrite Hrows, map_app. reflexivity.
Qed.

Lemma select_vibe_some_in d place_id :
  select_vibe d place_id <> None <-> In place_id (map v_place_id (vibe_summaries d)).
Proof.
  split.
  - intros Hsel. destruct (in_dec Z.eq_dec place_id (map v_place_id (vibe_summaries d)))
      as [Hin|Hnot]; [exact Hin|]. now apply select_vibe_none in Hnot.
  - intros Hin Hsel. apply in_map_iff in Hin. destruct Hin as (v & Hv & Hin).
    unfold select_vibe in Hsel. apply (find_none _ _ Hsel) in Hin.
    rewrite Hv, Z.eqb_refl in Hin. discriminate.
Qed.

Lemma json_loads_raises text e : json_loads text = Raise e -> e = JSONDecodeError.
Proof.
  unfold json_loads. destruct (scan_once _ _) as [v r| |].
  - destruct (skip_ws r); [discriminate|]. now intros H; injection H as <-.
  - now intros H; injection H as <-.
  - now intros H; injection H as <-.
Qed.

Lemma validate_str_list_raises v e : validate_str_list v = Raise e -> e = ValidationError.
Proof.
  unfold validate_str_list. destruct v as [| | | |items|]; try (now intros H; injection H as <-).
  destruct (validate_items items); [discriminate|]. now intros H; injection H as <-.
Qed.

(** [GET /places/{id}/vibe] answers 404 exactly when the id can be bound
    and the place has no summary row. *)
Lemma vibe_404_iff d place_id :
  status_code (get_vibe_summary d place_id) = 404 <->
  fits_int64 place_id = true /\ select_vibe d place_id = None.
Proof.
  unfold get_vibe_summary, bind_int.
  destruct (fits_int64 place_id); [|split; [discriminate|now intros [H _]]].
  destruct (select_vibe d place_id) as [row|]; [|now split].
  split; [|now intros [_ H]]. intros H. exfalso.
  destruct (json_loads (v_mood_tags row)) as [mood|e] eqn:H1;
    [|apply json_loads_raises in H1; subst e; discriminate].
  destruct (json_loads (v_key_themes row)) as [themes|e] eqn:H2;
    [|apply json_loads_raises in H2; subst e; discriminate].
  destruct (validate_str_list mood) as [m|e] eqn:H3;
    [|apply validate_str_list_raises in H3; subst e; discriminate].
  destruct (validate_str_list themes) as [k|e] eqn:H4;
    [|apply validate_str_list_raises in H4; subst e; discriminate].
  discriminate.
Qed.

(** Property X4.  No operation of the service deletes or rewrites a place or a
    review, or removes a summary: in every later state
    [GET /places/{id}] serves the same row, [GET /places/{id}/reviews]
    returns the same rows followed by the new ones, and
    [GET /places/{id}/vibe] does not go back to 404. *)
Theorem later_states_keep_what_was_served (s s' : state) :
  later s s' ->
  (forall id row, get_place (store s) id = Ret row -> get_place (store s') id = Ret row) /\
  (forall id rows, get_reviews (store s) id = Ret rows ->
     exists more, get_reviews (store s') id = Ret (rows ++ more)) /\
  (forall id, status_code (get_vibe_summary (store s') id) = 404 ->
     status_code (get_vibe_summary (store s) id) = 404).
Proof.
  intros Hlater. apply later_grows in Hlater.
  destruct Hlater as ([pm Hp] & [rm Hr] & [vm Hv]). split; [|split].
  - intros id row. unfold get_place. destruct (bind_int id) as [id'|]; [|discriminate].
    unfold select_place. rewrite Hp.
    destruct (find (fun p => p_id p =? id') (places (store s))) as [r|] eqn:Hq; [|discriminate].
    now rewrite (find_app_some _ _ _ _ Hq).
  - intros id rows H. unfold get_reviews in *.
    destruct (bind_int id) as [id'|]; [|discriminate]. injection H as <-.
    unfold select_reviews. rewrite Hr, filter_app. eexists. reflexivity.
  - intros id. rewrite !vibe_404_iff. intros [Hfits Hnone]. split; [exact Hfits|].
    destruct (select_vibe (store s) id) as [row|] eqn:Hsel; [|reflexivity].
    exfalso. assert (Hin : In id (map v_place_id (vibe_summaries (store s)))).
    { apply select_vibe_some_in. now rewrite Hsel. }
    assert (Hin' : In id (map v_place_id (vibe_summaries (store s')))).
    { rewrite Hv. apply in_or_app. now left. }
    apply select_vibe_some_in in Hin'. contradiction.
Qed.

End Facts.
End PlaceFacts.

(** ** The background task *)

Module TaskFacts.
Import Json JsonFacts Store StoreFacts Api ApiFacts Notions PlaceFacts.
Local Open Scope Z_scope.

Section Facts.
Context {host : Host}.
Variable G : globals.
Variable api_key : option pystr.
Variable acreate : chat_request -> Summarizer.api_outcome.

Lemma storable_prefix_encodable place_id texts :
  Forall (fun t => utf8_encodable t = true) (storable_prefix place_id texts).
Proof.
  induction texts as [|t texts IH]; cbn; [constructor|].
  destruct (fits_int64 place_id); [|constructor].
  destruct (utf8_encodable t) eqn:Ht; constructor; assumption.
Qed.

(** Nothing can be stored for a place id that cannot be bound. *)
Lemma storable_prefix_fits place_id texts :
  storable_prefix place_id texts <> [] -> fits_int64 place_id = true.
Proof.
  destruct texts as [|t texts]; cbn; [congruence|].
  destruct (fits_int64 place_id); [reflexivity|cbn; congruence].
Qed.

(** The insert loop stores the texts up to the first that cannot be
    bound, one row each, in order. *)
Lemma insert_all_rows place_id source : utf8_encodable source = true ->
  forall texts d all_reviews d' all_reviews' err,
  insert_all d place_id source texts all_reviews = (d', all_reviews', err) ->
  all_reviews' = all_reviews ++ storable_prefix place_id texts /\
  places d' = places d /\ vibe_summaries d' = vibe_summaries d /\
  (storable_prefix place_id texts = [] -> d' = d) /\
  exists rows,
    reviews d' = reviews d ++ rows /\
    Forall2 (scraped_row place_id source) rows (storable_prefix place_id texts).
Proof.
  intros Hsrc. induction texts as [|t texts IH]; intros d all_reviews d' all_reviews' err H.
  - cbn in H. injection H as <- <- <-. cbn. rewrite app_nil_r. repeat split.
    exists []. rewrite app_nil_r. split; [reflexivity|constructor].
  - cbn [insert_all] in H. unfold insert_review, bind_int, bind_str in H. rewrite Hsrc in H.
    cbn [storable_prefix].
    destruct (fits_int64 place_id) eqn:Hfits; cbn [andb];
      [|injection H as <- <- <-; rewrite app_nil_r; repeat split;
        exists []; rewrite app_nil_r; split; [reflexivity|constructor]].
    destruct (utf8_encodable t) eqn:Ht.
    + apply IH in H. destruct H as (Hall & Hpl & Hvs & _ & rows & Hrev & Hrows).
      cbn [places vibe_summaries reviews] in *.
      split; [rewrite Hall, <- app_assoc; reflexivity|].
      split; [exact Hpl|]. split; [exact Hvs|]. split; [discriminate|].
      eexists (_ :: rows). split; [rewrite Hrev, <- app_assoc; reflexivity|].
      constructor; [|exact Hrows]. repeat split.
    + injection H as <- <- <-. rewrite app_nil_r. repeat split.
      exists []. rewrite app_nil_r. split; [reflexivity|constructor].
Qed.

Lemma scrape_source_rows fname source url place_id d all_reviews out d' all_reviews' out' :
  utf8_encodable source = true ->
  scrape_source G fname source url place_id (d, all_reviews, out) = (d', all_reviews', out') ->
  all_reviews' = all_reviews ++ source_texts G fname place_id url /\
  places d' = places d /\ vibe_summaries d' = vibe_summaries d /\
  (source_texts G fname place_id url = [] -> d' = d) /\
  exists rows,
    reviews d' = reviews d ++ rows /\
    Forall2 (scraped_row place_id source) rows (source_texts G fname place_id url).
Proof.
  intros Hsrc.
  assert (Hsame : all_reviews = all_reviews ++ [] /\
                  places d = places d /\ vibe_summaries d = vibe_summaries d /\
                  (@nil pystr = [] -> d = d) /\
                  exists rows, reviews d = reviews d ++ rows /\
                               Forall2 (scraped_row place_id source) rows []).
  { rewrite app_nil_r. repeat split. exists []. rewrite app_nil_r. split; [reflexivity|constructor]. }
  unfold scrape_source, source_texts.
  destruct url as [u|]; [|intros H; injection H as <- <- <-; exact Hsame].
  destruct (truthy u); [|intros H; injection H as <- <- <-; exact Hsame].
  destruct (G fname) as [f|]; [|intros H; injection H as <- <- <-; exact Hsame].
  destruct (f u) as [texts|e]; [|intros H; injection H as <- <- <-; exact Hsame].
  destruct (insert_all d place_id source texts all_reviews) as [[d1 all1] err] eqn:Hall.
  apply (insert_all_rows place_id source Hsrc) in Hall.
  destruct err; intros H; injection H as <- <- <-; exact Hall.
Qed.

Lemma upsert_keeps_reviews d place_id summary_data d' :
  upsert_vibe_summary d place_id summary_data = Ret d' ->
  places d' = places d /\ reviews d' = reviews d.
Proof.
  intros H. apply upsert_vibe_summary_spec in H.
  destruct H as (fields & text & row_id & _ & _ & _ & Hpl & Hrev & _). now split.
Qed.

(** The two stages of the task: the scraping stage leaves [d2], which
    holds the collected reviews; the summary stage runs only when a review
    was collected. *)
Lemma task_stages d place_id place_name google_maps_url tripadvisor_url :
  exists d2 out2,
    scrape_and_store_reviews G api_key acreate d place_id place_name
                             google_maps_url tripadvisor_url =
      match google_texts G place_id google_maps_url ++ tripadvisor_texts G place_id tripadvisor_url with
      | [] => (d2, out2, Some (O, false))
      | texts =>
        match summarize_and_upsert api_key acreate d2 place_id texts with
        | (d3, out3, Ret r) => (d3, out2 ++ out3, Some r)
        | (d3, out3, Raise e) =>
          (d3,
           out2 ++ out3 ++
           [Print (py "Error in scrape_and_store_reviews for place ID " ++ str_of_Z place_id
                   ++ py ": " ++ exn_text e)],
           None)
        end
      end /\
    places d2 = places d /\ vibe_summaries d2 = vibe_summaries d /\
    (google_texts G place_id google_maps_url ++ tripadvisor_texts G place_id tripadvisor_url = [] -> d2 = d) /\
    exists rows_g rows_t,
      reviews d2 = reviews d ++ rows_g ++ rows_t /\
      Forall2 (scraped_row place_id (py "Google Maps")) rows_g (google_texts G place_id google_maps_url) /\
      Forall2 (scraped_row place_id (py "TripAdvisor")) rows_t
              (tripadvisor_texts G place_id tripadvisor_url).
Proof.
  unfold scrape_and_store_reviews, google_texts, tripadvisor_texts.
  destruct (scrape_source G (py "scrape_google_maps_reviews") (py "Google Maps")
              google_maps_url place_id (d, [], [])) as [[d1 all1] out1] eqn:H1.
  destruct (scrape_source G (py "scrape_tripadvisor_reviews") (py "TripAdvisor")
              tripadvisor_url place_id (d1, all1, out1)) as [[d2 all2] out2] eqn:H2.
  apply scrape_source_rows in H1; [|reflexivity].
  apply scrape_source_rows in H2; [|reflexivity].
  destruct H1 as (Ha1 & Hp1 & Hv1 & Hn1 & rows_g & Hr1 & Hf1).
  destruct H2 as (Ha2 & Hp2 & Hv2 & Hn2 & rows_t & Hr2 & Hf2).
  cbn [app] in Ha1. subst all1 all2.
  exists d2, out2. split; [|split; [congruence|split; [congruence|split]]].
  - destruct (source_texts G (py "scrape_google_maps_reviews") place_id google_maps_url ++
              source_texts G (py "scrape_tripadvisor_reviews") place_id tripadvisor_url);
      reflexivity.
  - intros Hnil. apply app_eq_nil in Hnil. destruct Hnil as [Hg Ht].
    rewrite (Hn2 Ht). exact (Hn1 Hg).
  - exists rows_g, rows_t. split; [rewrite Hr2, Hr1, <- app_assoc; reflexivity|]. now split.
Qed.

(** A run collects reviews only for a place id that can be bound. *)
Lemma collected_fits place_id google_maps_url tripadvisor_url :
  google_texts G place_id google_maps_url ++ tripadvisor_texts G place_id tripadvisor_url <> [] ->
  fits_int64 place_id = true.
Proof.
  intros Hne. destruct (fits_int64 place_id) eqn:Hfits; [reflexivity|]. exfalso. apply Hne.
  assert (Hnone : forall fname url, source_texts G fname place_id url = []).
  { intros fname url. unfold source_texts. destruct url as [u|]; [|reflexivity].
    destruct (truthy u); [|reflexivity]. destruct (G fname) as [f|]; [|reflexivity].
    destruct (f u) as [texts|]; [|reflexivity].
    destruct texts as [|t texts]; [reflexivity|]. cbn [storable_prefix]. now rewrite Hfits. }
  unfold google_texts, tripadvisor_texts. now rewrite !Hnone.
Qed.

Lemma select_reviews_app d d' rows place_id :
  reviews d' = reviews d ++ rows ->
  Forall (fun r => r_place_id r = place_id) rows ->
  select_reviews d' place_id = select_reviews d place_id ++ rows.
Proof.
  intros Hrev Hrows. unfold select_reviews. rewrite Hrev, filter_app. f_equal. clear Hrev.
  induction Hrows as [|r rows Hr _ IH]; [reflexivity|].
  cbn [filter]. rewrite Hr, Z.eqb_refl. now rewrite IH.
Qed.

Lemma select_reviews_other d d' rows place_id q :
  reviews d' = reviews d ++ rows ->
  Forall (fun r => r_place_id r = place_id) rows -> q <> place_id ->
  select_reviews d' q = select_reviews d q.
Proof.
  intros Hrev Hrows Hq. unfold select_reviews. rewrite Hrev, filter_app.
  rewrite (filter_none _ rows); [apply app_nil_r|].
  rewrite Forall_forall in Hrows. intros r Hr. rewrite (Hrows r Hr). now apply Z.eqb_neq.
Qed.

Lemma scraped_rows_place place_id source rows texts :
  Forall2 (scraped_row place_id source) rows texts ->
  Forall (fun r => r_place_id r = place_id) rows.
Proof. induction 1 as [|r t rows texts (H & _) _ IH]; constructor; assumption. Qed.

Lemma scraped_rows_label place_id source rows texts :
  Forall2 (scraped_row place_id source) rows texts ->
  map source_and_content rows = labelled source texts.
Proof.
  induction 1 as [|r t rows texts (_ & Hs & Hc & _) _ IH]; [reflexivity|].
  cbn [map labelled]. unfold source_and_content at 1. rewrite Hs, Hc. f_equal. exact IH.
Qed.

(** The reviews of the database that a run leaves. *)
Lemma task_reviews d place_id place_name google_maps_url tripadvisor_url :
  exists rows_g rows_t,
    reviews (fst (fst (scrape_and_store_reviews G api_key acreate d place_id place_name
                         google_maps_url tripadvisor_url)))
      = reviews d ++ rows_g ++ rows_t /\
    Forall2 (scraped_row place_id (py "Google Maps")) rows_g (google_texts G place_id google_maps_url) /\
    Forall2 (scraped_row place_id (py "TripAdvisor")) rows_t
            (tripadvisor_texts G place_id tripadvisor_url).
Proof.
  destruct (task_stages d place_id place_name google_maps_url tripadvisor_url)
    as (d2 & out2 & Hrun & _ & _ & _ & rows_g & rows_t & Hrev & Hg & Ht).
  exists rows_g, rows_t. split; [|now split]. rewrite Hrun.
  destruct (google_texts G place_id google_maps_url ++ tripadvisor_texts G place_id tripadvisor_url)
    as [|r0 rs]; [exact Hrev|].
  destruct (summarize_and_upsert api_key acreate d2 place_id (r0 :: rs))
    as [[d3 out3] [[n b]|e]] eqn:Hsum; cbn [fst];
    apply summarize_and_upsert_spec in Hsum; destruct Hsum as [Hraise Hret].
  - destruct (Hret n b eq_refl) as (_ & _ & summary_data & _ & Hup).
    apply upsert_keeps_reviews in Hup. destruct Hup as [_ ->]. exact Hrev.
  - rewrite (Hraise e eq_refl). exact Hrev.
Qed.

(** Property X5.  A run of the task appends to [reviews] one row for every text
    that the extractors returned, up to the first text of a source that
    cannot be stored: the Google Maps rows first, then the TripAdvisor
    rows, each with the place id of the task, its source, no rating and no
    date.  This holds whatever becomes of the summary, and
    [GET /places/{id}/reviews] then returns the earlier rows of the place
    followed by the new ones (for a place id that cannot be bound nothing
    is stored, and the request fails as before). *)
Theorem run_stores_collected_reviews d place_id place_name google_maps_url tripadvisor_url :
  let d' := fst (fst (scrape_and_store_reviews G api_key acreate d place_id place_name
                        google_maps_url tripadvisor_url)) in
  exists rows_g rows_t,
    reviews d' = reviews d ++ rows_g ++ rows_t /\
    Forall2 (scraped_row place_id (py "Google Maps")) rows_g (google_texts G place_id google_maps_url) /\
    Forall2 (scraped_row place_id (py "TripAdvisor")) rows_t
            (tripadvisor_texts G place_id tripadvisor_url) /\
    get_reviews d' place_id =
      match get_reviews d place_id with
      | Ret rows => Ret (rows ++ rows_g ++ rows_t)
      | Raise e => Raise e
      end.
Proof.
  intros d'.
  destruct (task_reviews d place_id place_name google_maps_url tripadvisor_url)
    as (rows_g & rows_t & Hrev & Hg & Ht).
  exists rows_g, rows_t. split; [exact Hrev|]. split; [exact Hg|]. split; [exact Ht|].
  unfold get_reviews. destruct (bind_int place_id) as [place_id'|] eqn:Hbind; [|reflexivity].
  apply bind_int_ret in Hbind. destruct Hbind as [-> _].
  f_equal. apply select_reviews_app; [exact Hrev|].
  apply Forall_app. split; eapply scraped_rows_place; eassumption.
Qed.

(** Property X6.  What the return value of the task tells.  The count is the
    number of reviews collected in this run.  [(0, False)] means that
    nothing was collected and the database is as it was; [(n, True)] that
    the place now has a summary row; no value ([None], the outer handler
    swallowed an exception of the summary stage) that reviews were
    collected and stored while [vibe_summaries] is as it was. *)
Theorem task_outcome d place_id place_name google_maps_url tripadvisor_url d' out ret :
  scrape_and_store_reviews G api_key acreate d place_id place_name
                           google_maps_url tripadvisor_url = (d', out, ret) ->
  let texts := google_texts G place_id google_maps_url ++ tripadvisor_texts G place_id tripadvisor_url in
  match ret with
  | Some (n, false) => n = O /\ texts = [] /\ d' = d
  | Some (n, true) =>
      n = List.length texts /\ texts <> [] /\
      status_code (get_vibe_summary d' place_id) <> 404
  | None =>
      texts <> [] /\ vibe_summaries d' = vibe_summaries d /\
      exists e,
        last out (Print []) =
        Print (py "Error in scrape_and_store_reviews for place ID " ++ str_of_Z place_id
               ++ py ": " ++ exn_text e)
  end.
Proof.
  intros Hrun texts. subst texts.
  destruct (task_stages d place_id place_name google_maps_url tripadvisor_url)
    as (d2 & out2 & Hrun' & _ & Hv & Hsame & _).
  rewrite Hrun in Hrun'. clear Hrun.
  destruct (google_texts G place_id google_maps_url ++ tripadvisor_texts G place_id tripadvisor_url)
    as [|r0 rs] eqn:Htexts.
  - injection Hrun' as -> -> ->. repeat split. now apply Hsame.
  - destruct (summarize_and_upsert api_key acreate d2 place_id (r0 :: rs))
      as [[d3 out3] [[n b]|e]] eqn:Hsum;
      apply summarize_and_upsert_spec in Hsum; destruct Hsum as [Hraise Hret];
      injection Hrun' as -> -> ->.
    + destruct (Hret n b eq_refl) as (-> & -> & summary_data & _ & Hup).
      split; [reflexivity|]. split; [discriminate|].
      apply upsert_vibe_summary_spec in Hup.
      destruct Hup as (fields & text & row_id & _ & _ & Hsel & _).
      rewrite vibe_404_iff, Hsel. intros [_ H]. discriminate.
    + split; [discriminate|]. rewrite (Hraise e eq_refl). split; [exact Hv|].
      exists e. rewrite app_assoc. apply last_last.
Qed.

Lemma find_map_same {A} (f : A -> bool) (g : A -> A) (l : list A) :
  (forall a, f (g a) = f a) -> (forall a, f a = true -> g a = a) ->
  find f (map g l) = find f l.
Proof.
  intros Hf Hg. induction l as [|a l IH]; [reflexivity|].
  cbn [map find]. rewrite Hf. destruct (f a) eqn:Ha; [now rewrite Hg|exact IH].
Qed.

Lemma find_snoc_other {A} (f : A -> bool) l x : f x = false -> find f (l ++ [x]) = find f l.
Proof.
  intros Hx. induction l as [|a l IH]; cbn; [now rewrite Hx|]. destruct (f a); [reflexivity|exact IH].
Qed.

(** The upsert for one place leaves the summary row of every other
    place as it was. *)
Lemma upsert_other d place_id summary_data d' q :
  upsert_vibe_summary d place_id summary_data = Ret d' -> q <> place_id ->
  select_vibe d' q = select_vibe d q.
Proof.
  unfold upsert_vibe_summary. destruct summary_data as [| | | | |fields]; try discriminate.
  destruct (bind_int place_id) as [place_id'|] eqn:Hbind; [|discriminate].
  apply bind_int_ret in Hbind. destruct Hbind as [-> Hfits].
  intros H Hq. destruct (select_vibe d place_id) as [row|].
  - unfold update_vibe in H. rewrite (bind_int_fits _ Hfits) in H.
    destruct (bind_value _) as [[text|]|]; [| |discriminate].
    + injection H as <-. unfold select_vibe. cbn [vibe_summaries with_vibe_summaries].
      apply find_map_same; intros v.
      * destruct (v_place_id v =? place_id); reflexivity.
      * intros Hv. apply Z.eqb_eq in Hv.
        destruct (Z.eqb_spec (v_place_id v) place_id); [congruence|reflexivity].
    + destruct (existsb _ _); [discriminate|]. now injection H as <-.
  - apply insert_vibe_ret in H. destruct H as (text & id & _ & Hrows & _).
    unfold select_vibe. rewrite Hrows. apply find_snoc_other. cbn. now apply Z.eqb_neq.
Qed.

(** Property X7.  A run of the task for one place changes nothing that the
    service serves about another place: its reviews and its summary are
    answered as before, and so are [GET /places/{id}] and [GET /places/]
    for every place. *)
Theorem run_leaves_other_places_alone d place_id place_name google_maps_url tripadvisor_url q :
  q <> place_id ->
  let d' := fst (fst (scrape_and_store_reviews G api_key acreate d place_id place_name
                        google_maps_url tripadvisor_url)) in
  get_reviews d' q = get_reviews d q /\
  get_vibe_summary d' q = get_vibe_summary d q /\
  (forall id, get_place d' id = get_place d id) /\
  (forall city category, get_places d' city category = get_places d city category).
Proof.
  intros Hq d'.
  destruct (task_reviews d place_id place_name google_maps_url tripadvisor_url)
    as (rows_g & rows_t & Hrev & Hg & Ht). fold d' in Hrev.
  assert (Hpv : places d' = places d /\ select_vibe d' q = select_vibe d q).
  { subst d'.
    destruct (task_stages d place_id place_name google_maps_url tripadvisor_url)
      as (d2 & out2 & Hrun & Hp & Hv & _). rewrite Hrun.
    assert (H2 : select_vibe d2 q = select_vibe d q) by (unfold select_vibe; now rewrite Hv).
    destruct (google_texts G place_id google_maps_url ++ tripadvisor_texts G place_id tripadvisor_url)
      as [|r0 rs]; [now split|].
    destruct (summarize_and_upsert api_key acreate d2 place_id (r0 :: rs))
      as [[d3 out3] [[n b]|e]] eqn:Hsum; cbn [fst];
      apply summarize_and_upsert_spec in Hsum; destruct Hsum as [Hraise Hret].
    - destruct (Hret n b eq_refl) as (_ & _ & summary_data & _ & Hup).
      pose proof (upsert_other _ _ _ _ q Hup Hq) as Hsel.
      apply upsert_keeps_reviews in Hup. destruct Hup as [Hp3 _].
      split; congruence.
    - rewrite (Hraise e eq_refl). now split. }
  destruct Hpv as [Hp Hv]. split; [|split; [|split]].
  - unfold get_reviews. destruct (bind_int q) as [q'|] eqn:Hbind; [|reflexivity].
    apply bind_int_ret in Hbind. destruct Hbind as [-> _].
    f_equal. apply (select_reviews_other d d' (rows_g ++ rows_t) place_id q).
    + exact Hrev.
    + apply Forall_app. split; eapply scraped_rows_place; eassumption.
    + exact Hq.
  - unfold get_vibe_summary. destruct (bind_int q) as [q'|] eqn:Hbind; [|reflexivity].
    apply bind_int_ret in Hbind. destruct Hbind as [-> _]. now rewrite Hv.
  - intros id. unfold get_place, select_place. now rewrite Hp.
  - intros city category. unfold get_places. now rewrite Hp.
Qed.

Lemma dict_get_absent k fields default : ~ In k (dict_keys fields) -> dict_get k fields default = default.
Proof.
  unfold dict_keys. induction fields as [|[k' v] fields IH]; intros Hnot; [reflexivity|].
  cbn [dict_get]. destruct (pystr_eqb k k') eqn:Hk.
  - apply pystr_eqb_eq in Hk. exfalso. apply Hnot. left. now rewrite Hk.
  - apply IH. intros Hin. apply Hnot. now right.
Qed.

(** The summary stage on an answer that decodes to an object with a
    summary that can be bound and two lists of strings. *)
Lemma stage_serves d place_id all_reviews fields text mood themes :
  json_loads (snd (Summarizer.summarize_reviews api_key acreate all_reviews)) = Ret (JObj fields) ->
  bind_value (dict_get (py "summary") fields (JStr (py "No summary provided."))) = Ret (Some text) ->
  dict_get (py "mood_tags") fields (JArr []) = JArr (map JStr mood) ->
  dict_get (py "key_themes") fields (JArr []) = JArr (map JStr themes) ->
  if fits_int64 place_id then
    exists d' out row_id,
      summarize_and_upsert api_key acreate d place_id all_reviews
        = (d', out, Ret (List.length all_reviews, true)) /\
      get_vibe_summary d' place_id =
        Ret {| VibeSummary.id := Some row_id;
               VibeSummary.place_id := place_id;
               VibeSummary.summary := text;
               VibeSummary.mood_tags := map reread mood;
               VibeSummary.key_themes := map reread themes |}
  else
    summarize_and_upsert api_key acreate d place_id all_reviews
      = (d, fst (Summarizer.summarize_reviews api_key acreate all_reviews), Raise OverflowError).
Proof.
  intros Hloads Hbind Hm Ht. destruct (fits_int64 place_id) eqn:Hfits.
  - destruct (upsert_succeeds d place_id fields text Hfits Hbind) as [d' Hup].
    destruct (get_after_upsert d place_id fields d' mood themes Hup Hm Ht)
      as (row_id & text' & Hbind' & _ & Hget).
    rewrite Hbind in Hbind'. injection Hbind' as <-.
    unfold summarize_and_upsert.
    destruct (Summarizer.summarize_reviews api_key acreate all_reviews) as [out0 summary_json].
    cbn [snd] in Hloads. rewrite Hloads, Hup.
    eexists d', _, row_id. split; [reflexivity|exact Hget].
  - unfold summarize_and_upsert.
    destruct (Summarizer.summarize_reviews api_key acreate all_reviews) as [out0 summary_json].
    cbn [snd fst] in *. rewrite Hloads. unfold upsert_vibe_summary.
    now rewrite (bind_int_overflow _ Hfits).
Qed.

(** Property X8.  Without an API key the summary stage stores the error payload
    of the summarizer as the summary of the place, in place of any earlier
    summary, and reports success: [GET /places/{id}/vibe] then answers 200
    with the text about the missing key and the tags [error] and
    [configuration].  (The place id is one that SQLite can bind, a 64-bit
    integer; with any other id the lookup of the row raises OverflowError
    and nothing is stored.) *)
Theorem missing_key_is_stored_as_summary d place_id all_reviews :
  truthy_opt api_key = false ->
  if fits_int64 place_id then
    exists d' out row_id,
      summarize_and_upsert api_key acreate d place_id all_reviews
        = (d', out, Ret (List.length all_reviews, true)) /\
      get_vibe_summary d' place_id =
        Ret {| VibeSummary.id := Some row_id;
               VibeSummary.place_id := place_id;
               VibeSummary.summary := py "AI Summarizer is not configured. Missing API Key.";
               VibeSummary.mood_tags := [py "error"];
               VibeSummary.key_themes := [py "configuration"] |}
  else
    summarize_and_upsert api_key acreate d place_id all_reviews
      = (d, fst (Summarizer.summarize_reviews api_key acreate all_reviews), Raise OverflowError).
Proof.
  intros Hkey.
  apply (stage_serves d place_id all_reviews
           [(py "summary", JStr (py "AI Summarizer is not configured. Missing API Key."));
            (py "mood_tags", JArr [JStr (py "error")]);
            (py "key_themes", JArr [JStr (py "configuration")])]
           (py "AI Summarizer is not configured. Missing API Key.")
           [py "error"] [py "configuration"]).
  - unfold Summarizer.summarize_reviews. rewrite Hkey. cbn [negb snd].
    rewrite SummarizerFacts.error_message_loads. reflexivity.
  - reflexivity.
  - reflexivity.
  - reflexivity.
Qed.

(** Property X9.  When the call of the LLM API raises, the summary stage stores
    the error payload as the summary of the place and reports success:
    the text of the exception (any text without surrogates) is served by
    [GET /places/{id}/vibe] after the fixed words, with the tags [error]
    and [api_failure].  (The place id is one that SQLite can bind; with
    any other id the lookup of the row raises OverflowError and nothing is
    stored.) *)
Theorem api_failure_is_stored_as_summary d place_id all_reviews e :
  truthy_opt api_key = true ->
  acreate (Summarizer.request_for all_reviews) = Summarizer.Failed e ->
  code_points e -> utf8_encodable e = true ->
  if fits_int64 place_id then
    exists d' out row_id,
      summarize_and_upsert api_key acreate d place_id all_reviews
        = (d', out, Ret (List.length all_reviews, true)) /\
      get_vibe_summary d' place_id =
        Ret {| VibeSummary.id := Some row_id;
               VibeSummary.place_id := place_id;
               VibeSummary.summary := py "An error occurred while generating the AI summary: " ++ e;
               VibeSummary.mood_tags := [py "error"];
               VibeSummary.key_themes := [py "api_failure"] |}
  else
    summarize_and_upsert api_key acreate d place_id all_reviews
      = (d, fst (Summarizer.summarize_reviews api_key acreate all_reviews), Raise OverflowError).
Proof.
  intros Hkey Hfail Hcp Henc.
  assert (Hstable : reread (py "An error occurred while generating the AI summary: " ++ e)
                    = py "An error occurred while generating the AI summary: " ++ e).
  { apply reread_id.
    - apply Forall_app. split; [|exact Hcp].
      apply Forall_forall. intros c Hc.
      repeat (destruct Hc as [<-|Hc]; [vm_compute; discriminate|]). contradiction.
    - apply encodable_no_split_pair. unfold utf8_encodable. rewrite forallb_app.
      apply andb_true_iff. split; [reflexivity|exact Henc]. }
  apply (stage_serves d place_id all_reviews
           [(py "summary", JStr (py "An error occurred while generating the AI summary: " ++ e));
            (py "mood_tags", JArr [JStr (py "error")]);
            (py "key_themes", JArr [JStr (py "api_failure")])]
           (py "An error occurred while generating the AI summary: " ++ e)
           [py "error"] [py "api_failure"]).
  - unfold Summarizer.summarize_reviews. rewrite Hkey, Hfail. cbn [negb snd].
    rewrite SummarizerFacts.error_message_loads, Hstable. reflexivity.
  - change (dict_get (py "summary") _ _)
      with (JStr (py "An error occurred while generating the AI summary: " ++ e)).
    cbn [bind_value]. unfold bind_str.
    assert (Hall : utf8_encodable (py "An error occurred while generating the AI summary: " ++ e)
                   = true).
    { unfold utf8_encodable. rewrite forallb_app.
      apply andb_true_iff. split; [reflexivity|exact Henc]. }
    rewrite Hall. reflexivity.
  - reflexivity.
  - reflexivity.
Qed.

(** Property X10.  When the answer of the summarizer is a JSON object that has
    none of the keys summary, mood_tags and key_themes (an object with
    other keys, or the empty object), the stage stores the defaults and
    reports success: [GET /places/{id}/vibe] serves the summary
    [No summary provided.] and two empty lists.  (The place id is one that
    SQLite can bind; with any other id the lookup of the row raises
    OverflowError and nothing is stored.) *)
Theorem missing_keys_get_defaults d place_id all_reviews fields :
  json_loads (snd (Summarizer.summarize_reviews api_key acreate all_reviews)) = Ret (JObj fields) ->
  (forall k, In k Summarizer.expected_keys -> ~ In k (dict_keys fields)) ->
  if fits_int64 place_id then
    exists d' out row_id,
      summarize_and_upsert api_key acreate d place_id all_reviews
        = (d', out, Ret (List.length all_reviews, true)) /\
      get_vibe_summary d' place_id =
        Ret {| VibeSummary.id := Some row_id;
               VibeSummary.place_id := place_id;
               VibeSummary.summary := py "No summary provided.";
               VibeSummary.mood_tags := [];
               VibeSummary.key_themes := [] |}
  else
    summarize_and_upsert api_key acreate d place_id all_reviews
      = (d, fst (Summarizer.summarize_reviews api_key acreate all_reviews), Raise OverflowError).
Proof.
  intros Hloads Hkeys.
  apply (stage_serves d place_id all_reviews fields (py "No summary provided.") [] []).
  - exact Hloads.
  - rewrite dict_get_absent by (apply Hkeys; left; reflexivity). reflexivity.
  - rewrite dict_get_absent by (apply Hkeys; right; left; reflexivity). reflexivity.
  - rewrite dict_get_absent by (apply Hkeys; right; right; left; reflexivity). reflexivity.
Qed.

End Facts.

(** Property X11.  The task does not look at what is already stored: a second
    run for the same place and URLs, against extractors that answer as
    before, appends the same reviews again (same sources and contents, in
    the same order), whatever the LLM answers in either run. *)
Theorem rerun_stores_the_reviews_again {host : Host} (G : globals)
    (api_key api_key' : option pystr)
    (acreate acreate' : chat_request -> Summarizer.api_outcome) (d : db) (t : task) :
  let d1 := run_task G api_key acreate d t in
  let d2 := run_task G api_key' acreate' d1 t in
  exists rows rows',
    reviews d1 = reviews d ++ rows /\
    reviews d2 = reviews d ++ rows ++ rows' /\
    map source_and_content rows' = map source_and_content rows.
Proof.
  intros d1 d2. unfold run_task in d1, d2.
  destruct (task_reviews G api_key acreate d (task_place_id t) (task_place_name t)
              (task_google_maps_url t) (task_tripadvisor_url t))
    as (g1 & t1 & Hrev1 & Hg1 & Ht1). fold d1 in Hrev1.
  destruct (task_reviews G api_key' acreate' d1 (task_place_id t) (task_place_name t)
              (task_google_maps_url t) (task_tripadvisor_url t))
    as (g2 & t2 & Hrev2 & Hg2 & Ht2). fold d2 in Hrev2.
  exists (g1 ++ t1), (g2 ++ t2). split; [exact Hrev1|].
  split; [rewrite Hrev2, Hrev1, <- app_assoc; reflexivity|].
  rewrite !map_app.
  rewrite (scraped_rows_label _ _ _ _ Hg1), (scraped_rows_label _ _ _ _ Ht1).
  rewrite (scraped_rows_label _ _ _ _ Hg2), (scraped_rows_label _ _ _ _ Ht2).
  reflexivity.
Qed.

End TaskFacts.

(** ** A whole cycle of the task: scraping, summary and upsert *)

Module CycleFacts.
Import Json JsonFacts Store StoreFacts Api ApiFacts Notions PlaceFacts TaskFacts.
Local Open Scope Z_scope.

Section Facts.
Context {host : Host}.

Section Cycle.
Variable G : globals.
Variable api_key : option pystr.
Variable acreate : chat_request -> Summarizer.api_outcome.

(** A run that returns [(n, True)] collected [n] reviews, at least one,
    got a JSON object for them from the summarizer, and upserted it into
    the database that the scraping stage left. *)
Lemma cycle_upserts d place_id place_name google_maps_url tripadvisor_url d' out n :
  scrape_and_store_reviews G api_key acreate d place_id place_name
                           google_maps_url tripadvisor_url = (d', out, Some (n, true)) ->
  let texts := google_texts G place_id google_maps_url
               ++ tripadvisor_texts G place_id tripadvisor_url in
  n = List.length texts /\ texts <> [] /\
  exists d2 fields,
    vibe_summaries d2 = vibe_summaries d /\
    json_loads (snd (Summarizer.summarize_reviews api_key acreate texts)) = Ret (JObj fields) /\
    upsert_vibe_summary d2 place_id (JObj fields) = Ret d'.
Proof.
  intros Hrun texts. subst texts.
  destruct (task_stages G api_key acreate d place_id place_name google_maps_url tripadvisor_url)
    as (d2 & out2 & Hrun' & _ & Hv & _). rewrite Hrun in Hrun'. clear Hrun.
  destruct (google_texts G place_id google_maps_url
            ++ tripadvisor_texts G place_id tripadvisor_url) as [|r0 rs]; [discriminate|].
  destruct (summarize_and_upsert api_key acreate d2 place_id (r0 :: rs))
    as [[d3 out3] [[n' b]|e]] eqn:Hsum; [|discriminate].
  apply summarize_and_upsert_spec in Hsum. destruct Hsum as [_ Hret].
  destruct (Hret n' b eq_refl) as (-> & -> & summary_data & Hloads & Hup).
  injection Hrun' as -> _ ->. split; [reflexivity|]. split; [discriminate|].
  pose proof (upsert_vibe_summary_spec _ _ _ _ Hup) as (fields & _ & _ & -> & _).
  exists d2, fields. now repeat split.
Qed.

(** Any other run leaves the summaries as they were. *)
Lemma cycle_without_upsert d place_id place_name google_maps_url tripadvisor_url d' out ret :
  scrape_and_store_reviews G api_key acreate d place_id place_name
                           google_maps_url tripadvisor_url = (d', out, ret) ->
  (forall n, ret <> Some (n, true)) -> vibe_summaries d' = vibe_summaries d.
Proof.
  intros Hrun Hret.
  destruct (task_stages G api_key acreate d place_id place_name google_maps_url tripadvisor_url)
    as (d2 & out2 & Hrun' & _ & Hv & _). rewrite Hrun in Hrun'. clear Hrun.
  destruct (google_texts G place_id google_maps_url
            ++ tripadvisor_texts G place_id tripadvisor_url) as [|r0 rs].
  - injection Hrun' as -> _ _. exact Hv.
  - destruct (summarize_and_upsert api_key acreate d2 place_id (r0 :: rs))
      as [[d3 out3] [[n' b]|e]] eqn:Hsum;
      apply summarize_and_upsert_spec in Hsum; destruct Hsum as [Hraise Hok];
      injection Hrun' as -> _ ->.
    + destruct (Hok n' b eq_refl) as (_ & -> & _). now destruct (Hret n').
    + rewrite (Hraise e eq_refl). exact Hv.
Qed.

(** The summary rows that a run leaves. *)
Lemma cycle_summaries d place_id place_name google_maps_url tripadvisor_url d' out ret :
  scrape_and_store_reviews G api_key acreate d place_id place_name
                           google_maps_url tripadvisor_url = (d', out, ret) ->
  match ret with
  | Some (_, true) =>
    exists fields text,
      json_loads (snd (Summarizer.summarize_reviews api_key acreate
                         (google_texts G place_id google_maps_url
                          ++ tripadvisor_texts G place_id tripadvisor_url))) = Ret (JObj fields) /\
      bind_value (dict_get (py "summary") fields (JStr (py "No summary provided.")))
        = Ret (Some text) /\
      (exists row_id, select_vibe d' place_id = Some (payload_row row_id place_id text fields)) /\
      match select_vibe d place_id with
      | Some _ => vibe_summaries d' = rewritten place_id text fields (vibe_summaries d)
      | None =>
        exists row_id,
          vibe_summaries d' = vibe_summaries d ++ [payload_row row_id place_id text fields]
      end
  | _ => vibe_summaries d' = vibe_summaries d
  end.
Proof.
  intros Hrun.
  destruct ret as [[n [|]]|];
    [|apply (cycle_without_upsert _ _ _ _ _ _ _ _ Hrun); intros n'; congruence
     |apply (cycle_without_upsert _ _ _ _ _ _ _ _ Hrun); intros n'; congruence].
  apply cycle_upserts in Hrun.
  destruct Hrun as (_ & _ & d2 & fields & Hv & Hloads & Hup).
  pose proof (upsert_vibe_summary_rows _ _ _ _ Hup) as (text & Hbind & Hrows).
  pose proof (upsert_vibe_summary_spec _ _ _ _ Hup)
    as (fields' & text' & row_id & Heq & Hbind' & Hsel & _).
  injection Heq as <-. rewrite Hbind in Hbind'. injection Hbind' as <-.
  exists fields, text. split; [exact Hloads|]. split; [exact Hbind|].
  split; [exists row_id; exact Hsel|].
  assert (Hsame : select_vibe d2 place_id = select_vibe d place_id)
    by (unfold select_vibe; now rewrite Hv).
  rewrite Hsame, Hv in Hrows. exact Hrows.
Qed.

End Cycle.

Lemma rewritten_ids place_id text fields rows :
  map v_id (rewritten place_id text fields rows) = map v_id rows /\
  map v_place_id (rewritten place_id text fields rows) = map v_place_id rows.
Proof.
  unfold rewritten. rewrite !map_map. split; apply map_ext; intros v;
    destruct (v_place_id v =? place_id); reflexivity.
Qed.

(** Claim C3.  In every reachable state [vibe_summaries] holds at most
    one row for a place id.  A run of scrape-and-store appends to
    [reviews] one row for each text it collected, after the rows that
    were there, which stay as they are.  A run that returns [(n, True)]
    got a JSON object from the summarizer and wrote it to the summary row
    of the place: where the place had a row, that row is rewritten where
    it stands, with its row id, and no row is added; where it had none,
    one row is appended.  Any other run leaves [vibe_summaries] as it
    was.  So of two runs for the same place that both return
    [(n, True)], the second rewrites the row that the first left. *)
Theorem one_summary_per_place_reviews_accumulate :
  (forall s : state, reachable s -> unique_summaries (store s)) /\
  (forall G api_key acreate d place_id place_name google_maps_url tripadvisor_url d' out ret,
     scrape_and_store_reviews G api_key acreate d place_id place_name
                              google_maps_url tripadvisor_url = (d', out, ret) ->
     (exists rows_g rows_t,
        reviews d' = reviews d ++ rows_g ++ rows_t /\
        Forall2 (scraped_row place_id (py "Google Maps")) rows_g
                (google_texts G place_id google_maps_url) /\
        Forall2 (scraped_row place_id (py "TripAdvisor")) rows_t
                (tripadvisor_texts G place_id tripadvisor_url)) /\
     (unique_summaries d -> unique_summaries d') /\
     match ret with
     | Some (_, true) =>
       exists fields text,
         json_loads (snd (Summarizer.summarize_reviews api_key acreate
                            (google_texts G place_id google_maps_url
                             ++ tripadvisor_texts G place_id tripadvisor_url)))
           = Ret (JObj fields) /\
         bind_value (dict_get (py "summary") fields (JStr (py "No summary provided.")))
           = Ret (Some text) /\
         match select_vibe d place_id with
         | Some _ => vibe_summaries d' = rewritten place_id text fields (vibe_summaries d)
         | None =>
           exists row_id,
             vibe_summaries d' = vibe_summaries d ++ [payload_row row_id place_id text fields]
         end
     | _ => vibe_summaries d' = vibe_summaries d
     end) /\
  (forall G api_key acreate api_key' acreate' d place_id place_name place_name'
          google_maps_url tripadvisor_url google_maps_url' tripadvisor_url' d1 out1 n1 d2 out2 n2,
     scrape_and_store_reviews G api_key acreate d place_id place_name
                              google_maps_url tripadvisor_url = (d1, out1, Some (n1, true)) ->
     scrape_and_store_reviews G api_key' acreate' d1 place_id place_name'
                              google_maps_url' tripadvisor_url' = (d2, out2, Some (n2, true)) ->
     exists fields text,
       json_loads (snd (Summarizer.summarize_reviews api_key' acreate'
                          (google_texts G place_id google_maps_url'
                           ++ tripadvisor_texts G place_id tripadvisor_url')))
         = Ret (JObj fields) /\
       bind_value (dict_get (py "summary") fields (JStr (py "No summary provided.")))
         = Ret (Some text) /\
       vibe_summaries d2 = rewritten place_id text fields (vibe_summaries d1) /\
       map v_id (vibe_summaries d2) = map v_id (vibe_summaries d1) /\
       map v_place_id (vibe_summaries d2) = map v_place_id (vibe_summaries d1)).
Proof.
  split; [intros s Hs; exact (proj2 (reachable_unique s Hs))|]. split.
  - intros G api_key acreate d place_id place_name google_maps_url tripadvisor_url d' out ret Hrun.
    split; [|split].
    + pose proof (task_reviews G api_key acreate d place_id place_name
                    google_maps_url tripadvisor_url) as H.
      rewrite Hrun in H. exact H.
    + pose proof (run_task_spec G api_key acreate d
                    {| task_place_id := place_id; task_place_name := place_name;
                       task_google_maps_url := google_maps_url;
                       task_tripadvisor_url := tripadvisor_url |}) as H.
      unfold run_task in H. cbn [task_place_id task_place_name task_google_maps_url
                                 task_tripadvisor_url] in H.
      rewrite Hrun in H. cbn [fst] in H. now destruct H as (_ & _ & H & _).
    + pose proof (cycle_summaries G api_key acreate _ _ _ _ _ _ _ _ Hrun) as H.
      destruct ret as [[n [|]]|]; [|exact H|exact H].
      destruct H as (fields & text & Hloads & Hbind & _ & Hrows).
      now exists fields, text.
  - intros G api_key acreate api_key' acreate' d place_id place_name place_name'
           google_maps_url tripadvisor_url google_maps_url' tripadvisor_url'
           d1 out1 n1 d2 out2 n2 Hrun1 Hrun2.
    pose proof (cycle_summaries G api_key acreate _ _ _ _ _ _ _ _ Hrun1)
      as (fields1 & text1 & _ & _ & [row_id Hsel] & _).
    pose proof (cycle_summaries G api_key' acreate' _ _ _ _ _ _ _ _ Hrun2)
      as (fields & text & Hloads & Hbind & _ & Hrows).
    rewrite Hsel in Hrows.
    exists fields, text. split; [exact Hloads|]. split; [exact Hbind|].
    split; [exact Hrows|]. rewrite Hrows. apply rewritten_ids.
Qed.

(** Claim C4, as amended.  [GET /places/{id}/vibe] for a place id
    without a row in [vibe_summaries] answers 404 when the id fits in 64
    bits, and 500 when it does not (the lookup cannot bind it).  After a
    cycle of
    scrape-and-store that returned [(n, True)], on a payload whose
    summary is a string and whose mood_tags and key_themes are lists of
    strings (Unicode text), the request returns that summary and those
    two lists, under the place id of the cycle. *)
Theorem vibe_not_found_or_upserted :
  (forall d place_id,
     select_vibe d place_id = None ->
     status_code (get_vibe_summary d place_id) = if fits_int64 place_id then 404 else 500) /\
  (forall G api_key acreate d place_id place_name google_maps_url tripadvisor_url d' out n
          fields summary mood themes,
     scrape_and_store_reviews G api_key acreate d place_id place_name
                              google_maps_url tripadvisor_url = (d', out, Some (n, true)) ->
     json_loads (snd (Summarizer.summarize_reviews api_key acreate
                        (google_texts G place_id google_maps_url
                         ++ tripadvisor_texts G place_id tripadvisor_url)))
       = Ret (JObj fields) ->
     dict_get (py "summary") fields (JStr (py "No summary provided.")) = JStr summary ->
     dict_get (py "mood_tags") fields (JArr []) = JArr (map JStr mood) ->
     dict_get (py "key_themes") fields (JArr []) = JArr (map JStr themes) ->
     Forall unicode_text mood -> Forall unicode_text themes ->
     (0 < n)%nat /\
     exists row_id,
       get_vibe_summary d' place_id =
         Ret {| VibeSummary.id := Some row_id;
                VibeSummary.place_id := place_id;
                VibeSummary.summary := summary;
                VibeSummary.mood_tags := mood;
                VibeSummary.key_themes := themes |}).
Proof.
  split.
  - intros d place_id Hsel. unfold get_vibe_summary, bind_int.
    destruct (fits_int64 place_id); [|reflexivity]. now rewrite Hsel.
  - intros G api_key acreate d place_id place_name google_maps_url tripadvisor_url d' out n
           fields summary mood themes Hrun Hloads Hs Hm Ht Hmood Hthemes.
    apply cycle_upserts in Hrun.
    destruct Hrun as (Hn & Hne & d2 & fields' & _ & Hloads' & Hup).
    rewrite Hloads in Hloads'. injection Hloads' as <-.
    split.
    { rewrite Hn. destruct (google_texts G place_id google_maps_url
                            ++ tripadvisor_texts G place_id tripadvisor_url);
        [contradiction|cbn; lia]. }
    destruct (get_after_upsert d2 place_id fields d' mood themes Hup Hm Ht)
      as (row_id & text & Hbind & _ & Hget).
    rewrite Hs in Hbind. cbn [bind_value] in Hbind.
    destruct (bind_str summary) as [s'|] eqn:Hb; [|discriminate].
    apply bind_str_ret in Hb. destruct Hb as [-> _]. injection Hbind as <-.
    exists row_id. rewrite Hget.
    now rewrite (unicode_texts_reread mood Hmood), (unicode_texts_reread themes Hthemes).
Qed.

End Facts.

Section Examples.
#[local] Existing Instance example_host.

(** The run of the example, and a second run for the same place against
    a model that answers with other keys. *)
Lemma one_summary_per_place_reviews_accumulate_witness :
  reachable example_scraped /\
  unique_summaries (store example_scraped) /\
  let run1 := scrape_and_store_reviews example_globals (Some (py "sk-example")) example_acreate
                (store example_created) 1 (py "Blue Cup")
                (Some (py "https://maps.example/blue-cup")) None in
  let d1 := fst (fst run1) in
  let run2 := scrape_and_store_reviews example_globals (Some (py "sk-example"))
                (fun _ => Summarizer.Reply Samples.other_keys_reply)
                d1 1 (py "Blue Cup") (Some (py "https://maps.example/blue-cup")) None in
  let d2 := fst (fst run2) in
  run1 = (d1, snd (fst run1), Some (2%nat, true)) /\
  run2 = (d2, snd (fst run2), Some (2%nat, true)) /\
  (exists rows, reviews d1 = reviews (store example_created) ++ rows ++ [] /\
                map r_content rows = [py "cozy and quiet"; py "loud but fun"]) /\
  (exists row_id, vibe_summaries d1 = [payload_row row_id 1 example_summary example_fields]) /\
  vibe_summaries d2 =
    rewritten 1 (py "No summary provided.") [(py "vibe", JStr (py "cozy"))] (vibe_summaries d1) /\
  List.length (vibe_summaries d2) = 1%nat.
Proof.
  split; [apply example_scraped_reachable|].
  split; [apply (proj1 one_summary_per_place_reviews_accumulate), example_scraped_reachable|].
  intros run1 d1 run2 d2.
  assert (H1 : run1 = (d1, snd (fst run1), Some (2%nat, true))) by (vm_compute; reflexivity).
  assert (H2 : run2 = (d2, snd (fst run2), Some (2%nat, true))) by (vm_compute; reflexivity).
  split; [exact H1|]. split; [exact H2|].
  destruct (proj1 (proj2 one_summary_per_place_reviews_accumulate) _ _ _ _ _ _ _ _ _ _ _ H1)
    as ((rows_g & rows_t & Hrev & Hg & Ht) & _ & fields & text & Hloads & Hbind & Hrows).
  destruct (proj2 (proj2 one_summary_per_place_reviews_accumulate) _ _ _ _ _ _ _ _ _ _ _ _ _
              _ _ _ _ _ _ H1 H2)
    as (fields2 & text2 & Hloads2 & Hbind2 & Hrows2 & Hids & _).
  split; [|split; [|split]].
  - inversion Ht; subst. exists rows_g. split; [exact Hrev|].
    clear - Hg. change (google_texts example_globals 1 (Some (py "https://maps.example/blue-cup")))
      with [py "cozy and quiet"; py "loud but fun"] in Hg.
    inversion Hg as [|r1 t1 l1 l1' (_ & _ & Hc1 & _) Hg1]; subst.
    inversion Hg1 as [|r2 t2 l2 l2' (_ & _ & Hc2 & _) Hg2]; subst.
    inversion Hg2; subst. cbn [map]. now rewrite Hc1, Hc2.
  - change (select_vibe (store example_created) 1) with (@None vibe_row) in Hrows.
    destruct Hrows as [row_id Hrows]. exists row_id. rewrite Hrows.
    assert (Hf : fields = example_fields).
    { clear - Hloads. vm_compute in Hloads. injection Hloads as <-. reflexivity. }
    assert (Htx : text = example_summary).
    { clear - Hbind Hf. subst fields. vm_compute in Hbind. injection Hbind as <-. reflexivity. }
    now rewrite Hf, Htx.
  - assert (Hf : fields2 = [(py "vibe", JStr (py "cozy"))]).
    { clear - Hloads2. vm_compute in Hloads2. injection Hloads2 as <-. reflexivity. }
    assert (Htx : text2 = py "No summary provided.").
    { clear - Hbind2 Hf. subst fields2. vm_compute in Hbind2. injection Hbind2 as <-.
      reflexivity. }
    rewrite Hrows2, Hf, Htx. reflexivity.
  - apply (f_equal (@List.length Z)) in Hids. rewrite !length_map in Hids.
    rewrite Hids. reflexivity.
Defined.

(** Against claim C4 as stated: no summary row has the place id 2^63,
    and [GET /places/9223372036854775808/vibe] answers 500, not 404. *)
Lemma unbound_id_is_not_a_404 :
  reachable example_created /\
  select_vibe (store example_created) (2 ^ 63) = None /\
  get_vibe_summary (store example_created) (2 ^ 63) = Raise OverflowError /\
  status_code (get_vibe_summary (store example_created) (2 ^ 63)) = 500 /\
  status_code (get_vibe_summary (store example_created) (2 ^ 63)) <> 404.
Proof. split; [apply example_created_reachable|]. repeat split. discriminate. Qed.

Lemma vibe_not_found_or_upserted_witness :
  status_code (get_vibe_summary (store example_created) 1) = 404 /\
  exists row_id,
    get_vibe_summary (store example_scraped) 1 =
      Ret {| VibeSummary.id := Some row_id;
             VibeSummary.place_id := 1;
             VibeSummary.summary := example_summary;
             VibeSummary.mood_tags := [py "cozy"; py "quiet"];
             VibeSummary.key_themes := [py "reading"] |}.
Proof.
  split.
  - apply (proj1 vibe_not_found_or_upserted (store example_created) 1). reflexivity.
  - refine (proj2 (proj2 vibe_not_found_or_upserted example_globals (Some (py "sk-example"))
                     example_acreate (store example_created) 1 (py "Blue Cup")
                     (Some (py "https://maps.example/blue-cup")) None
                     (store example_scraped) _ 2%nat example_fields example_summary
                     [py "cozy"; py "quiet"] [py "reading"] _ _ _ _ _ _ _)).
    + vm_compute. reflexivity.
    + vm_compute. reflexivity.
    + reflexivity.
    + reflexivity.
    + reflexivity.
    + unicode_texts.
    + unicode_texts.
Defined.

(** Why the payload matters.  With extractors that are bound and a model
    that answers mood_tags as one string, the cycle stores the payload
    and returns [(2, True)], and [GET /places/1/vibe] then fails on the
    stored row. *)
Example deviating_payload_is_stored :
  let run := scrape_and_store_reviews example_globals (Some (py "sk-example"))
               (fun _ => Summarizer.Reply deviating_reply)
               (store example_created) 1 (py "Blue Cup")
               (Some (py "https://maps.example/blue-cup")) None in
  snd run = Some (2%nat, true) /\
  get_vibe_summary (fst (fst run)) 1 = Raise ValidationError /\
  status_code (get_vibe_summary (fst (fst run)) 1) = 500.
Proof. repeat split. Qed.

End Examples.
End CycleFacts.

(** ** The search, with its city filter *)
Module CityFacts.
Import Json JsonFacts Store StoreFacts Api ApiFacts Notions.

Section Facts.
Context {host : Host}.

Lemma search_where_city (d : db) y city p :
  plain_query y ->
  match city with Some c => plain_query c | None => True end ->
  search_where (if truthy y then Some (like_pattern y) else None)
               (match city with
                | Some c => if truthy c then Some (like_pattern c) else None
                | None => None
                end)
               (p, select_vibe d (p_id p))
  = Ret (in_city city p && mentions d y p).
Proof.
  intros Hy Hc.
  assert (Hq : search_where (if truthy y then Some (like_pattern y) else None) None
                            (p, select_vibe d (p_id p)) = Ret (mentions d y p)).
  { destruct y as [|c0 y'] eqn:Ey.
    - cbn [truthy]. now rewrite mentions_empty.
    - rewrite <- Ey in *. replace (truthy y) with true by (rewrite Ey; reflexivity).
      apply query_where_mentions; [exact Hy|rewrite Ey; discriminate]. }
  unfold in_city. destruct city as [c|]; [|exact Hq].
  destruct (truthy c); [|exact Hq].
  change (search_where ?q (Some (like_pattern c)) (p, select_vibe d (p_id p)))
    with (sql_and (lower_like (Some (p_city p)) (like_pattern c))
                  (search_where q None (p, select_vibe d (p_id p)))).
  rewrite Hq, (lower_like_occurs c (Some (p_city p)) Hc).
  now destruct (occurs_nocase c (p_city p)).
Qed.

(** Property X12.  The search with a city.  When no two summary rows share a
    place and both the query and the city are plain (no LIKE wildcard, no
    U+0000, no surrogate; lowercasing touches ASCII letters only; the
    pattern is not too long), [GET /search/?query=Y&city=C] succeeds and
    returns exactly the places whose city contains C and that mention Y,
    ASCII letters compared without regard to case and each text taken as
    LIKE reads it; an empty city is not applied, and an empty query is
    mentioned by every place. *)
Theorem search_places_in_city (d : db) (y : pystr) (city : option pystr) :
  unique_summaries d -> plain_query y ->
  match city with Some c => plain_query c | None => True end ->
  search_places d y city
    = Ret (filter (fun p => in_city city p && mentions d y p) (places d)) /\
  search_places d [] (Some []) = Ret (places d).
Proof.
  intros Hu Hy Hc.
  assert (Hgen : forall y' city', plain_query y' ->
            match city' with Some c => plain_query c | None => True end ->
            search_places d y' city' =
            Ret (filter (fun p => in_city city' p && mentions d y' p) (places d))).
  { clear y city Hy Hc. intros y city Hy Hc. unfold search_places.
    assert (Hbc : bind_opt_str (match city with
                                | Some c => if truthy c then Some (like_pattern c) else None
                                | None => None
                                end)
                  = Ret (match city with
                         | Some c => if truthy c then Some (like_pattern c) else None
                         | None => None
                         end)).
    { destruct city as [c|]; [|reflexivity]. destruct (truthy c); [|reflexivity].
      destruct (plain_pattern c Hc) as (_ & Henc & _).
      cbn [bind_opt_str]. unfold bind_str. now rewrite Henc. }
    assert (Hbq : bind_opt_str (if truthy y then Some (like_pattern y) else None)
                  = Ret (if truthy y then Some (like_pattern y) else None)).
    { destruct (truthy y); [|reflexivity].
      destruct (plain_pattern y Hy) as (_ & Henc & _).
      cbn [bind_opt_str]. unfold bind_str. now rewrite Henc. }
    rewrite Hbc, Hbq, (left_join_unique d Hu).
    rewrite (select_where_total _ (fun row => in_city city (fst row) && mentions d y (fst row))).
    - f_equal. induction (places d) as [|p ps IH]; [reflexivity|].
      cbn [map filter fst]. destruct (in_city city p && mentions d y p); cbn [map fst];
        now rewrite IH.
    - intros row Hrow. apply in_map_iff in Hrow. destruct Hrow as (p & <- & _).
      cbn [fst]. now apply search_where_city. }
  assert (Hempty : plain_query []).
  { split; [constructor|]. split; [reflexivity|]. cbn. unfold SQLITE_MAX_LIKE_PATTERN_LENGTH.
    lia. }
  split; [now apply Hgen|].
  rewrite Hgen; [|exact Hempty|exact Hempty]. f_equal.
  apply filter_all. intros p. cbn [in_city truthy andb]. apply mentions_empty.
Qed.

End Facts.
End CityFacts.

(** ** The request of the summarizer *)

Module RequestFacts.
Import Json Summarizer Text.

Section Facts.
Context {host : Host}.

Lemma occurs_in_join sep r reviews : In r reviews -> occurs_in r (join sep reviews).
Proof.
  induction reviews as [|a reviews IH]; intros Hin; [contradiction|].
  destruct reviews as [|b reviews].
  - destruct Hin as [->|[]]. exists [], []. cbn [join app]. now rewrite app_nil_r.
  - change (join sep (a :: b :: reviews)) with (a ++ sep ++ join sep (b :: reviews)).
    destruct Hin as [->|Hin].
    + exists [], (sep ++ join sep (b :: reviews)). reflexivity.
    + destruct (IH Hin) as (before & after & ->).
      exists (a ++ sep ++ before), after. now rewrite <- !app_assoc.
Qed.

Lemma occurs_in_context r s before after : occurs_in r s -> occurs_in r (before ++ s ++ after).
Proof.
  intros (b & a & ->). exists (before ++ b), (a ++ after). now rewrite <- !app_assoc.
Qed.

Lemma prompt_shape text :
  prompt text = firstn 185 (prompt []) ++ text ++ skipn 185 (prompt []).
Proof. reflexivity. Qed.

(** Property X13.  With an API key, [summarize_reviews] calls the chat API
    exactly once, before anything else and whatever the reviews are (an
    empty list included), and the user message of the call holds every
    review text as it was given: nothing is cut, escaped or left out. *)
Theorem one_call_with_every_review api_key acreate reviews :
  truthy_opt api_key = true ->
  exists rest,
    fst (summarize_reviews api_key acreate reviews)
      = ChatCompletion (request_for reviews) :: rest /\
    Forall Scraper.is_print rest /\
    forall r, In r reviews -> occurs_in r (user_content (request_for reviews)).
Proof.
  intros Hkey.
  assert (Hocc : forall r, In r reviews -> occurs_in r (user_content (request_for reviews))).
  { intros r Hr. cbn [request_for user_content]. rewrite prompt_shape.
    apply occurs_in_context. now apply occurs_in_join. }
  unfold summarize_reviews. rewrite Hkey. cbn [negb].
  destruct (acreate (request_for reviews)) as [content|e]; cbn [fst].
  - exists []. split; [reflexivity|]. split; [constructor|exact Hocc].
  - eexists. split; [reflexivity|]. split; [|exact Hocc].
    constructor; [|constructor]. eexists. reflexivity.
Qed.

End Facts.
End RequestFacts.

(** ** The Reddit path of the scraper *)

Module RedditFacts.
Import Json Scraper Text Cli.

Lemma strip_prefix_app p : forall s r, strip_prefix p s = Some r -> s = p ++ r.
Proof.
  induction p as [|a p IH]; intros s r H.
  - now injection H as <-.
  - destruct s as [|b s]; [discriminate|]. cbn [strip_prefix] in H.
    destruct (N.eqb_spec a b) as [<-|]; [|discriminate]. cbn [app]. f_equal. now apply IH.
Qed.

Lemma find_from_ge sep : forall s i j, find_from sep s i = Some j -> (i <= j)%nat.
Proof.
  induction s as [|c s IH]; intros i j; cbn [find_from];
    destruct (strip_prefix sep _); try (intros H; injection H as <-; lia); try discriminate.
  intros H. apply IH in H. lia.
Qed.

Lemma find_from_shift sep : forall s i j k,
  find_from sep s i = Some (i + k)%nat -> find_from sep s j = Some (j + k)%nat.
Proof.
  induction s as [|c s IH]; intros i j k; cbn [find_from];
    destruct (strip_prefix sep _); try discriminate.
  - intros H. injection H as H. f_equal. lia.
  - intros H. injection H as H. f_equal. lia.
  - intros H. pose proof (find_from_ge _ _ _ _ H) as Hge.
    destruct k as [|k]; [lia|].
    replace (i + S k)%nat with (S i + k)%nat in H by lia.
    replace (j + S k)%nat with (S j + k)%nat by lia.
    exact (IH _ _ _ H).
Qed.

Lemma find_from_none_shift sep : forall s i j,
  find_from sep s i = None -> find_from sep s j = None.
Proof.
  induction s as [|c s IH]; intros i j; cbn [find_from];
    destruct (strip_prefix sep _); try discriminate; [reflexivity|].
  apply IH.
Qed.

(** The characters that a match leaves to be skipped. *)
Lemma split_go_skip sep x : forall s cur,
  split_go sep (List.length x) (x ++ s) cur = split_go sep 0 s cur.
Proof.
  induction x as [|c x IH]; intros s cur; [reflexivity|].
  cbn [app List.length split_go]. apply IH.
Qed.

(** Without an occurrence of the separator there is one part. *)
Lemma split_go_none sep : forall s cur i,
  find_from sep s i = None -> split_go sep 0 s cur = [rev cur ++ s].
Proof.
  induction s as [|c s IH]; intros cur i; cbn [find_from split_go].
  - intros _. now rewrite app_nil_r.
  - destruct (strip_prefix sep (c :: s)); [discriminate|].
    intros H. rewrite (IH (c :: cur) (S i) H). cbn [rev]. now rewrite <- app_assoc.
Qed.

(** The first part ends where the separator first occurs. *)
Lemma split_go_first sep : sep <> [] -> forall s cur i k,
  find_from sep s i = Some (i + k)%nat ->
  split_go sep 0 s cur =
  (rev cur ++ firstn k s) :: split_go sep 0 (skipn (k + List.length sep) s) [].
Proof.
  intros Hsep. induction s as [|c s IH]; intros cur i k; cbn [find_from].
  - destruct (strip_prefix sep []) as [r|] eqn:Hp; [|discriminate].
    apply strip_prefix_app in Hp. destruct sep; [contradiction|discriminate].
  - destruct (strip_prefix sep (c :: s)) as [r|] eqn:Hp.
    + intros H. injection H as H. assert (k = O) by lia. subst k.
      cbn [split_go firstn]. rewrite Hp, app_nil_r. f_equal.
      apply strip_prefix_app in Hp. destruct sep as [|a sep']; [contradiction|].
      cbn [app] in Hp. injection Hp as <- ->.
      cbn [List.length Nat.add skipn].
      replace (S (List.length sep') - 1)%nat with (List.length sep') by lia.
      rewrite split_go_skip. f_equal.
      clear. induction sep' as [|b sep' IH]; [reflexivity|exact IH].
    + intros H. pose proof (find_from_ge _ _ _ _ H) as Hge.
      destruct k as [|k]; [lia|].
      replace (i + S k)%nat with (S i + k)%nat in H by lia.
      cbn [split_go]. rewrite Hp. rewrite (IH (c :: cur) (S i) k H).
      cbn [rev firstn Nat.add skipn]. now rewrite <- app_assoc.
Qed.

(** [s.split(sep)] cuts at the first occurrence and goes on after it. *)
Lemma split_find sep s : sep <> [] ->
  split sep s =
  match str_find sep s with
  | None => [s]
  | Some i => firstn i s :: split sep (skipn (i + List.length sep) s)
  end.
Proof.
  intros Hsep. unfold split, str_find.
  destruct (find_from sep s 0) as [i|] eqn:Hf.
  - apply (split_go_first sep Hsep s [] 0 i Hf).
  - apply (split_go_none sep s [] 0 Hf).
Qed.

Section Facts.
Context {host : Host}.
Variable creds : credentials.
Variable reddit_search : pystr -> pystr -> Z -> pyres (list submission).
Lemma credentials_set :
  ~ credentials_unset creds ->
  pystr_eqb (REDDIT_CLIENT_ID creds) (py "YOUR_CLIENT_ID")
  || pystr_eqb (REDDIT_CLIENT_SECRET creds) (py "YOUR_CLIENT_SECRET") = false.
Proof.
  intros Hset. apply orb_false_iff. unfold credentials_unset in Hset.
  split.
  - destruct (pystr_eqb _ _) eqn:H; [|reflexivity]. apply pystr_eqb_eq in H. tauto.
  - destruct (pystr_eqb (REDDIT_CLIENT_SECRET creds) _) eqn:H; [|reflexivity].
    apply pystr_eqb_eq in H. tauto.
Qed.

Lemma classic_unset (c : credentials) : credentials_unset c \/ ~ credentials_unset c.
Proof.
  unfold credentials_unset.
  destruct (list_eq_dec N.eq_dec (REDDIT_CLIENT_ID c) (py "YOUR_CLIENT_ID")) as [H1|H1];
    [now left; left|].
  destruct (list_eq_dec N.eq_dec (REDDIT_CLIENT_SECRET c) (py "YOUR_CLIENT_SECRET")) as [H2|H2];
    [now left; right|].
  right. tauto.
Qed.

Lemma first_search_set query limit name :
  first_search creds reddit_search query limit name -> ~ credentials_unset creds.
Proof.
  intros H Hunset. unfold first_search in H.
  rewrite (ScraperFacts.scrape_reddit_unset creds reddit_search query limit Hunset) in H.
  discriminate.
Qed.

(** The name that line 194 to 197 compute from the query. *)
Lemma scrape_reddit_start query limit :
  ~ credentials_unset creds ->
  exists name rest,
    name = (if (1 <? List.length (split (py " in ") (py_lower query)))%nat
            then remove_spaces (last (split (py " in ") (py_lower query)) [])
            else py "all") /\
    fst (scrape_reddit creds reddit_search query limit) =
      [Print (py "INFO: Initializing Reddit API (PRAW)...");
       RedditInit (REDDIT_CLIENT_ID creds) (REDDIT_CLIENT_SECRET creds) (REDDIT_USER_AGENT creds);
       Print (py "INFO: Searching subreddit 'r/" ++ name ++ py "' for query: '"
              ++ query ++ py "'");
       RedditSearch name query limit] ++ rest /\
    match reddit_search name query limit with
    | Ret submissions =>
        rest = [] /\
        snd (scrape_reddit creds reddit_search query limit)
          = Returned (reddit_records query name submissions)
    | Raise e =>
        rest = [Print (py "ERROR: Could not access subreddit 'r/" ++ name
                       ++ py "'. It may not exist. Trying 'r/all'. Error: " ++ exn_text e);
                RedditSearch (py "all") query limit] /\
        snd (scrape_reddit creds reddit_search query limit) =
          match reddit_search (py "all") query limit with
          | Ret submissions => Returned (reddit_records query name submissions)
          | Raise e' => Uncaught e'
          end
    end.
Proof.
  intros Hset. unfold scrape_reddit. rewrite (credentials_set Hset).
  set (name := if (1 <? List.length (split (py " in ") (py_lower query)))%nat
               then remove_spaces (last (split (py " in ") (py_lower query)) [])
               else py "all").
  destruct (reddit_search name query limit) as [subs|e] eqn:H1.
  - exists name, []. split; [reflexivity|]. rewrite H1.
    split; [cbn [fst]; now rewrite app_nil_r|]. now split.
  - eexists name, _. split; [reflexivity|]. rewrite H1.
    destruct (reddit_search (py "all") query limit) as [subs|e']; cbn [fst snd];
      (split; [reflexivity|]); now split.
Qed.

Lemma first_search_unique query limit name name' :
  first_search creds reddit_search query limit name ->
  first_search creds reddit_search query limit name' -> name = name'.
Proof. unfold first_search. intros -> H. now injection H. Qed.

(** Property X14.  The subreddit that [scrape_reddit] searches first is guessed
    from the lowercased query: [all] when it has no [ in ], and, when it
    has exactly one, the text after it with the spaces removed. *)
Theorem subreddit_is_guessed_from_query query limit :
  ~ credentials_unset creds ->
  match str_find (py " in ") (py_lower query) with
  | None => first_search creds reddit_search query limit (py "all")
  | Some i =>
      str_find (py " in ") (skipn (i + 4) (py_lower query)) = None ->
      first_search creds reddit_search query limit
                   (remove_spaces (skipn (i + 4) (py_lower query)))
  end.
Proof.
  intros Hset.
  destruct (scrape_reddit_start query limit Hset) as (name & rest & Hname & Htrace & _).
  unfold first_search. rewrite Htrace. cbn [app nth_error]. subst name.
  rewrite (split_find (py " in ") (py_lower query)) by discriminate.
  destruct (str_find (py " in ") (py_lower query)) as [i|]; [|reflexivity].
  intros Hnone. change (List.length (py " in ")) with 4%nat.
  rewrite (split_find (py " in ") (skipn (i + 4) (py_lower query))) by discriminate.
  rewrite Hnone. reflexivity.
Qed.

Lemma keep_comment_true c :
  keep_comment c = true ->
  is_Comment c = true /\ (50 < List.length (body c))%nat /\ exists a, author c = Some a.
Proof.
  unfold keep_comment. intros H.
  apply andb_true_iff in H. destruct H as [H H4].
  apply andb_true_iff in H. destruct H as [H H3].
  apply andb_true_iff in H. destruct H as [H1 H2].
  split; [exact H1|]. split; [now apply Nat.ltb_lt|].
  destruct (author c) as [a|]; [now exists a|discriminate].
Qed.

Lemma flat_map_length_le {A B} (f : A -> list B) k l :
  (forall x, List.length (f x) <= k)%nat -> (List.length (flat_map f l) <= k * List.length l)%nat.
Proof.
  intros Hf. induction l as [|a l IH]; cbn [flat_map List.length]; [lia|].
  rewrite length_app. specialize (Hf a). lia.
Qed.

Lemma reddit_records_spec query name submissions :
  (List.length (reddit_records query name submissions) <= 20 * List.length submissions)%nat /\
  Forall (fun r =>
    exists sub c,
      In sub submissions /\ In c (firstn 20 (comments sub)) /\
      is_Comment c = true /\ (50 < List.length (body c))%nat /\
      Cli.record_of query name sub c r)
    (reddit_records query name submissions).
Proof.
  unfold reddit_records. split.
  - rewrite Nat.mul_comm. rewrite Nat.mul_comm. apply flat_map_length_le. intros sub.
    etransitivity; [apply (flat_map_length_le _ 1)|].
    + intros c. destruct (keep_comment c); cbn; lia.
    + rewrite length_firstn. lia.
  - apply Forall_forall. intros r Hr.
    apply in_flat_map in Hr. destruct Hr as (sub & Hsub & Hr).
    apply in_flat_map in Hr. destruct Hr as (c & Hc & Hr).
    destruct (keep_comment c) eqn:Hkeep; [|contradiction].
    destruct Hr as [<-|[]].
    apply keep_comment_true in Hkeep. destruct Hkeep as (H1 & H2 & a & Ha).
    exists sub, c. split; [exact Hsub|]. split; [exact Hc|]. split; [exact H1|].
    split; [exact H2|]. unfold Cli.record_of. cbn. rewrite Ha. repeat split.
Qed.

(** Property X15.  What [scrape_reddit] returns.  Every record comes from one of
    the first twenty comments of a submission that the search returned: a
    real comment with an author and a body of more than fifty characters;
    the body is the review text, the title of the submission the location
    name, and the address names the subreddit that was guessed from the
    query, also when the submissions come from the fallback search of
    [r/all].  There are at most twenty times as many records as
    submissions. *)
Theorem reddit_records_come_from_comments query limit trace records :
  scrape_reddit creds reddit_search query limit = (trace, Returned records) ->
  exists name submissions,
    first_search creds reddit_search query limit name /\
    (reddit_search name query limit = Ret submissions \/
     (exists e, reddit_search name query limit = Raise e) /\
     reddit_search (py "all") query limit = Ret submissions) /\
    (List.length records <= 20 * List.length submissions)%nat /\
    Forall (fun r =>
      exists sub c,
        In sub submissions /\ In c (firstn 20 (comments sub)) /\
        is_Comment c = true /\ (50 < List.length (body c))%nat /\
        Cli.record_of query name sub c r)
      records.
Proof.
  intros Hrun.
  assert (Hset : ~ credentials_unset creds).
  { intros Hunset.
    rewrite (ScraperFacts.scrape_reddit_unset creds reddit_search query limit Hunset) in Hrun.
    discriminate. }
  destruct (scrape_reddit_start query limit Hset) as (name & rest & _ & Htrace & Hres).
  rewrite Hrun in Htrace, Hres. cbn [fst snd] in Htrace, Hres.
  assert (Hfirst : first_search creds reddit_search query limit name).
  { unfold first_search. rewrite Hrun. cbn [fst]. rewrite Htrace. reflexivity. }
  destruct (reddit_search name query limit) as [subs|e] eqn:H1.
  - destruct Hres as [_ Hres]. injection Hres as ->.
    exists name, subs. split; [exact Hfirst|]. split; [now left|].
    apply reddit_records_spec.
  - destruct Hres as [_ Hres].
    destruct (reddit_search (py "all") query limit) as [subs|e'] eqn:H2; [|discriminate].
    injection Hres as ->.
    exists name, subs. split; [exact Hfirst|]. split; [right; split; [now exists e|reflexivity]|].
    apply reddit_records_spec.
Qed.

Variable browser_scrape : pystr -> Z -> pyres (list record).

Lemma scrape_reddit_no_csv query limit f n :
  ~ In (WriteCsv f n) (fst (scrape_reddit creds reddit_search query limit)).
Proof.
  destruct (classic_unset creds) as [Hunset|Hset].
  - rewrite (ScraperFacts.scrape_reddit_unset creds reddit_search query limit Hunset).
    intros [H|[]]. discriminate.
  - destruct (scrape_reddit_start query limit Hset) as (name & rest & _ & -> & Hres).
    intros Hin. apply in_app_or in Hin.
    destruct Hin as [Hin|Hin].
    + repeat (destruct Hin as [Hin|Hin]; [discriminate|]). contradiction.
    + destruct (reddit_search name query limit); destruct Hres as [-> _].
      * contradiction.
      * repeat (destruct Hin as [Hin|Hin]; [discriminate|]). contradiction.
Qed.

(** The effects of [main] and the call it makes. *)
Lemma main_scrape p query limit output :
  exists banner,
    Forall is_print banner /\
    main creds reddit_search browser_scrape p query limit output =
    match snd (scrape creds reddit_search browser_scrape p query limit) with
    | Returned results =>
        (banner ++ fst (scrape creds reddit_search browser_scrape p query limit)
                ++ save_to_csv results output, 0%Z)
    | Exited status =>
        (banner ++ fst (scrape creds reddit_search browser_scrape p query limit), status)
    | Uncaught _ =>
        (banner ++ fst (scrape creds reddit_search browser_scrape p query limit), 1%Z)
    end.
Proof.
  eexists. split; [|unfold main, scrape;
    destruct (match p with
              | gmaps => scrape_gmaps browser_scrape query limit
              | reddit => scrape_reddit creds reddit_search query limit
              end) as [work [results|status|e]]; reflexivity].
  repeat (apply Forall_cons; [eexists; reflexivity|]). apply Forall_nil.
Qed.



Lemma csv_writes_none trace :
  (forall f n, ~ In (WriteCsv f n) trace) -> csv_writes trace = [].
Proof.
  induction trace as [|ev trace IH]; intros H; [reflexivity|].
  cbn [csv_writes flat_map]. fold (csv_writes trace).
  rewrite IH by (intros f n Hin; apply (H f n); now right).
  destruct ev; try reflexivity. exfalso. apply (H filename records). now left.
Qed.

Lemma csv_writes_prints banner : Forall is_print banner -> csv_writes banner = [].
Proof.
  intros Hb. apply csv_writes_none. intros f n Hin.
  rewrite Forall_forall in Hb. destruct (Hb _ Hin) as [msg H]. discriminate.
Qed.

Lemma csv_writes_app a b : csv_writes (a ++ b) = csv_writes a ++ csv_writes b.
Proof. unfold csv_writes. apply flat_map_app. Qed.

(** Property X16.  When the search of the guessed subreddit raises,
    [scrape_reddit] prints the error and searches [r/all] with the same
    query and limit.  If that search answers, its submissions are turned
    into records (under the guessed name); if it raises too, the exception
    leaves [scrape_reddit]: the command line ends with status 1 and writes
    no file. *)
Theorem reddit_falls_back_to_all query limit output name e :
  first_search creds reddit_search query limit name ->
  reddit_search name query limit = Raise e ->
  nth_error (fst (scrape_reddit creds reddit_search query limit)) 5
    = Some (RedditSearch (py "all") query limit) /\
  match reddit_search (py "all") query limit with
  | Ret submissions =>
      snd (scrape_reddit creds reddit_search query limit)
        = Returned (reddit_records query name submissions)
  | Raise e' =>
      snd (scrape_reddit creds reddit_search query limit) = Uncaught e' /\
      snd (main creds reddit_search browser_scrape reddit query limit output) = 1%Z /\
      csv_writes (fst (main creds reddit_search browser_scrape reddit query limit output)) = []
  end.
Proof.
  intros Hfirst Hraise.
  pose proof (first_search_set query limit name Hfirst) as Hset.
  destruct (scrape_reddit_start query limit Hset) as (name' & rest & _ & Htrace & Hres).
  assert (name' = name).
  { apply (first_search_unique query limit); [|exact Hfirst].
    unfold first_search. rewrite Htrace. reflexivity. }
  subst name'. rewrite Hraise in Hres. destruct Hres as [-> Hres].
  split; [rewrite Htrace; reflexivity|].
  destruct (reddit_search (py "all") query limit) as [subs|e'] eqn:Hall; [exact Hres|].
  split; [exact Hres|].
  destruct (main_scrape reddit query limit output) as (banner & Hbanner & Hmain).
  cbn [scrape] in Hmain. rewrite Hres in Hmain. rewrite Hmain. cbn [fst snd].
  split; [reflexivity|]. rewrite csv_writes_app, (csv_writes_prints banner Hbanner).
  apply csv_writes_none. apply scrape_reddit_no_csv.
Qed.


End Facts.
End RedditFacts.

(** ** The Google Maps path of the scraper *)

Module GmapsFacts.
Import Scraper Gmaps.
Local Open Scope Z_scope.

(** *** Strings and lists *)

Lemma lstrip_head s : match lstrip s with c :: _ => is_space c = false | [] => True end.
Proof.
  induction s as [|c s IH]; cbn [lstrip]; [exact I|].
  destruct (is_space c) eqn:Hc; [exact IH|exact Hc].
Qed.

Lemma lstrip_suffix s : exists removed, s = removed ++ lstrip s.
Proof.
  induction s as [|c s [removed IH]]; cbn [lstrip]; [now exists []|].
  destruct (is_space c); [|now exists []].
  exists (c :: removed). cbn [app]. now f_equal.
Qed.

Lemma lstrip_keeps_last s d :
  match lstrip s with
  | [] => True
  | c :: r => last (c :: r) d = last s d
  end.
Proof.
  induction s as [|c s IH]; cbn [lstrip]; [exact I|].
  destruct (is_space c); [|reflexivity].
  destruct (lstrip s) as [|x r] eqn:Hl; [exact I|].
  rewrite IH. destruct s; [discriminate|reflexivity].
Qed.

Lemma last_rev {A} (l : list A) d : last (rev l) d = hd d l.
Proof.
  destruct l as [|a l]; [reflexivity|]. cbn [rev hd]. apply last_last.
Qed.

Lemma hd_rev {A} (l : list A) d : hd d (rev l) = last l d.
Proof. rewrite <- (rev_involutive l) at 2. now rewrite last_rev. Qed.

(** [s.strip()] has no white space at either end. *)
Lemma strip_stripped s : stripped (strip s).
Proof.
  unfold stripped, strip, rstrip.
  destruct (rev (lstrip (rev (lstrip s)))) as [|c r] eqn:Hs; [exact I|].
  pose proof (lstrip_head (rev (lstrip s))) as Hhead.
  pose proof (lstrip_keeps_last (rev (lstrip s)) c) as Hlast.
  pose proof (lstrip_head s) as Hfirst.
  destruct (lstrip (rev (lstrip s))) as [|x t] eqn:Hl.
  - discriminate.
  - split.
    + (* the first character is the last of the inner list, which is the
         head of [lstrip s] *)
      assert (Hc : c = last (x :: t) c).
      { rewrite <- (hd_rev (x :: t) c). now rewrite Hs. }
      rewrite Hlast, last_rev in Hc.
      destruct (lstrip s) as [|y u]; [discriminate|]. cbn [hd] in Hc. now subst y.
    + rewrite <- Hs, last_rev. exact Hhead.
Qed.

Lemma fromkeys_spec keys : forall seen,
  NoDup (fromkeys seen keys) /\
  (forall k, In k (fromkeys seen keys) -> In k keys /\ ~ In k seen).
Proof.
  induction keys as [|k keys IH]; intros seen; cbn [fromkeys].
  - split; [constructor|intros k []].
  - destruct (existsb (pystr_eqb k) seen) eqn:Hseen.
    + destruct (IH seen) as [Hnd Hin]. split; [exact Hnd|].
      intros x Hx. destruct (Hin x Hx). split; [now right|assumption].
    + destruct (IH (k :: seen)) as [Hnd Hin].
      assert (Hk : ~ In k seen).
      { intros Hk. assert (existsb (pystr_eqb k) seen = true); [|congruence].
        apply existsb_exists. exists k. split; [exact Hk|apply pystr_eqb_refl]. }
      split.
      * constructor; [|exact Hnd]. intros Hx. destruct (Hin k Hx) as [_ Hnot].
        apply Hnot. now left.
      * intros x [<-|Hx]; [split; [now left|exact Hk]|].
        destruct (Hin x Hx) as [H1 H2]. split; [now right|].
        intros Hs. apply H2. now right.
Qed.

Lemma location_urls_NoDup links : NoDup (location_urls links).
Proof. apply fromkeys_spec. Qed.

Lemma NoDup_firstn {A} n (l : list A) : NoDup l -> NoDup (firstn n l).
Proof.
  revert n. induction l as [|a l IH]; intros [|n] Hnd; cbn [firstn]; try constructor.
  - inversion Hnd as [|? ? Hnot Hnd']; subst. intros Hin. apply Hnot.
    rewrite <- (firstn_skipn n l). apply in_or_app. now left.
  - inversion Hnd; subst. now apply IH.
Qed.

Lemma slice_to_NoDup {A} n (l : list A) : NoDup l -> NoDup (slice_to n l).
Proof. unfold slice_to. destruct (0 <=? n); apply NoDup_firstn. Qed.

Lemma slice_to_length {A} n (l : list A) :
  0 <= n -> (List.length (slice_to n l) <= Z.to_nat n)%nat.
Proof.
  intros Hn. unfold slice_to. destruct (Z.leb_spec 0 n); [|lia].
  rewrite length_firstn. lia.
Qed.

(** *** Runs of the script *)

Section Runs.
Context {host : Host}.
Variable world : Type.
Variable browser : forall R, call R -> world -> result R * world.
Variable soup : pystr -> document.

Lemma holds_ret {A} (a : A) P (Q : A -> Prop) : Q a -> holds (ret a : run world A) P Q.
Proof. intros Ha w. split; [constructor|exact Ha]. Qed.

Lemma holds_raise {A} e P (Q : A -> Prop) : holds (raise e : run world A) P Q.
Proof. intros w. split; [constructor|exact I]. Qed.

Lemma holds_bind {A B} (m : run world A) (k : A -> run world B) P Q1 Q2 :
  holds m P Q1 -> (forall a, Q1 a -> holds (k a) P Q2) -> holds (bind m k) P Q2.
Proof.
  intros Hm Hk w. unfold bind. specialize (Hm w).
  destruct (m w) as [[done w1] [a|e]]; cbn [fst snd] in Hm |- *.
  - destruct Hm as [Hd Ha]. specialize (Hk a Ha w1).
    destruct (k a w1) as [[done' w2] r]. cbn [fst snd] in Hk |- *.
    destruct Hk as [Hd' Hr]. split; [now apply Forall_app|exact Hr].
  - destruct Hm as [Hd _]. now split.
Qed.

Lemma holds_try {A} (m : run world A) P (Q : A -> Prop) :
  holds m P Q ->
  holds (try m) P (fun r => match r with Done a => Q a | Failed _ => True end).
Proof.
  intros Hm w. unfold try. specialize (Hm w).
  destruct (m w) as [[done w1] r]. exact Hm.
Qed.

Lemma holds_print msg P (Q : unit -> Prop) :
  P (Printed msg) -> Q tt -> holds (print msg : run world unit) P Q.
Proof. intros Hp Hq w. split; [repeat constructor; exact Hp|exact Hq]. Qed.

Lemma holds_sleep seconds P (Q : unit -> Prop) :
  P (Slept seconds) -> Q tt -> holds (sleep seconds : run world unit) P Q.
Proof. intros Hp Hq w. split; [repeat constructor; exact Hp|exact Hq]. Qed.

Lemma holds_selenium {R} (c : call R) P :
  P (Called c) -> holds (selenium browser c) P (fun _ => True).
Proof.
  intros Hp w. unfold selenium. destruct (browser R c w) as [r w1]. cbn [fst snd].
  split; [repeat constructor; exact Hp|now destruct r].
Qed.

Lemma holds_weaken {A} (m : run world A) P (Q Q' : A -> Prop) :
  holds m P Q -> (forall a, Q a -> Q' a) -> holds m P Q'.
Proof.
  intros Hm Hq w. destruct (Hm w) as [Hd Hr]. split; [exact Hd|].
  destruct (snd (m w)); [now apply Hq|exact I].
Qed.

(** A run that starts with a call: the call is the first action. *)
Lemma holds_after_call {R B} (c : call R) (k : R -> run world B) P Q w :
  (forall a, holds (k a) P Q) ->
  exists rest,
    fst (fst (bind (selenium browser c) k w)) = Called c :: rest /\
    Forall P rest /\
    match snd (bind (selenium browser c) k w) with Done b => Q b | Failed _ => True end.
Proof.
  intros Hk. unfold bind, selenium. destruct (browser R c w) as [[a|e] w1].
  - destruct (Hk a w1) as [Hd Hr]. destruct (k a w1) as [[done w2] r].
    exists done. cbn [fst snd app] in *. now split.
  - exists []. cbn [fst snd]. repeat split. constructor.
Qed.

Lemma holds_after_print {B} msg (k : unit -> run world B) w :
  bind (print msg) k w =
  (Printed msg :: fst (fst (k tt w)), snd (fst (k tt w)), snd (k tt w)).
Proof. unfold bind, print. now destruct (k tt w) as [[done w1] r]. Qed.

Lemma loaded_quiet done : Forall quiet done -> loaded done = [].
Proof.
  induction 1 as [|a done Ha _ IH]; [reflexivity|].
  cbn [loaded flat_map]. fold (loaded done). rewrite IH, app_nil_r.
  destruct a as [| |R c]; try reflexivity. destruct c; try reflexivity. contradiction.
Qed.

Lemma quits_inner done : Forall inner done -> quits done = O.
Proof.
  unfold quits. induction 1 as [|a done Ha _ IH]; [reflexivity|].
  cbn [filter]. destruct a as [| |R c]; try exact IH. destruct c; try exact IH. contradiction.
Qed.

Lemma quiet_inner a : quiet a -> inner a.
Proof. destruct a as [| |R c]; try exact id. destruct c; cbn; tauto. Qed.

Lemma loaded_app a b : loaded (a ++ b) = loaded a ++ loaded b.
Proof. unfold loaded. apply flat_map_app. Qed.

Lemma quits_app a b : quits (a ++ b) = (quits a + quits b)%nat.
Proof. unfold quits. now rewrite filter_app, length_app. Qed.

(** **** [scroll_element] *)

Lemma scroll_loop_spec element : forall n w,
  exists (k : nat) (failed : bool),
    (k + (if failed then 1 else 0) <= n)%nat /\
    (failed = false -> k = n) /\
    fst (fst (scroll_loop browser element n w)) =
      List.concat (repeat [Called (ExecuteScript scroll_script element); Slept (py "1.2")] k)
      ++ (if failed then [Called (ExecuteScript scroll_script element)] else []) /\
    snd (scroll_loop browser element n w) = Done tt.
Proof.
  induction n as [|n IH]; intros w.
  - exists O, false. cbn. split; [lia|]. repeat split.
  - cbn [scroll_loop]. unfold bind at 1, try, bind, selenium, sleep.
    destruct (browser unit (ExecuteScript scroll_script element) w) as [[[]|e] w1].
    + destruct (IH w1) as (k & failed & Hk & Hall & Htrace & Hres).
      destruct (scroll_loop browser element n w1) as [[done w2] r].
      cbn [fst snd] in *. exists (S k), failed.
      split; [lia|]. split; [intros Hf; now rewrite (Hall Hf)|].
      split; [|exact Hres]. rewrite Htrace. reflexivity.
    + exists O, true. cbn. repeat split; [lia|discriminate].
Qed.

Lemma scroll_element_quiet element scrolls :
  holds (scroll_element browser element scrolls) quiet (fun _ => True).
Proof.
  intros w. unfold scroll_element.
  destruct (scroll_loop_spec element (Z.to_nat scrolls) w) as (k & failed & _ & _ & -> & ->).
  split; [|exact I]. apply Forall_app. split.
  - induction k as [|k IH]; [constructor|]. cbn [repeat List.concat app].
    repeat (constructor; [exact I|]). exact IH.
  - destruct failed; repeat constructor.
Qed.

(** Property X18.  [scroll_element] never raises.  It runs the scroll script on
    the element and sleeps 1.2 seconds, [scrolls] times over (not at all
    when [scrolls] is zero or negative); the first time the script fails
    it stops, without sleeping.  It calls nothing else. *)
Theorem scroll_element_stops_quietly element scrolls w :
  exists (k : nat) (failed : bool),
    (k + (if failed then 1 else 0) <= Z.to_nat scrolls)%nat /\
    (failed = false -> k = Z.to_nat scrolls) /\
    fst (fst (scroll_element browser element scrolls w)) =
      List.concat (repeat [Called (ExecuteScript scroll_script element); Slept (py "1.2")] k)
      ++ (if failed then [Called (ExecuteScript scroll_script element)] else []) /\
    snd (scroll_element browser element scrolls w) = Done tt.
Proof. apply scroll_loop_spec. Qed.

(** **** [scrape_gmaps_location] *)

Lemma flat_map_at_most_one {A B} (f : A -> list B) l :
  (forall x, List.length (f x) <= 1)%nat -> (List.length (flat_map f l) <= List.length l)%nat.
Proof.
  intros Hf. induction l as [|a l IH]; cbn [flat_map List.length]; [lia|].
  rewrite length_app. specialize (Hf a). lia.
Qed.

Lemma stripped_literal_NA : stripped (py "N/A").
Proof. split; reflexivity. Qed.

Lemma reviews_data_spec query location_name url address rating review_elements :
  (List.length (reviews_data query location_name url address rating review_elements) <= 25)%nat /\
  Forall (fun r => place_record query url r /\ Scraper.location_name r = location_name)
         (reviews_data query location_name url address rating review_elements).
Proof.
  unfold reviews_data. split.
  - etransitivity; [apply flat_map_at_most_one|].
    + intros el. destruct (author_el el), (text_el el); cbn; lia.
    + unfold slice_to, GMAPS_REVIEWS_PER_LOCATION. cbn [Z.leb Z.compare].
      rewrite length_firstn. change (Z.to_nat 25) with 25%nat. lia.
  - apply Forall_forall. intros r Hr. apply in_flat_map in Hr. destruct Hr as (el & _ & Hr).
    destruct (author_el el) as [a|]; [|contradiction].
    destruct (text_el el) as [t|]; [|contradiction].
    destruct Hr as [<-|[]]. unfold place_record. cbn.
    repeat split; try apply strip_stripped.
    + destruct rating; [apply strip_stripped|apply stripped_literal_NA].
    + destruct address; [apply strip_stripped|apply stripped_literal_NA].
Qed.

(** What [scrape_gmaps_location] does after [driver.get(url)]. *)
Lemma scrape_gmaps_location_spec url query w :
  exists rest,
    fst (fst (scrape_gmaps_location browser soup url query w)) = Called (Get url) :: rest /\
    Forall quiet rest /\
    match snd (scrape_gmaps_location browser soup url query w) with
    | Done records =>
        (List.length records <= 25)%nat /\
        exists location_name,
          Forall (fun r => place_record query url r /\ Scraper.location_name r = location_name)
                 records
    | Failed _ => True
    end.
Proof.
  unfold scrape_gmaps_location. apply holds_after_call. intros _.
  eapply holds_bind with (Q1 := fun _ => True).
  { eapply holds_weaken; [apply holds_try|intros; exact I].
    eapply holds_bind with (Q1 := fun _ => True); [now apply holds_selenium|].
    intros title_element _. now apply holds_selenium. }
  intros [location_name|[]] _.
  - eapply holds_bind with (Q1 := fun _ => True); [now apply holds_selenium|]. intros page _.
    eapply holds_bind with (Q1 := fun _ => True).
    { eapply holds_weaken; [apply holds_try|intros; exact I].
      eapply holds_bind with (Q1 := fun _ => True); [now apply holds_selenium|].
      intros reviews_button _. now apply holds_selenium. }
    intros clicked _.
    eapply holds_bind with (Q1 := fun _ => True).
    { destruct clicked as [[]|[]]; try (now apply holds_ret); apply holds_raise. }
    intros _ _.
    eapply holds_bind with (Q1 := fun _ => True).
    { eapply holds_weaken; [apply holds_try|intros; exact I].
      eapply holds_bind with (Q1 := fun _ => True); [now apply holds_selenium|].
      intros reviews_panel _. apply scroll_element_quiet. }
    intros scrolled _.
    eapply holds_bind with (Q1 := fun _ => True).
    { destruct scrolled as [[]|[]]; try (now apply holds_ret); apply holds_raise. }
    intros _ _.
    eapply holds_bind with (Q1 := fun _ => True); [now apply holds_selenium|]. intros page' _.
    apply holds_ret.
    destruct (reviews_data_spec query location_name url (address (soup page))
                (rating (soup page)) (review_elements (soup page'))) as [Hlen Hall].
    split; [exact Hlen|]. now exists location_name.
  - eapply holds_bind with (Q1 := fun _ => True); [now apply holds_print|]. intros _ _.
    apply holds_ret. split; [cbn; lia|]. exists []. constructor.
  - apply holds_raise.
  - apply holds_raise.
Qed.

(** Property X19.  [scrape_gmaps_location] loads the page of the location first
    and no other page; it neither starts nor quits a browser.  When it
    returns, it returns at most 25 records, all of one location name, each
    with the source [Google Maps], the query and the url it was given, and
    with review text, author, rating and address stripped of white space
    at both ends. *)
Theorem location_page_records url query w :
  hd_error (fst (fst (scrape_gmaps_location browser soup url query w))) = Some (Called (Get url)) /\
  loaded (fst (fst (scrape_gmaps_location browser soup url query w))) = [url] /\
  Forall inner (fst (fst (scrape_gmaps_location browser soup url query w))) /\
  match snd (scrape_gmaps_location browser soup url query w) with
  | Done records =>
      (List.length records <= 25)%nat /\
      exists location_name,
        Forall (fun r => place_record query url r /\ Scraper.location_name r = location_name)
               records
  | Failed _ => True
  end.
Proof.
  destruct (scrape_gmaps_location_spec url query w) as (rest & -> & Hquiet & Hres).
  split; [reflexivity|]. split; [|split; [|exact Hres]].
  - cbn [loaded flat_map]. fold (loaded rest). now rewrite (loaded_quiet rest Hquiet).
  - constructor; [exact I|]. eapply Forall_impl; [|exact Hquiet]. apply quiet_inner.
Qed.

(** **** The loop over the locations *)

Lemma visit_locations_spec query : forall urls results w,
  exists k new,
    (k <= List.length urls)%nat /\
    loaded (fst (fst (fst (visit_locations browser soup query urls results w)))) = firstn k urls /\
    Forall inner (fst (fst (fst (visit_locations browser soup query urls results w)))) /\
    snd (fst (visit_locations browser soup query urls results w)) = results ++ new /\
    (List.length new <= 25 * k)%nat /\
    Forall (fun r => exists url, In url (firstn k urls) /\ place_record query url r) new /\
    (snd (visit_locations browser soup query urls results w) = Done tt ->
     k = List.length urls).
Proof.
  induction urls as [|url urls IH]; intros results w.
  - exists O, []. cbn. rewrite app_nil_r. repeat split; constructor.
  - cbn [visit_locations].
    destruct (scrape_gmaps_location_spec url query w) as (rest & Htrace & Hquiet & Hres).
    destruct (scrape_gmaps_location browser soup url query w) as [[done w1] [location_data|e]];
      cbn [fst snd] in Htrace, Hres; subst done.
    + destruct Hres as (Hlen & name & Hall).
      set (results' := match location_data with
                       | [] => results
                       | _ :: _ => results ++ location_data
                       end).
      assert (Hresults' : results' = results ++ location_data).
      { subst results'. destruct location_data; [now rewrite app_nil_r|reflexivity]. }
      destruct (IH results' w1) as (k & new & Hk & Hload & Hinner & Hnew & Hlen' & Hall' & Hdone).
      destruct (visit_locations browser soup query urls results' w1) as [[[done' w2] results''] r].
      cbn [fst snd] in *.
      exists (S k), (location_data ++ new). split; [cbn [List.length]; lia|]. split; [|split; [|split; [|split; [|split]]]].
      * cbn [app loaded flat_map]. fold (loaded (rest ++ Slept (py "1") :: done')).
        rewrite loaded_app, (loaded_quiet rest Hquiet). cbn [app loaded flat_map].
        fold (loaded done'). rewrite Hload. reflexivity.
      * constructor; [exact I|]. apply Forall_app. split.
        -- eapply Forall_impl; [|exact Hquiet]. apply quiet_inner.
        -- constructor; [exact I|exact Hinner].
      * rewrite Hnew, Hresults', <- app_assoc. reflexivity.
      * rewrite length_app. lia.
      * apply Forall_app. split.
        -- eapply Forall_impl; [|exact Hall]. intros x [Hx _]. exists url. split; [now left|exact Hx].
        -- eapply Forall_impl; [|exact Hall']. intros x (u & Hu & Hx).
           exists u. split; [now right|exact Hx].
      * intros Hr. now rewrite (Hdone Hr).
    + exists 1%nat, []. cbn [fst snd firstn List.length]. split; [lia|].
      split; [|split; [|split; [|split; [|split]]]].
      * cbn [loaded flat_map]. fold (loaded rest). now rewrite (loaded_quiet rest Hquiet).
      * constructor; [exact I|]. eapply Forall_impl; [|exact Hquiet]. apply quiet_inner.
      * now rewrite app_nil_r.
      * cbn. lia.
      * constructor.
      * discriminate.
Qed.

(** **** The search of the locations *)

Lemma find_locations_spec query limit w :
  exists rest,
    fst (fst (find_locations browser soup query limit w)) =
      Printed (py "INFO: Searching Google Maps for: '" ++ query ++ py "'")
      :: Called (Get (search_url query)) :: rest /\
    Forall quiet rest /\
    match snd (find_locations browser soup query limit w) with
    | Done urls => NoDup urls
    | Failed _ => True
    end.
Proof.
  unfold find_locations. rewrite holds_after_print. cbn [fst snd].
  match goal with
  | |- context [bind (selenium browser (Get (search_url query))) ?k w] =>
    destruct (holds_after_call (Get (search_url query)) k quiet
                (fun urls : list pystr => NoDup urls) w) as (rest & Htrace & Hquiet & Hres)
  end.
  - intros _.
    eapply holds_bind with (Q1 := fun _ => True); [now apply holds_selenium|]. intros feed _.
    eapply holds_bind with (Q1 := fun _ => True); [now apply holds_print|]. intros _ _.
    eapply holds_bind with (Q1 := fun _ => True); [apply scroll_element_quiet|]. intros _ _.
    eapply holds_bind with (Q1 := fun _ => True); [now apply holds_selenium|]. intros page _.
    eapply holds_bind with (Q1 := fun _ => True); [now apply holds_print|]. intros _ _.
    apply holds_ret. apply location_urls_NoDup.
  - exists rest. rewrite Htrace. now split.
Qed.

(** **** [scrape_gmaps] *)

Lemma setup_driver_spec w :
  fst (fst (setup_driver browser w)) =
    [Printed (py "INFO: Setting up Selenium WebDriver...");
     Called (Chrome [py "--headless"; py "--start-maximized"; py "--disable-gpu";
                     py "log-level=3";
                     py "user-agent=Mozilla/5.0 (Windows NT 10.0; Win64; x64) AppleWebKit/537.36 (KHTML, like Gecko) Chrome/91.0.4472.124 Safari/537.36"])].
Proof.
  unfold setup_driver. rewrite holds_after_print. cbn [fst]. unfold selenium.
  now destruct (browser unit _ w).
Qed.

Lemma close_driver_spec w :
  fst (fst (close_driver browser w)) = [Printed (py "INFO: Closing WebDriver."); Called Quit] /\
  snd (fst (close_driver browser w)) = snd (browser unit Quit w) /\
  snd (close_driver browser w) = fst (browser unit Quit w).
Proof.
  unfold close_driver. rewrite holds_after_print. cbn [fst snd]. unfold selenium.
  now destruct (browser unit Quit w).
Qed.

(** The run of [scrape_gmaps] once the browser has started: what the
    body of the [try] does, what the handler and the [finally] clause
    add, and the outcome. *)
Lemma scrape_gmaps_spec query limit w :
  match snd (setup_driver browser w) with
  | Failed e =>
      scrape_gmaps browser soup query limit w =
      (fst (fst (setup_driver browser w)), snd (fst (setup_driver browser w)), Failed e)
  | Done _ =>
      exists rest visited new handled w1,
        fst (fst (scrape_gmaps browser soup query limit w)) =
          fst (fst (setup_driver browser w))
          ++ (Printed (py "INFO: Searching Google Maps for: '" ++ query ++ py "'")
              :: Called (Get (search_url query)) :: rest)
          ++ handled ++ [Printed (py "INFO: Closing WebDriver."); Called Quit] /\
        Forall inner rest /\ Forall is_printed handled /\
        loaded rest = visited /\ NoDup visited /\
        (0 <= limit -> (List.length visited <= Z.to_nat limit)%nat) /\
        (List.length new <= 25 * List.length visited)%nat /\
        Forall (fun r => exists url, In url visited /\ place_record query url r) new /\
        snd (fst (scrape_gmaps browser soup query limit w)) = snd (browser unit Quit w1) /\
        match fst (browser unit Quit w1) with
        | Failed e => snd (scrape_gmaps browser soup query limit w) = Failed e
        | Done _ =>
            snd (scrape_gmaps browser soup query limit w) = Done new \/
            exists e, e <> TimeoutException /\
                      snd (scrape_gmaps browser soup query limit w) = Failed e
        end
  end.
Proof.
  unfold scrape_gmaps.
  destruct (setup_driver browser w) as [[done0 w0] [[]|e]]; cbn [fst snd]; [|reflexivity].
  destruct (find_locations_spec query limit w0) as (rest & Htrace & Hquiet & Hres).
  destruct (find_locations browser soup query limit w0) as [[done w'] [urls|e]];
    cbn [fst snd] in Htrace, Hres; subst done.
  - destruct (visit_locations_spec query (slice_to limit urls) [] w')
      as (k & new & Hk & Hload & Hinner & Hnew & Hlen & Hall & _).
    destruct (visit_locations browser soup query (slice_to limit urls) [] w')
      as [[[done' w''] results] r]. cbn [fst snd app] in Hload, Hinner, Hnew. subst results.
    assert (Hnd : NoDup (firstn k (slice_to limit urls)))
      by (apply NoDup_firstn, slice_to_NoDup, Hres).
    assert (Hlim : 0 <= limit ->
                   (List.length (firstn k (slice_to limit urls)) <= Z.to_nat limit)%nat).
    { intros Hl. rewrite length_firstn. pose proof (slice_to_length limit urls Hl). lia. }
    assert (Hlenk : List.length (firstn k (slice_to limit urls)) = k)
      by (rewrite length_firstn; lia).
    assert (Hin : Forall inner (rest ++ done')).
    { apply Forall_app. split; [|exact Hinner].
      eapply Forall_impl; [|exact Hquiet]. apply quiet_inner. }
    assert (Hld : loaded (rest ++ done') = firstn k (slice_to limit urls))
      by (rewrite loaded_app, (loaded_quiet rest Hquiet); exact Hload).
    rewrite <- Hlenk in Hlen.
    destruct (close_driver_spec w'') as (Hc1 & Hc2 & Hc3).
    destruct (close_driver browser w'') as [[done3 w3] r3]. cbn [fst snd] in Hc1, Hc2, Hc3.
    subst done3 w3 r3.
    exists (rest ++ done'), (firstn k (slice_to limit urls)), new,
      (match r with
       | Failed TimeoutException =>
         [Printed (py "ERROR: Could not find results panel. Page might have changed or no results found.")]
       | _ => []
       end), w''.
    split; [destruct r as [[]|[]], (fst (browser unit Quit w'')) as [[]|]; reflexivity|].
    split; [exact Hin|].
    split; [destruct r as [[]|[]]; repeat constructor; eexists; reflexivity|].
    split; [exact Hld|]. split; [exact Hnd|]. split; [exact Hlim|].
    split; [exact Hlen|]. split; [exact Hall|].
    split; [destruct r as [[]|[]], (fst (browser unit Quit w'')) as [[]|]; reflexivity|].
    destruct r as [[]|[]], (fst (browser unit Quit w'')) as [[]|]; cbn [snd];
      try reflexivity; try (left; reflexivity).
    + right. exists NoSuchElementException. split; [discriminate|reflexivity].
    + right. exists OtherException. split; [discriminate|reflexivity].
  - destruct (close_driver_spec w') as (Hc1 & Hc2 & Hc3).
    destruct (close_driver browser w') as [[done3 w3] r3]. cbn [fst snd] in Hc1, Hc2, Hc3.
    subst done3 w3 r3.
    exists rest, [], [],
      (match e with
       | TimeoutException =>
         [Printed (py "ERROR: Could not find results panel. Page might have changed or no results found.")]
       | _ => []
       end), w'.
    split; [destruct e, (fst (browser unit Quit w')) as [[]|]; reflexivity|].
    split; [eapply Forall_impl; [|exact Hquiet]; apply quiet_inner|].
    split; [destruct e; repeat constructor; eexists; reflexivity|].
    split; [exact (loaded_quiet rest Hquiet)|].
    split; [constructor|]. split; [cbn; lia|].
    split; [cbn; lia|]. split; [constructor|].
    split; [destruct e, (fst (browser unit Quit w')) as [[]|]; reflexivity|].
    destruct e, (fst (browser unit Quit w')) as [[]|]; cbn [snd];
      try reflexivity; try (left; reflexivity).
    + right. exists NoSuchElementException. split; [discriminate|reflexivity].
    + right. exists OtherException. split; [discriminate|reflexivity].
Qed.

Lemma printed_inner handled : Forall is_printed handled -> Forall inner handled.
Proof.
  intros H. eapply Forall_impl; [|exact H]. intros a [msg ->]. exact I.
Qed.

Lemma loaded_printed handled : Forall is_printed handled -> loaded handled = [].
Proof.
  induction 1 as [|a handled [msg ->] _ IH]; [reflexivity|exact IH].
Qed.

(** Property X20.  [scrape_gmaps] and the browser.  When the browser does not
    start, the exception leaves [scrape_gmaps] and nothing else is
    called.  When it starts, it is quit exactly once, by the last action
    of the run, whatever happened in between; and a timeout never leaves
    [scrape_gmaps]: unless quitting itself fails, the run returns records
    or raises an exception other than [TimeoutException]. *)
Theorem driver_is_always_quit query limit w :
  match snd (setup_driver browser w) with
  | Failed e =>
      snd (scrape_gmaps browser soup query limit w) = Failed e /\
      fst (fst (scrape_gmaps browser soup query limit w)) = fst (fst (setup_driver browser w)) /\
      quits (fst (fst (scrape_gmaps browser soup query limit w))) = O
  | Done _ =>
      quits (fst (fst (scrape_gmaps browser soup query limit w))) = 1%nat /\
      exists before w1,
        fst (fst (scrape_gmaps browser soup query limit w)) =
          before ++ [Printed (py "INFO: Closing WebDriver."); Called Quit] /\
        snd (fst (scrape_gmaps browser soup query limit w)) = snd (browser unit Quit w1) /\
        match fst (browser unit Quit w1) with
        | Failed e => snd (scrape_gmaps browser soup query limit w) = Failed e
        | Done _ => snd (scrape_gmaps browser soup query limit w) <> Failed TimeoutException
        end
  end.
Proof.
  pose proof (scrape_gmaps_spec query limit w) as H.
  pose proof (setup_driver_spec w) as Hsetup.
  destruct (snd (setup_driver browser w)) as [[]|e].
  - destruct H as (rest & visited & new & handled & w1 & Htrace & Hinner & Hprinted & _ & _ & _
                   & _ & _ & Hworld & Hres).
    rewrite Htrace, Hsetup. split.
    + rewrite !quits_app. cbn [app].
      change (quits (Printed _ :: Called (Get (search_url query)) :: rest)) with (quits rest).
      rewrite (quits_inner rest Hinner), (quits_inner handled (printed_inner handled Hprinted)).
      reflexivity.
    + eexists _, w1. split; [rewrite !app_assoc; reflexivity|]. split; [exact Hworld|].
      destruct (fst (browser unit Quit w1)) as [[]|e]; [|exact Hres].
      destruct Hres as [->|(e & He & ->)]; [discriminate|]. intros Heq. injection Heq as ->.
      now apply He.
  - rewrite H. cbn [fst snd]. split; [reflexivity|]. split; [reflexivity|].
    rewrite Hsetup. reflexivity.
Qed.

(** Property X21.  The pages that [scrape_gmaps] loads, once the browser has
    started: the search page of the query first (spaces written as plus
    signs), then location pages, each a different url, and for a limit
    that is not negative at most [limit] of them.  The records it returns
    are reviews of the pages it loaded, at most 25 for each. *)
Theorem locations_are_loaded_once query limit w :
  snd (setup_driver browser w) = Done tt ->
  exists visited,
    loaded (fst (fst (scrape_gmaps browser soup query limit w)))
      = (py "https://www.google.com/maps/search/" ++ spaces_to_plus query) :: visited /\
    NoDup visited /\
    (0 <= limit -> (List.length visited <= Z.to_nat limit)%nat) /\
    match snd (scrape_gmaps browser soup query limit w) with
    | Done records =>
        (List.length records <= 25 * List.length visited)%nat /\
        Forall (fun r => exists url, In url visited /\ place_record query url r) records
    | Failed _ => True
    end.
Proof.
  intros Hstart.
  pose proof (scrape_gmaps_spec query limit w) as H.
  pose proof (setup_driver_spec w) as Hsetup. rewrite Hstart in H.
  destruct H as (rest & visited & new & handled & w1 & Htrace & Hinner & Hprinted & Hload & Hnd
                 & Hlim & Hlen & Hall & _ & Hres).
  exists visited. split; [|split; [exact Hnd|split; [exact Hlim|]]].
  - rewrite Htrace, Hsetup, !loaded_app. cbn [app].
    change (loaded (Printed _ :: Called (Get (search_url query)) :: rest))
      with (search_url query :: loaded rest).
    change (loaded [Printed _; Called (Chrome _)]) with (@nil pystr).
    rewrite Hload, (loaded_printed handled Hprinted). cbn [app].
    change (loaded [Printed _; Called Quit]) with (@nil pystr). now rewrite app_nil_r.
  - destruct (fst (browser unit Quit w1)) as [[]|e]; [|now rewrite Hres].
    destruct Hres as [->|(e & _ & ->)]; [now split|exact I].
Qed.

End Runs.

End GmapsFacts.

(** ** The command line on the Google Maps platform *)

Module GmapsCliFacts.
Import Scraper Cli Gmaps RedditFacts GmapsFacts.
Local Open Scope Z_scope.

Section Facts.
Context {host : Host}.
Variable creds : credentials.
Variable reddit_search : pystr -> pystr -> Z -> pyres (list submission).
Variable world : Type.
Variable browser : forall R, call R -> world -> result R * world.
Variable soup : pystr -> document.

(** The command line with the browser in state [w]. *)
Lemma main_gmaps query limit output w :
  exists banner,
    Forall is_print banner /\
    main creds reddit_search (browser_scrape_from browser soup w) gmaps query limit output =
    match snd (Gmaps.scrape_gmaps browser soup query limit w) with
    | Done results =>
        (banner ++ [BrowserSearch query limit] ++ save_to_csv results output, 0)
    | Failed _ => (banner ++ [BrowserSearch query limit], 1)
    end.
Proof.
  destruct (main_scrape creds reddit_search (browser_scrape_from browser soup w)
              gmaps query limit output) as (banner & Hbanner & Hmain).
  exists banner. split; [exact Hbanner|]. rewrite Hmain.
  cbn [scrape]. unfold Scraper.scrape_gmaps, browser_scrape_from. cbn [fst snd].
  destruct (snd (Gmaps.scrape_gmaps browser soup query limit w)); reflexivity.
Qed.

(** Property X22.  The CSV file of the Google Maps platform.  For a limit that
    is not negative, a run of the command line on the [gmaps] platform
    writes at most one file, under the name given by [--output], and the
    file has at least one row and at most 25 rows for each of the [limit]
    locations; with limit 0 it writes none. *)
Theorem gmaps_csv_is_bounded query limit output w :
  0 <= limit ->
  csv_writes (fst (main creds reddit_search (browser_scrape_from browser soup w)
                        gmaps query limit output)) = [] \/
  exists n,
    csv_writes (fst (main creds reddit_search (browser_scrape_from browser soup w)
                          gmaps query limit output)) = [(output, n)] /\
    (1 <= n <= 25 * Z.to_nat limit)%nat.
Proof.
  intros Hlimit.
  destruct (main_gmaps query limit output w) as (banner & Hbanner & ->).
  pose proof (scrape_gmaps_spec world browser soup query limit w) as H.
  destruct (snd (setup_driver browser w)) as [[]|e0].
  - destruct H as (rest & visited & new & handled & w1 & _ & _ & _ & _ & _ & Hlim & Hlen & _ & _
                   & Hres).
    specialize (Hlim Hlimit).
    destruct (fst (browser unit Quit w1)) as [[]|e].
    + destruct Hres as [->|(e & _ & ->)]; cbn [fst].
      * rewrite !csv_writes_app, (csv_writes_prints banner Hbanner).
        destruct new as [|r rs]; [now left|]. right.
        exists (List.length (r :: rs)). split; [reflexivity|]. cbn [List.length] in *. lia.
      * left. rewrite csv_writes_app, (csv_writes_prints banner Hbanner). reflexivity.
    + rewrite Hres. left. cbn [fst].
      rewrite csv_writes_app, (csv_writes_prints banner Hbanner). reflexivity.
  - rewrite H. cbn [fst snd]. left.
    rewrite csv_writes_app, (csv_writes_prints banner Hbanner). reflexivity.
Qed.

(** Property X23.  When the browser starts and quits, the search page loads and
    the results feed does not show up within the ten seconds,
    [scrape_gmaps] prints that it could not find the results panel, quits
    the browser and returns no record; the command line then warns that
    no data was collected, writes no file and ends with status 0. *)
Theorem missing_results_panel_ends_quietly query limit output w :
  snd (setup_driver browser w) = Done tt ->
  (forall w', fst (browser unit (Get (search_url query)) w') = Done tt) ->
  (forall w', fst (browser element (UntilPresent 10 feed_selector) w') = Failed TimeoutException) ->
  (forall w', fst (browser unit Quit w') = Done tt) ->
  snd (Gmaps.scrape_gmaps browser soup query limit w) = Done [] /\
  fst (fst (Gmaps.scrape_gmaps browser soup query limit w)) =
    fst (fst (setup_driver browser w)) ++
    [Printed (py "INFO: Searching Google Maps for: '" ++ query ++ py "'");
     Called (Get (search_url query));
     Called (UntilPresent 10 feed_selector);
     Printed (py "ERROR: Could not find results panel. Page might have changed or no results found.");
     Printed (py "INFO: Closing WebDriver.");
     Called Quit] /\
  snd (main creds reddit_search (browser_scrape_from browser soup w) gmaps query limit output) = 0 /\
  csv_writes (fst (main creds reddit_search (browser_scrape_from browser soup w)
                        gmaps query limit output)) = [] /\
  In (Print (py "WARNING: No data was collected. CSV file will not be created."))
     (fst (main creds reddit_search (browser_scrape_from browser soup w)
                gmaps query limit output)).
Proof.
  intros Hstart Hget Hfeed Hquit.
  assert (Hrun : snd (Gmaps.scrape_gmaps browser soup query limit w) = Done [] /\
                 fst (fst (Gmaps.scrape_gmaps browser soup query limit w)) =
                 fst (fst (setup_driver browser w)) ++
                 [Printed (py "INFO: Searching Google Maps for: '" ++ query ++ py "'");
                  Called (Get (search_url query));
                  Called (UntilPresent 10 feed_selector);
                  Printed (py "ERROR: Could not find results panel. Page might have changed or no results found.");
                  Printed (py "INFO: Closing WebDriver.");
                  Called Quit]).
  { assert (Hfind : forall w0, exists w2,
              find_locations browser soup query limit w0 =
              ([Printed (py "INFO: Searching Google Maps for: '" ++ query ++ py "'");
                Called (Get (search_url query));
                Called (UntilPresent 10 feed_selector)], w2, Failed TimeoutException)).
    { intros w0. unfold find_locations, bind, print, selenium.
      pose proof (Hget w0) as Hg.
      destruct (browser unit (Get (search_url query)) w0) as [g w1].
      cbn [fst] in Hg. subst g. pose proof (Hfeed w1) as Hf.
      destruct (browser element (UntilPresent 10 feed_selector) w1) as [f w2].
      cbn [fst] in Hf. subst f. exists w2. reflexivity. }
    assert (Hclose : forall w2, exists w3,
              close_driver browser w2 =
              ([Printed (py "INFO: Closing WebDriver."); Called Quit], w3, Done tt)).
    { intros w2. unfold close_driver, bind, print, selenium.
      pose proof (Hquit w2) as Hq. destruct (browser unit Quit w2) as [q w3].
      cbn [fst] in Hq. subst q. exists w3. reflexivity. }
    unfold Gmaps.scrape_gmaps.
    destruct (setup_driver browser w) as [[done0 w0] r0]. cbn [fst snd] in Hstart |- *.
    subst r0. destruct (Hfind w0) as [w2 ->]. destruct (Hclose w2) as [w3 ->].
    split; reflexivity. }
  destruct Hrun as [Hres Htrace]. split; [exact Hres|]. split; [exact Htrace|].
  destruct (main_gmaps query limit output w) as (banner & Hbanner & ->).
  rewrite Hres. cbn [fst snd save_to_csv]. split; [reflexivity|]. split.
  - rewrite !csv_writes_app, (csv_writes_prints banner Hbanner). reflexivity.
  - apply in_or_app. right. right. left. reflexivity.
Qed.

End Facts.
End GmapsCliFacts.

(** ** Creating a place together with its task *)

Module TriggerFacts.
Import Json JsonFacts Store StoreFacts Api ApiFacts Notions PlaceFacts TaskFacts.
Local Open Scope Z_scope.

Section Facts.
Context {host : Host}.

(** Property X24.  [POST /scrape/place-and-reviews], end to end.  In a
    reachable state a request that succeeds creates a place under an id
    that nothing referred to before: the place is served with the name,
    city, category and address of the request, it has no reviews and no
    summary yet, the message names the id, and exactly one task is handed
    to the background, for that id and with the name and the URLs of the
    request.  When that task runs, whatever the extractors and the LLM
    answer, [GET /places/{id}/reviews] returns exactly the rows of the
    texts collected in the run, the Google Maps rows first. *)
Theorem new_place_gets_its_reviews (s : state) (request : CreatePlaceAndScrapeRequest.t)
    (d' : db) (response : ScrapeResponse.t) (tasks : list task) :
  reachable s ->
  create_place_and_scrape_reviews (store s) request = (d', Ret response, tasks) ->
  exists id row,
    status_code (get_place (store s) id) = 404 /\
    get_place d' id = Ret row /\
    p_name row = CreatePlaceAndScrapeRequest.name request /\
    p_city row = CreatePlaceAndScrapeRequest.city request /\
    p_category row = CreatePlaceAndScrapeRequest.category request /\
    p_address row = CreatePlaceAndScrapeRequest.address request /\
    get_reviews d' id = Ret [] /\
    status_code (get_vibe_summary d' id) = 404 /\
    ScrapeResponse.message response =
      py "Created place '" ++ CreatePlaceAndScrapeRequest.name request
      ++ py "' with ID " ++ str_of_Z id ++ py " and started scraping reviews." /\
    tasks = [{| task_place_id := id;
                task_place_name := CreatePlaceAndScrapeRequest.name request;
                task_google_maps_url := CreatePlaceAndScrapeRequest.google_maps_url request;
                task_tripadvisor_url := CreatePlaceAndScrapeRequest.tripadvisor_url request |}] /\
    forall G api_key acreate t, In t tasks ->
      exists rows_g rows_t,
        get_reviews (run_task G api_key acreate d' t) id = Ret (rows_g ++ rows_t) /\
        Forall2 (scraped_row id (py "Google Maps")) rows_g
                (google_texts G id (CreatePlaceAndScrapeRequest.google_maps_url request)) /\
        Forall2 (scraped_row id (py "TripAdvisor")) rows_t
                (tripadvisor_texts G id (CreatePlaceAndScrapeRequest.tripadvisor_url request)).
Proof.
  intros Hreach. destruct (reachable_references s Hreach) as (Hv & Hr & _).
  unfold create_place_and_scrape_reviews.
  destruct (insert_place (store s) (CreatePlaceAndScrapeRequest.name request)
              (CreatePlaceAndScrapeRequest.city request)
              (CreatePlaceAndScrapeRequest.category request)
              (CreatePlaceAndScrapeRequest.address request)
              (CreatePlaceAndScrapeRequest.latitude request)
              (CreatePlaceAndScrapeRequest.longitude request))
    as [[d1 id]|e] eqn:Hins; [|discriminate].
  intros H; injection H as <- <- <-.
  pose proof (insert_place_fits _ _ _ _ _ _ _ _ _ Hins) as [_ Hfits].
  apply insert_place_row in Hins. destruct Hins as (Hid & Hpl & Hrev & Hvs).
  assert (Hfresh : ~ In id (map p_id (places (store s))))
    by (rewrite Hid; apply next_rowid_fresh).
  assert (Hnone : select_reviews d1 id = []).
  { apply select_reviews_none. rewrite Hrev. intros Hin. apply Hfresh. now apply Hr. }
  eexists id, _.
  split; [|split; [|split; [|split; [|split; [|split; [|split; [|split; [|split; [|split]]]]]]]]].
  - unfold get_place. now rewrite (bind_int_fits _ Hfits), (select_place_fresh (store s) id Hfresh).
  - unfold get_place. rewrite (bind_int_fits _ Hfits). unfold select_place. rewrite Hpl.
    rewrite find_app_none by (apply (select_place_fresh (store s) id Hfresh)).
    cbn [find p_id]. rewrite Z.eqb_refl. reflexivity.
  - reflexivity.
  - reflexivity.
  - reflexivity.
  - reflexivity.
  - unfold get_reviews. now rewrite (bind_int_fits _ Hfits), Hnone.
  - unfold get_vibe_summary. rewrite (bind_int_fits _ Hfits), select_vibe_none; [reflexivity|].
    rewrite Hvs. intros Hin. apply Hfresh. now apply Hv.
  - reflexivity.
  - reflexivity.
  - intros G api_key acreate t [<-|[]]. unfold run_task.
    cbn [task_place_id task_place_name task_google_maps_url task_tripadvisor_url].
    destruct (task_reviews G api_key acreate d1 id (CreatePlaceAndScrapeRequest.name request)
                (CreatePlaceAndScrapeRequest.google_maps_url request)
                (CreatePlaceAndScrapeRequest.tripadvisor_url request))
      as (rows_g & rows_t & Hrows & Hg & Ht).
    exists rows_g, rows_t. split; [|now split].
    unfold get_reviews. rewrite (bind_int_fits _ Hfits). f_equal.
    rewrite (select_reviews_app d1 _ (rows_g ++ rows_t) id Hrows).
    + now rewrite Hnone.
    + apply Forall_app. split; eapply scraped_rows_place; eassumption.
Qed.

(** Property X25.  Every stored row belongs to a place that is served.
    In every reachable state the place of each review, of each summary
    and of each task that waits in the background is a row of [places]:
    [GET /places/{id}] answers 200 for it.  The code keeps this by itself
    (a trigger checks the place, and nothing deletes one): the foreign
    keys of the tables are declared, and the connections do not switch
    their enforcement on. *)
Theorem rows_belong_to_served_places (s : state) :
  reachable s ->
  (forall r, In r (reviews (store s)) ->
     exists row, get_place (store s) (r_place_id r) = Ret row /\ p_id row = r_place_id r) /\
  (forall v, In v (vibe_summaries (store s)) ->
     exists row, get_place (store s) (v_place_id v) = Ret row /\ p_id row = v_place_id v) /\
  (forall t, In t (background s) ->
     exists row, get_place (store s) (task_place_id t) = Ret row /\
                 p_id row = task_place_id t).
Proof.
  intros Hreach. destruct (reachable_references s Hreach) as (Hv & Hr & Ht).
  assert (Hserved : forall id, In id (map p_id (places (store s))) ->
                      exists row, get_place (store s) id = Ret row /\ p_id row = id).
  { intros id Hin. destruct (select_place_found (store s) id Hin) as [row Hsel].
    exists row. unfold get_place.
    rewrite (bind_int_fits _ (reachable_place_fits s id Hreach Hin)), Hsel.
    split; [reflexivity|].
    unfold select_place in Hsel. apply find_some in Hsel. now apply Z.eqb_eq. }
  split; [|split].
  - intros r Hin. apply Hserved, Hr. now apply in_map.
  - intros v Hin. apply Hserved, Hv. now apply in_map.
  - intros t Hin. apply Hserved, Ht. now apply in_map.
Qed.

End Facts.
End TriggerFacts.

(** ** Python's string and list operations, case by case *)

Module TextConformance.
Import Scraper Text Gmaps.

(** [' \x1f a\u200b \u3000'.strip()]: U+001F and U+3000 are white space,
    U+200B is not. *)
Example strip_unicode_spaces :
  strip [0x1F; 32; 97; 0x200B; 32; 0x3000]%N = [97; 0x200B]%N.
Proof. reflexivity. Qed.

(** ['\x85\xa0 N/A   '.strip()] *)
Example strip_both_ends : strip ([0x85; 0xA0; 32]%N ++ py "N/A   ") = py "N/A".
Proof. reflexivity. Qed.

(** A text of white space only strips to the empty string. *)
Example strip_all_spaces : strip [32; 9; 10]%N = [].
Proof. reflexivity. Qed.

(** ['a b  c'.replace(' ', '+')] *)
Example replace_every_space : spaces_to_plus (py "a b  c") = py "a+b++c".
Proof. reflexivity. Qed.

(** [[1, 2, 3, 4][:-1]], [[:0]], [[:-9]], [[:9]] and [[:2]] *)
Example slice_cases :
  slice_to (-1) [1; 2; 3; 4]%N = [1; 2; 3]%N /\
  slice_to 0 [1; 2; 3; 4]%N = [] /\
  slice_to (-9) [1; 2; 3; 4]%N = [] /\
  slice_to 9 [1; 2; 3; 4]%N = [1; 2; 3; 4]%N /\
  slice_to 2 [1; 2; 3; 4]%N = [1; 2]%N.
Proof. repeat split. Qed.

(** [list(dict.fromkeys(['a', 'b', 'a', 'c', 'b']))] *)
Example fromkeys_first_positions :
  fromkeys [] [py "a"; py "b"; py "a"; py "c"; py "b"] = [py "a"; py "b"; py "c"].
Proof. reflexivity. Qed.

(** ['cafes in delhi'.find(' in ')] is 5, ['cafes'.find(' in ')] is -1 and
    the empty string is found at 0 in the empty string. *)
Example find_cases :
  str_find (py " in ") (py "cafes in delhi") = Some 5%nat /\
  str_find (py " in ") (py "cafes") = None /\
  str_find [] [] = Some 0%nat.
Proof. repeat split. Qed.

(** [7 // 5 + 2] is 3, [-7 // 5 + 2] is 0 and [25 // 8 + 1] is 4. *)
Example scroll_counts :
  (7 / 5 + 2 = 3)%Z /\ (-7 / 5 + 2 = 0)%Z /\ (GMAPS_REVIEWS_PER_LOCATION / 8 + 1 = 4)%Z.
Proof. repeat split. Qed.

End TextConformance.

(** ** The properties on the worked examples *)

Module SampleRuns.
Import Json JsonFacts Store StoreFacts Api ApiFacts Notions Text Cli Scraper Gmaps Samples.
Import PlaceFacts TaskFacts CityFacts RequestFacts RedditFacts GmapsFacts GmapsCliFacts TriggerFacts.
Local Open Scope Z_scope.

Section Runs.
#[local] Existing Instance example_host.

Lemma created_place_is_served_witness :
  create_place (store initial) example_place =
    (fst (create_place (store initial) example_place),
     Ret {| Place.id := Some 1; Place.name := py "Blue Cup"; Place.city := py "Pune";
            Place.category := py "cafe"; Place.address := Some (py "12 Main St");
            Place.latitude := None; Place.longitude := None |}) /\
  exists id row,
    get_place (fst (create_place (store initial) example_place)) id = Ret row /\
    p_name row = py "Blue Cup".
Proof.
  split; [reflexivity|].
  destruct (created_place_is_served (store initial) example_place _ _ eq_refl)
    as (id & row & _ & _ & Hget & _ & Hname & _).
  exists id, row. split; [exact Hget|exact Hname].
Defined.

Lemma unencodable_place_is_refused_witness :
  encodable_fields (Place.name unencodable_place) (Place.city unencodable_place)
                   (Place.category unencodable_place) (Place.address unencodable_place) = false /\
  status_code (snd (create_place (store example_scraped) unencodable_place)) = 500.
Proof.
  split; [reflexivity|].
  apply (proj1 (unencodable_place_is_refused (host := example_host))
               (store example_scraped) unencodable_place).
  reflexivity.
Defined.

Lemma ids_are_assigned_in_order_witness :
  reachable example_scraped /\ ids_in_order (store example_scraped).
Proof.
  split; [apply example_scraped_reachable|].
  apply (ids_are_assigned_in_order example_scraped). apply example_scraped_reachable.
Defined.

Lemma example_scraped_later : later example_created example_scraped.
Proof.
  apply later_step with (s' := example_created); [apply later_now|].
  apply (step_background (host := example_host) example_created example_task [] []
           example_globals (Some (py "sk-example")) example_acreate).
  reflexivity.
Qed.

Lemma later_states_keep_what_was_served_witness :
  later example_created example_scraped /\
  exists row,
    get_place (store example_created) 1 = Ret row /\
    get_place (store example_scraped) 1 = Ret row.
Proof.
  split; [apply example_scraped_later|].
  eexists. split; [reflexivity|].
  apply (later_states_keep_what_was_served example_created example_scraped
           example_scraped_later).
  reflexivity.
Defined.

Lemma task_outcome_witness :
  let run := scrape_and_store_reviews example_globals (Some (py "sk-example")) example_acreate
               (store example_created) 1 (py "Blue Cup")
               (Some (py "https://maps.example/blue-cup")) None in
  run = (fst (fst run), snd (fst run), Some (2%nat, true)) /\
  status_code (get_vibe_summary (fst (fst run)) 1) <> 404.
Proof.
  intros run.
  assert (H : run = (fst (fst run), snd (fst run), Some (2%nat, true)))
    by (vm_compute; reflexivity).
  split; [exact H|].
  exact (proj2 (proj2 (task_outcome example_globals (Some (py "sk-example")) example_acreate
                         (store example_created) 1 (py "Blue Cup")
                         (Some (py "https://maps.example/blue-cup")) None _ _ _ H))).
Defined.

Lemma run_leaves_other_places_alone_witness :
  2 <> 1 /\
  get_reviews (fst (fst (scrape_and_store_reviews example_globals (Some (py "sk-example"))
                           example_acreate (store example_created) 1 (py "Blue Cup")
                           (Some (py "https://maps.example/blue-cup")) None))) 2
  = get_reviews (store example_created) 2.
Proof.
  split; [discriminate|].
  apply (run_leaves_other_places_alone example_globals (Some (py "sk-example")) example_acreate
           (store example_created) 1 (py "Blue Cup")
           (Some (py "https://maps.example/blue-cup")) None 2).
  discriminate.
Defined.

Lemma missing_key_is_stored_as_summary_witness :
  truthy_opt (@None pystr) = false /\
  exists d' out row_id,
    summarize_and_upsert None example_acreate example_reviewed 1 example_reviews
      = (d', out, Ret (List.length example_reviews, true)) /\
    get_vibe_summary d' 1 =
      Ret {| VibeSummary.id := Some row_id;
             VibeSummary.place_id := 1;
             VibeSummary.summary := py "AI Summarizer is not configured. Missing API Key.";
             VibeSummary.mood_tags := [py "error"];
             VibeSummary.key_themes := [py "configuration"] |}.
Proof.
  split; [reflexivity|].
  apply (missing_key_is_stored_as_summary None example_acreate example_reviewed 1
           example_reviews).
  reflexivity.
Defined.

Lemma api_failure_is_stored_as_summary_witness :
  code_points (py "Rate limit reached") /\
  exists d' out row_id,
    summarize_and_upsert (Some (py "sk-example"))
                         (fun _ => Summarizer.Failed (py "Rate limit reached"))
                         example_reviewed 1 example_reviews
      = (d', out, Ret (List.length example_reviews, true)) /\
    get_vibe_summary d' 1 =
      Ret {| VibeSummary.id := Some row_id;
             VibeSummary.place_id := 1;
             VibeSummary.summary :=
               py "An error occurred while generating the AI summary: "
               ++ py "Rate limit reached";
             VibeSummary.mood_tags := [py "error"];
             VibeSummary.key_themes := [py "api_failure"] |}.
Proof.
  assert (Hcp : code_points (py "Rate limit reached")).
  { apply Forall_forall. intros c Hc.
    repeat (destruct Hc as [<-|Hc]; [vm_compute; discriminate|]). contradiction. }
  split; [exact Hcp|].
  apply (api_failure_is_stored_as_summary (Some (py "sk-example"))
           (fun _ => Summarizer.Failed (py "Rate limit reached"))
           example_reviewed 1 example_reviews (py "Rate limit reached")).
  - reflexivity.
  - reflexivity.
  - exact Hcp.
  - reflexivity.
Defined.

Lemma missing_keys_get_defaults_witness :
  json_loads other_keys_reply = Ret (JObj [(py "vibe", JStr (py "cozy"))]) /\
  exists d' out row_id,
    summarize_and_upsert (Some (py "sk-example")) (fun _ => Summarizer.Reply other_keys_reply)
                         example_reviewed 1 example_reviews
      = (d', out, Ret (List.length example_reviews, true)) /\
    get_vibe_summary d' 1 =
      Ret {| VibeSummary.id := Some row_id;
             VibeSummary.place_id := 1;
             VibeSummary.summary := py "No summary provided.";
             VibeSummary.mood_tags := [];
             VibeSummary.key_themes := [] |}.
Proof.
  split; [vm_compute; reflexivity|].
  apply (missing_keys_get_defaults (Some (py "sk-example"))
           (fun _ => Summarizer.Reply other_keys_reply)
           example_reviewed 1 example_reviews [(py "vibe", JStr (py "cozy"))]).
  - vm_compute. reflexivity.
  - intros k Hk [Hin|[]]. cbn [fst] in Hin. subst k.
    repeat (destruct Hk as [Hk|Hk]; [vm_compute in Hk; discriminate|]). contradiction.
Defined.

Lemma search_places_in_city_witness :
  unique_summaries (store example_scraped) /\ plain_query (py "COZY") /\ plain_query (py "pun") /\
  search_places (store example_scraped) (py "COZY") (Some (py "pun")) =
  Ret (filter (fun p => in_city (Some (py "pun")) p
                        && mentions (store example_scraped) (py "COZY") p)
              (places (store example_scraped))) /\
  (exists p, search_places (store example_scraped) (py "COZY") (Some (py "pun")) = Ret [p]) /\
  search_places (store example_scraped) (py "COZY") (Some (py "Delhi")) = Ret [].
Proof.
  assert (Hu : unique_summaries (store example_scraped)).
  { vm_compute. repeat constructor. intros []. }
  assert (Hq : plain_query (py "COZY")) by plain_queries.
  assert (Hc : plain_query (py "pun")) by plain_queries.
  split; [exact Hu|]. split; [exact Hq|]. split; [exact Hc|].
  pose proof (proj1 (search_places_in_city (store example_scraped) (py "COZY") (Some (py "pun"))
                       Hu Hq Hc)) as H.
  split; [exact H|]. split; [|vm_compute; reflexivity].
  eexists. rewrite H. vm_compute. reflexivity.
Defined.

Lemma one_call_with_every_review_witness :
  truthy_opt (Some (py "sk-example")) = true /\
  occurs_in (py "loud but fun")
            (user_content (Summarizer.request_for example_reviews)).
Proof.
  split; [reflexivity|].
  destruct (one_call_with_every_review (Some (py "sk-example")) example_acreate example_reviews
              eq_refl) as (rest & _ & _ & Hocc).
  apply Hocc. right. left. reflexivity.
Defined.

Lemma example_creds_set : ~ credentials_unset example_creds.
Proof. intros [H|H]; vm_compute in H; discriminate. Qed.

Lemma subreddit_is_guessed_from_query_witness :
  ~ credentials_unset example_creds /\
  str_find (py " in ") (py_lower (py "Cafes in Delhi")) = Some 5%nat /\
  first_search example_creds example_reddit_search (py "Cafes in Delhi") 10 (py "delhi").
Proof.
  split; [exact example_creds_set|]. split; [reflexivity|].
  exact (subreddit_is_guessed_from_query example_creds example_reddit_search
           (py "Cafes in Delhi") 10 example_creds_set eq_refl).
Defined.

Lemma reddit_records_come_from_comments_witness :
  let run := scrape_reddit example_creds example_reddit_search (py "Cafes in Delhi") 10 in
  run = (fst run, Returned (reddit_records (py "Cafes in Delhi") (py "delhi") [example_submission])) /\
  List.length (reddit_records (py "Cafes in Delhi") (py "delhi") [example_submission]) = 1%nat /\
  exists (name : pystr) (submissions : list submission),
    first_search example_creds example_reddit_search (py "Cafes in Delhi") 10 name /\
    (List.length (reddit_records (py "Cafes in Delhi") (py "delhi") [example_submission])
       <= 20 * List.length submissions)%nat.
Proof.
  intros run.
  assert (H : run = (fst run, Returned (reddit_records (py "Cafes in Delhi") (py "delhi")
                                          [example_submission])))
    by (vm_compute; reflexivity).
  split; [exact H|]. split; [reflexivity|].
  destruct (reddit_records_come_from_comments example_creds example_reddit_search
              (py "Cafes in Delhi") 10 _ _ H) as (name & subs & Hfirst & _ & Hlen & _).
  exists name, subs. split; [exact Hfirst|exact Hlen].
Defined.

Lemma reddit_falls_back_to_all_witness :
  first_search example_creds fallback_reddit_search (py "Cafes in Delhi") 10 (py "delhi") /\
  fallback_reddit_search (py "delhi") (py "Cafes in Delhi") 10 = Raise (RuntimeError (py "Redirect")) /\
  nth_error (fst (scrape_reddit example_creds fallback_reddit_search (py "Cafes in Delhi") 10)) 5
    = Some (RedditSearch (py "all") (py "Cafes in Delhi") 10).
Proof.
  split; [reflexivity|]. split; [reflexivity|].
  apply (reddit_falls_back_to_all example_creds fallback_reddit_search (fun _ _ => Ret [])
           (py "Cafes in Delhi") 10 (py "out.csv") (py "delhi") (RuntimeError (py "Redirect"))).
  - reflexivity.
  - reflexivity.
Defined.

Lemma locations_are_loaded_once_witness :
  snd (setup_driver example_browser tt) = Done tt /\
  exists visited,
    loaded (fst (fst (Gmaps.scrape_gmaps example_browser example_soup (py "Cafes in Delhi") 3 tt)))
      = py "https://www.google.com/maps/search/Cafes+in+Delhi" :: visited /\
    NoDup visited.
Proof.
  split; [reflexivity|].
  destruct (locations_are_loaded_once unit example_browser example_soup (py "Cafes in Delhi") 3 tt
              eq_refl) as (visited & Hload & Hnd & _).
  exists visited. split; [exact Hload|exact Hnd].
Defined.

Lemma gmaps_csv_is_bounded_witness :
  0 <= 3 /\
  csv_writes (fst (main example_creds example_reddit_search
                        (browser_scrape_from example_browser example_soup tt)
                        gmaps (py "Cafes in Delhi") 3 (py "out.csv")))
    = [(py "out.csv", 1%nat)].
Proof.
  split; [lia|].
  destruct (gmaps_csv_is_bounded example_creds example_reddit_search unit example_browser
              example_soup (py "Cafes in Delhi") 3 (py "out.csv") tt) as [H|(n & H & _)].
  - lia.
  - vm_compute in H. discriminate.
  - vm_compute. reflexivity.
Defined.

Lemma missing_results_panel_ends_quietly_witness :
  snd (setup_driver timeout_browser tt) = Done tt /\
  snd (Gmaps.scrape_gmaps timeout_browser example_soup (py "Cafes in Delhi") 3 tt) = Done [] /\
  snd (main example_creds example_reddit_search
            (browser_scrape_from timeout_browser example_soup tt)
            gmaps (py "Cafes in Delhi") 3 (py "out.csv")) = 0.
Proof.
  split; [reflexivity|].
  destruct (missing_results_panel_ends_quietly example_creds example_reddit_search unit
              timeout_browser example_soup (py "Cafes in Delhi") 3 (py "out.csv") tt)
    as (Hres & _ & Hstatus & _).
  - reflexivity.
  - intros []. reflexivity.
  - intros []. reflexivity.
  - intros []. reflexivity.
  - split; [exact Hres|exact Hstatus].
Defined.

Lemma new_place_gets_its_reviews_witness :
  let run := create_place_and_scrape_reviews (store example_created) example_request in
  reachable example_created /\
  status_code (snd (fst run)) = 200 /\
  List.length (snd run) = 1%nat /\
  exists id, status_code (get_place (store example_created) id) = 404 /\
             get_reviews (fst (fst run)) id = Ret [].
Proof.
  intros run.
  assert (H : exists response,
             run = (fst (fst run), Ret response, snd run)) by (eexists; reflexivity).
  destruct H as [response H].
  split; [apply example_created_reachable|]. split; [reflexivity|]. split; [reflexivity|].
  destruct (new_place_gets_its_reviews example_created example_request _ _ _
              example_created_reachable H)
    as (id & row & Hbefore & _ & _ & _ & _ & _ & Hrev & _).
  exists id. split; [exact Hbefore|exact Hrev].
Defined.

Lemma rows_belong_to_served_places_witness :
  reachable example_scraped /\
  List.length (reviews (store example_scraped)) = 2%nat /\
  forall r, In r (reviews (store example_scraped)) ->
    exists row, get_place (store example_scraped) (r_place_id r) = Ret row.
Proof.
  split; [apply example_scraped_reachable|]. split; [reflexivity|].
  intros r Hin.
  destruct (proj1 (rows_belong_to_served_places example_scraped example_scraped_reachable)
              r Hin) as (row & Hget & _).
  now exists row.
Defined.

End Runs.
End SampleRuns.

